(** * Day of a Cursor: the playback scheduler, the frame-seek synchronizer
      and the overlay projector

    A shallow embedding of [TimelineViewerVideo] (play/pause, scrubbing,
    keyboard stepping, the self-rescheduling timer loop) and of
    [ScreenshotDisplayVideo] (seeking the video to the frame of the current
    sample, projecting the cursor onto the displayed video).

    Modelling conventions.
    - A JavaScript number is a rational ([Q]) and the results of arithmetic
      are kept exact; [NaN] and the infinities of binary64 are outside the
      model.  The one place where the program branches on a computed
      number that is not an integer is the seek test of
      [ScreenshotDisplayVideo]; there the computation is done as binary64
      does it ([binary64]): a number stands for the double nearest to it,
      and the difference of two doubles is rounded again.  A division
      whose divisor is zero has no rational value: [num_div] reports it as
      the fault [DivisionByZero], so that "this code never divides by zero"
      is a statement about the model.
    - Reading a property of [undefined] is the fault [TypeError].
    - React state is a record; an event handler updates the record, then
      the effects whose dependencies changed are run ([commit]) until
      nothing changes ([flush]), as the single event loop of the browser
      does.  An effect body sees the values of the render it belongs to.
    - The browser's table of pending timeouts is part of the state, next to
      the ref that holds the handle of the last timeout the component
      created: a timeout fires only while it is in that table. *)

From Stdlib Require Import ZArith QArith Qabs Qround Qpower List Bool String
  Lia Lqa.
From Stdlib Require SpecFloat.
Import ListNotations.

(** ** Numbers, faults and samples *)

Definition number : Type := Q.
Bind Scope Q_scope with number.

Inductive fault : Type :=
| TypeError
| DivisionByZero
| TooManyRerenders.

Inductive outcome (A : Type) : Type :=
| Done (a : A)
| Fault (f : fault).

Arguments Done {A} a.
Arguments Fault {A} f.

Definition bind {A B : Type} (m : outcome A) (k : A -> outcome B) : outcome B :=
  match m with
  | Done a => k a
  | Fault f => Fault f
  end.

Notation "x <- m ;; k" := (bind m (fun x => k))
  (at level 61, m at next level, right associativity).

(** [a / b] of the source; [b = 0] is reported, not computed. *)
Definition num_div (a b : number) : outcome number :=
  if Qeq_bool b 0 then Fault DivisionByZero else Done (a / b)%Q.

(** [o.field] where [o] may be [undefined]. *)
Definition defined {A : Type} (o : option A) : outcome A :=
  match o with
  | Some a => Done a
  | None => Fault TypeError
  end.

(** *** Rounding to binary64

    The double nearest to a rational: a multiple [m * 2^e] of a power of
    two with [2^52 <= m <= 2^53], the nearest one, and of two that are
    equally near the one with [m] even.  The exponent is not bounded, so
    that every result is a rational: this is binary64 wherever binary64
    neither overflows nor rounds in its subnormal range, which a quotient
    of an integer by 10 and a difference of two doubles never do short of
    an overflow. *)

Definition roundHalfEven (x : Q) : Z :=
  let f := Qfloor x in
  match Qcompare (x - inject_Z f) (1 # 2) with
  | Lt => f
  | Gt => (f + 1)%Z
  | Eq => if Z.even f then f else (f + 1)%Z
  end.

(** The [e] with [2^52 <= a / 2^e < 2^53], for [a > 0]. *)
Definition binaryExponent (a : Q) : Z :=
  let l := (Z.log2 (Qnum a) - Z.log2 (Zpos (Qden a)) - 52)%Z in
  if Qle_bool (2 ^ 52) (a * 2 ^ (- l))%Q then l else (l - 1)%Z.

Definition binary64 (q : number) : number :=
  let r := Qred q in
  if Qeq_bool r 0 then 0%Q
  else
    let a := Qabs r in
    let e := binaryExponent a in
    let m := roundHalfEven (a * 2 ^ (- e))%Q in
    let magnitude := (inject_Z m * 2 ^ e)%Q in
    if Qle_bool 0 r then magnitude else (- magnitude)%Q.

Arguments binary64 q : simpl never.

(** Binary64 as the Standard Library specifies it ([SpecFloat], precision
    53, exponents below 1024), to compare [binary64] with: the double of an
    integer, and the rational a finite double is. *)
Definition ieeeOfZ (z : Z) : SpecFloat.spec_float :=
  SpecFloat.binary_normalize 53 1024 z 0 false.

Definition ieeeValue (f : SpecFloat.spec_float) : option Q :=
  match f with
  | SpecFloat.S754_zero _ => Some 0%Q
  | SpecFloat.S754_finite sign m e =>
      Some ((if sign then -1 else 1) * inject_Z (Zpos m) * 2 ^ e)%Q
  | _ => None
  end.

(** One row of the CSV, as [loadData] of AppVideo.jsx builds it.  The
    screenshot-mode rows carry no frame number: [frame_number] is then
    [undefined], here [None]. *)
Record Sample : Type := mkSample {
  frame_number : option Z;
  timestamp : number;
  datetime : string;
  x : number;
  y : number
}.

(** ** The playback scheduler: TimelineViewerVideo *)

Module Scheduler.

Open Scope Z_scope.

(** A pending timeout of the browser.  Its callback is the closure created
    in [advanceFrame]: it holds [nextIndex], and the [advanceFrame] it calls
    again holds the [playbackSpeed] of the render whose effect created it. *)
Record Timer : Type := mkTimer {
  timerId : positive;
  timerDelay : number;        (* milliseconds, the second argument of setTimeout *)
  cbNextIndex : Z;
  cbPlaybackSpeed : number
}.

Record Viewer : Type := mkViewer {
  (* useState *)
  currentIndex : Z;
  isPlaying : bool;
  playbackSpeed : number;
  (* useRef *)
  playIntervalRef : option positive;
  playingIndexRef : Z;
  (* the browser: timeouts that are set and neither fired nor cleared *)
  timeouts : list Timer;
  nextTimerId : positive;
  (* the dependency values the effects last ran with *)
  depIndex : Z;
  depPlaying : bool;
  depSpeed : number
}.

Definition setCurrentIndex (i : Z) (v : Viewer) : Viewer :=
  mkViewer i (isPlaying v) (playbackSpeed v) (playIntervalRef v)
           (playingIndexRef v) (timeouts v) (nextTimerId v)
           (depIndex v) (depPlaying v) (depSpeed v).

Definition setIsPlaying (b : bool) (v : Viewer) : Viewer :=
  mkViewer (currentIndex v) b (playbackSpeed v) (playIntervalRef v)
           (playingIndexRef v) (timeouts v) (nextTimerId v)
           (depIndex v) (depPlaying v) (depSpeed v).

Definition setPlaybackSpeed (s : number) (v : Viewer) : Viewer :=
  mkViewer (currentIndex v) (isPlaying v) s (playIntervalRef v)
           (playingIndexRef v) (timeouts v) (nextTimerId v)
           (depIndex v) (depPlaying v) (depSpeed v).

Definition set_playIntervalRef (r : option positive) (v : Viewer) : Viewer :=
  mkViewer (currentIndex v) (isPlaying v) (playbackSpeed v) r
           (playingIndexRef v) (timeouts v) (nextTimerId v)
           (depIndex v) (depPlaying v) (depSpeed v).

Definition set_playingIndexRef (i : Z) (v : Viewer) : Viewer :=
  mkViewer (currentIndex v) (isPlaying v) (playbackSpeed v) (playIntervalRef v)
           i (timeouts v) (nextTimerId v)
           (depIndex v) (depPlaying v) (depSpeed v).

Definition set_timeouts (ts : list Timer) (v : Viewer) : Viewer :=
  mkViewer (currentIndex v) (isPlaying v) (playbackSpeed v) (playIntervalRef v)
           (playingIndexRef v) ts (nextTimerId v)
           (depIndex v) (depPlaying v) (depSpeed v).

Definition set_deps (i : Z) (p : bool) (s : number) (v : Viewer) : Viewer :=
  mkViewer (currentIndex v) (isPlaying v) (playbackSpeed v) (playIntervalRef v)
           (playingIndexRef v) (timeouts v) (nextTimerId v) i p s.

(** [setTimeout(callback, delay)]: a fresh handle, the timeout is pending. *)
Definition setTimeout (delay : number) (nextIndex : Z) (speed : number)
    (v : Viewer) : positive * Viewer :=
  let h := nextTimerId v in
  (h, mkViewer (currentIndex v) (isPlaying v) (playbackSpeed v)
               (playIntervalRef v) (playingIndexRef v)
               (timeouts v ++ [mkTimer h delay nextIndex speed])
               (Pos.succ h) (depIndex v) (depPlaying v) (depSpeed v)).

Definition other_timer (h : positive) (t : Timer) : bool :=
  negb (Pos.eqb (timerId t) h).

(** [clearTimeout(h)]: the timeout, if still pending, will not fire. *)
Definition clearTimeout (h : positive) (v : Viewer) : Viewer :=
  set_timeouts (filter (other_timer h) (timeouts v)) v.

Definition pendingTimeout (h : positive) (v : Viewer) : option Timer :=
  find (fun t => Pos.eqb (timerId t) h) (timeouts v).

(** The state the playback effect starts from once its cleanup has run and
    the index ref is in step: nothing pending, the ref empty. *)
Definition ready (u : Viewer) : Viewer :=
  set_playingIndexRef (currentIndex u)
    (set_playIntervalRef None (set_timeouts [] u)).

Inductive Key : Type := Space | ArrowRight | ArrowLeft | OtherKey.

Inductive Event : Type :=
| ClickPlayPause
| KeyDown (k : Key)
| SliderInput (index : Z)
| SpeedInput (speed : number)
| TimerFires (h : positive).

(** React gives up on a component that keeps updating itself. *)
Definition NESTED_UPDATE_LIMIT : nat := 50.

Section Timeline.

Variable timelineData : list Sample.

Definition dataLength : Z := Z.of_nat (List.length timelineData).

(** [timelineData[i]]: [undefined] outside the array. *)
Definition dataAt (i : Z) : option Sample :=
  if i <? 0 then None else nth_error timelineData (Z.to_nat i).

(** [advanceFrame] of the playback effect; [speed] is the [playbackSpeed]
    its closure holds. *)
Definition advanceFrame (speed : number) (v : Viewer) : outcome Viewer :=
  let index := playingIndexRef v in
  if index >=? dataLength - 1 then Done (setIsPlaying false v)
  else
    let nextIndex := index + 1 in
    nextFrame <- defined (dataAt nextIndex) ;;
    currentFrame <- defined (dataAt index) ;;
    let timeDiff := ((timestamp nextFrame - timestamp currentFrame) * 1000)%Q in
    adjustedInterval <- num_div timeDiff speed ;;
    let (h, v') := setTimeout adjustedInterval nextIndex speed v in
    Done (set_playIntervalRef (Some h) v').

(** The callback handed to [setTimeout]. *)
Definition timerCallback (t : Timer) (v : Viewer) : outcome Viewer :=
  let v1 := setCurrentIndex (cbNextIndex t) v in
  let v2 := set_playingIndexRef (cbNextIndex t) v1 in
  advanceFrame (cbPlaybackSpeed t) v2.

(** [useEffect(() => { playingIndexRef.current = currentIndex }, [currentIndex])] *)
Definition syncIndexEffect (v : Viewer) : Viewer :=
  set_playingIndexRef (currentIndex v) v.

(** [if (playIntervalRef.current) { clearTimeout(...); playIntervalRef.current = null }]:
    the cleanup of the playback effect, and its [else] branch. *)
Definition cancelPending (v : Viewer) : Viewer :=
  match playIntervalRef v with
  | Some h => set_playIntervalRef None (clearTimeout h v)
  | None => v
  end.

(** The body of the playback effect, for a render with the given
    [isPlaying] and [playbackSpeed]. *)
Definition playbackEffect (playing : bool) (speed : number) (v : Viewer)
    : outcome Viewer :=
  if playing then advanceFrame speed v else Done (cancelPending v).

Definition indexChanged (v : Viewer) : bool :=
  negb (currentIndex v =? depIndex v).

Definition playbackChanged (v : Viewer) : bool :=
  negb (Bool.eqb (isPlaying v) (depPlaying v))
  || negb (Qeq_bool (playbackSpeed v) (depSpeed v)).

(** One commit: the cleanups of the effects whose dependencies changed,
    then their bodies in the order of declaration.  The playback effect
    left a cleanup only if it ran its [isPlaying] branch. *)
Definition commit (v : Viewer) : outcome Viewer :=
  let playing := isPlaying v in
  let speed := playbackSpeed v in
  let index := currentIndex v in
  let runSync := indexChanged v in
  let runPlayback := playbackChanged v in
  let v1 := if runPlayback && depPlaying v then cancelPending v else v in
  let v2 := if runSync then syncIndexEffect v1 else v1 in
  v3 <- (if runPlayback then playbackEffect playing speed v2 else Done v2) ;;
  Done (set_deps index playing speed v3).

Definition quiescent (v : Viewer) : bool :=
  negb (indexChanged v) && negb (playbackChanged v).

(** Render and commit until no effect has anything left to do. *)
Fixpoint flush (fuel : nat) (v : Viewer) : outcome Viewer :=
  if quiescent v then Done v
  else match fuel with
       | O => Fault TooManyRerenders
       | S fuel' => v' <- commit v ;; flush fuel' v'
       end.

Definition rerender (v : Viewer) : outcome Viewer :=
  flush NESTED_UPDATE_LIMIT v.

Definition handleKeyPress (k : Key) (v : Viewer) : Viewer :=
  match k with
  | Space => setIsPlaying (negb (isPlaying v)) v
  | ArrowRight =>
      setCurrentIndex (Z.min (currentIndex v + 1) (dataLength - 1)) v
  | ArrowLeft => setCurrentIndex (Z.max (currentIndex v - 1) 0) v
  | OtherKey => v
  end.

Definition handleSliderChange (index : Z) (v : Viewer) : Viewer :=
  setIsPlaying false (setCurrentIndex index v).

Definition handlePlayPause (v : Viewer) : Viewer :=
  if currentIndex v >=? dataLength - 1
  then setIsPlaying true (setCurrentIndex 0 v)
  else setIsPlaying (negb (isPlaying v)) v.

(** [onSpeedChange={setPlaybackSpeed}] *)
Definition handleSpeedChange (speed : number) (v : Viewer) : Viewer :=
  setPlaybackSpeed speed v.

(** One turn of the event loop. *)
Definition step (v : Viewer) (e : Event) : outcome Viewer :=
  match e with
  | ClickPlayPause => rerender (handlePlayPause v)
  | KeyDown k => rerender (handleKeyPress k v)
  | SliderInput index => rerender (handleSliderChange index v)
  | SpeedInput speed => rerender (handleSpeedChange speed v)
  | TimerFires h =>
      match pendingTimeout h v with
      | Some t =>
          v' <- timerCallback t (clearTimeout h v) ;;
          rerender v'
      | None => Done v
      end
  end.

Fixpoint run (v : Viewer) (es : list Event) : outcome Viewer :=
  match es with
  | [] => Done v
  | e :: es' => v' <- step v e ;; run v' es'
  end.

(** What the browser can deliver: the range input has [min=0],
    [max=totalFrames-1], [step=1]; the speed slider has [min=0.1]. *)
Definition deliverable (e : Event) : Prop :=
  match e with
  | SliderInput index => 0 <= index < dataLength
  | SpeedInput speed => (0 < speed)%Q
  | _ => True
  end.

(** The pending timeouts agree with the last run of the playback effect:
    none if it ran its [else] branch; after its [isPlaying] branch either
    the one whose handle the ref holds, or none because the callback has
    just found the end of the data. *)
Definition timers_ok (v : Viewer) : Prop :=
  if depPlaying v
  then (timeouts v = [] /\ isPlaying v = false)
       \/ (exists t, timeouts v = [t]
                     /\ playIntervalRef v = Some (timerId t)
                     /\ 1 <= cbNextIndex t < dataLength
                     /\ (cbPlaybackSpeed t == depSpeed v)%Q
                     /\ (timerId t < nextTimerId v)%positive)
  else timeouts v = [] /\ playIntervalRef v = None.

(** Holds between an event handler and the effects it triggers. *)
Record PreInv (v : Viewer) : Prop := mkPreInv {
  pre_index : 0 <= currentIndex v < dataLength;
  pre_speed : (0 < playbackSpeed v)%Q;
  pre_ref : indexChanged v = false -> playingIndexRef v = currentIndex v;
  pre_timers : timers_ok v
}.

(** Holds whenever the event loop is idle. *)
Definition Inv (v : Viewer) : Prop := PreInv v /\ quiescent v = true.

End Timeline.

(** The component after its first render: [useState(0)], [useState(false)],
    [useState(1)], both refs initialised, every effect run once. *)
Definition mount : Viewer :=
  mkViewer 0 false 1%Q None 0 [] 1%positive 0 false 1%Q.


End Scheduler.

(** ** The synchronizer and the projector: ScreenshotDisplayVideo *)

Module Display.

Open Scope Q_scope.

(** The CSS values the component writes. *)
Inductive Length : Type :=
| Px (n : number)
| Percent (n : number).

Inductive Transform : Type :=
| TransformNone
| Translate (dx dy : Length).

(** The <video> element: what the browser reports and the inline style. *)
Record Video : Type := mkVideo {
  videoWidth : number;
  videoHeight : number;
  clientWidth : number;
  clientHeight : number;
  readyState : Z;
  currentTime : number;
  videoTransform : option Transform;
  videoTransition : option string
}.

(** The cursor overlay <div>: its inline style. *)
Record Cursor : Type := mkCursor {
  cursorLeft : option Length;
  cursorTop : option Length;
  cursorTransform : option Transform;
  cursorTransition : option string
}.

(** [wrapperRef.current.getBoundingClientRect()] *)
Record Wrapper : Type := mkWrapper {
  rectWidth : number;
  rectHeight : number
}.

(** The three refs; [None] is a ref whose [current] is [null]. *)
Record Dom : Type := mkDom {
  cursorRef : option Cursor;
  videoRef : option Video;
  wrapperRef : option Wrapper
}.

Definition videoEase : string :=
  "transform 0.3s cubic-bezier(0.25, 0.46, 0.45, 0.94)".
Definition cursorEaseAll : string :=
  "all 0.3s cubic-bezier(0.25, 0.46, 0.45, 0.94)".
Definition cursorEaseLeftTop : string :=
  "left 0.25s cubic-bezier(0.25, 0.46, 0.45, 0.94), top 0.25s cubic-bezier(0.25, 0.46, 0.45, 0.94)".

(** The literal 10 of [cursorX - 10] and [cursorY - 10]. *)
Definition markerHalfSize : number := 10.

(** Modelled from the spec: the stylesheet that sizes the cursor overlay is
    not among the sources.  The spec's "marker's center sits exactly on the
    cursor point" makes the marker [2 * markerHalfSize] wide and high, so its
    centre is its top-left corner moved by [markerHalfSize] on each axis. *)
Definition markerCenter (corner : number) : number := corner + markerHalfSize.

(** [updateDisplay]: the overlay projector. *)
Definition updateDisplay (data : Sample) (isFpsMode : bool) (d : Dom)
    : outcome Dom :=
  match cursorRef d, videoRef d, wrapperRef d with
  | Some cursor, Some video, Some wrapper =>
      let naturalWidth := videoWidth video in
      let naturalHeight := videoHeight video in
      let displayedWidth := clientWidth video in
      let displayedHeight := clientHeight video in
      if Qeq_bool naturalWidth 0 || Qeq_bool naturalHeight 0 then Done d
      else
        scaleX <- num_div displayedWidth naturalWidth ;;
        scaleY <- num_div displayedHeight naturalHeight ;;
        halfX <- num_div (x data) 2 ;;
        halfY <- num_div (y data) 2 ;;
        let cursorX := halfX * scaleX in
        let cursorY := halfY * scaleY in
        if isFpsMode then
          centerX <- num_div (rectWidth wrapper) 2 ;;
          centerY <- num_div (rectHeight wrapper) 2 ;;
          let offsetX := centerX - cursorX in
          let offsetY := centerY - cursorY in
          Done (mkDom
            (Some (mkCursor (Some (Percent 50)) (Some (Percent 50))
                     (Some (Translate (Percent (-50)) (Percent (-50))))
                     (Some cursorEaseAll)))
            (Some (mkVideo naturalWidth naturalHeight displayedWidth
                     displayedHeight (readyState video) (currentTime video)
                     (Some (Translate (Px offsetX) (Px offsetY)))
                     (Some videoEase)))
            (Some wrapper))
        else
          Done (mkDom
            (Some (mkCursor (Some (Px (cursorX - markerHalfSize)))
                     (Some (Px (cursorY - markerHalfSize)))
                     (Some TransformNone)
                     (Some cursorEaseLeftTop)))
            (Some (mkVideo naturalWidth naturalHeight displayedWidth
                     displayedHeight (readyState video) (currentTime video)
                     (Some TransformNone)
                     (Some "none"%string)))
            (Some wrapper))
  | _, _, _ => Done d
  end.

(** A call of [updateDisplay], as seen by the closure that made it: the
    sample it projected, the [isSeeking] and [pendingData] of its render, and
    where the media stood. *)
Record Projection : Type := mkProjection {
  projData : Sample;
  projSeeking : bool;
  projPending : option Sample;
  projMediaTime : option number
}.

Record Display : Type := mkDisplay {
  (* props *)
  data : Sample;
  isFpsMode : bool;
  (* useState *)
  isSeeking : bool;
  pendingData : option Sample;
  (* the elements behind the refs *)
  dom : Dom;
  (* history: the assignments to video.currentTime, the calls of updateDisplay *)
  seekCommands : list number;
  projections : list Projection
}.

Definition setIsSeeking (b : bool) (s : Display) : Display :=
  mkDisplay (data s) (isFpsMode s) b (pendingData s) (dom s)
            (seekCommands s) (projections s).

Definition setPendingData (p : option Sample) (s : Display) : Display :=
  mkDisplay (data s) (isFpsMode s) (isSeeking s) p (dom s)
            (seekCommands s) (projections s).

Definition set_dom (d : Dom) (s : Display) : Display :=
  mkDisplay (data s) (isFpsMode s) (isSeeking s) (pendingData s) d
            (seekCommands s) (projections s).

Definition set_videoRef (v : option Video) (d : Dom) : Dom :=
  mkDom (cursorRef d) v (wrapperRef d).

Definition mediaTime (d : Dom) : option number :=
  option_map currentTime (videoRef d).

(** [video.currentTime = t]: the media takes the commanded position and
    starts seeking toward it. *)
Definition seekTo (t : number) (s : Display) : Display :=
  match videoRef (dom s) with
  | Some video =>
      mkDisplay (data s) (isFpsMode s) (isSeeking s) (pendingData s)
        (set_videoRef
           (Some (mkVideo (videoWidth video) (videoHeight video)
                    (clientWidth video) (clientHeight video)
                    (readyState video) t
                    (videoTransform video) (videoTransition video)))
           (dom s))
        (seekCommands s ++ [t]) (projections s)
  | None => s
  end.

(** [updateDisplay()] called from a closure of the render [r], acting on the
    elements as they are in [w]. *)
Definition callUpdateDisplay (r w : Display) : outcome Display :=
  d' <- updateDisplay (data r) (isFpsMode r) (dom w) ;;
  Done (mkDisplay (data w) (isFpsMode w) (isSeeking w) (pendingData w) d'
          (seekCommands w)
          (projections w ++
             [mkProjection (data r) (isSeeking r) (pendingData r)
                           (mediaTime (dom w))])).

Definition videoFPS : number := 10.
Definition seekTolerance : number := 0.05.

(** [Math.abs(video.currentTime - targetTime)] as the program computes it:
    the two numbers are doubles, their difference is rounded to a
    double. *)
Definition timeDifference (current target : number) : number :=
  Qabs (binary64 (binary64 current - binary64 target)).

(** [timeDiff > 0.05]; the literal is the double nearest to 0.05. *)
Definition beyondTolerance (timeDiff : number) : bool :=
  negb (Qle_bool timeDiff (binary64 seekTolerance)).

(** The seek effect, dependencies [data, videoRef, updateDisplay]. *)
Definition seekEffect (r w : Display) : outcome Display :=
  match videoRef (dom w), frame_number (data r) with
  | Some video, Some fn =>
      targetTime <- num_div (inject_Z fn) videoFPS ;;
      let timeDiff := timeDifference (currentTime video) targetTime in
      if beyondTolerance timeDiff then
        Done (seekTo targetTime
                (setPendingData (Some (data r)) (setIsSeeking true w)))
      else callUpdateDisplay r w
  | _, _ => Done w
  end.

Definition videoReady (d : Dom) : bool :=
  match videoRef d with
  | Some video => (2 <=? readyState video)%Z
  | None => false
  end.

(** The "update display when not seeking" effect, dependencies
    [data, isFpsMode, updateDisplay, videoRef, isSeeking]. *)
Definition notSeekingEffect (r w : Display) : outcome Display :=
  if negb (isSeeking r) && videoReady (dom w)
  then callUpdateDisplay r w
  else Done w.

(** The commit of a render whose props changed: both effects run, each
    with the state of the render [r]. *)
Definition commitProps (r : Display) : outcome Display :=
  w1 <- seekEffect r r ;;
  notSeekingEffect r w1.

(** The render that follows state updates: of the two effects only the
    second depends on state, on [isSeeking]. *)
Definition commitState (r w : Display) : outcome Display :=
  if Bool.eqb (isSeeking r) (isSeeking w) then Done w
  else notSeekingEffect w w.

Definition handleSeeking (s : Display) : Display := setIsSeeking true s.

Definition handleSeeked (s : Display) : outcome Display :=
  let w := setIsSeeking false s in
  match pendingData s with
  | Some _ => callUpdateDisplay s (setPendingData None w)
  | None => Done w
  end.

(** [handleVideoLoad]; [onVideoLoad] only tells the parent. *)
Definition handleVideoLoad (s : Display) : outcome Display :=
  callUpdateDisplay s s.

(** What the browser reports about the video and its container. *)
Record Layout : Type := mkLayout {
  natWidth : number;
  natHeight : number;
  shownWidth : number;
  shownHeight : number;
  boxWidth : number;
  boxHeight : number
}.

Definition relayout (l : Layout) (d : Dom) : Dom :=
  mkDom (cursorRef d)
        (option_map
           (fun video =>
              mkVideo (natWidth l) (natHeight l) (shownWidth l) (shownHeight l)
                      (readyState video) (currentTime video)
                      (videoTransform video) (videoTransition video))
           (videoRef d))
        (option_map (fun _ => mkWrapper (boxWidth l) (boxHeight l))
                    (wrapperRef d)).

Definition set_readyState (rs : Z) (d : Dom) : Dom :=
  set_videoRef
    (option_map
       (fun video =>
          mkVideo (videoWidth video) (videoHeight video) (clientWidth video)
                  (clientHeight video) rs (currentTime video)
                  (videoTransform video) (videoTransition video))
       (videoRef d))
    d.

Inductive Event : Type :=
| NewSample (d : Sample)          (* the parent renders with another sample *)
| ToggleFpsMode                   (* the parent renders with the other mode *)
| SeekingSignal                   (* onSeeking *)
| SeekedSignal                    (* onSeeked *)
| Resize (l : Layout)             (* window resize *)
| LoadedMetadata (l : Layout)     (* onLoadedMetadata *)
| ReadyStateChange (rs : Z).      (* video.readyState moves; nobody listens *)

Definition step (s : Display) (e : Event) : outcome Display :=
  match e with
  | NewSample d =>
      let r := mkDisplay d (isFpsMode s) (isSeeking s) (pendingData s) (dom s)
                         (seekCommands s) (projections s) in
      w <- commitProps r ;; commitState r w
  | ToggleFpsMode =>
      let r := mkDisplay (data s) (negb (isFpsMode s)) (isSeeking s)
                         (pendingData s) (dom s)
                         (seekCommands s) (projections s) in
      w <- commitProps r ;; commitState r w
  | SeekingSignal => commitState s (handleSeeking s)
  | SeekedSignal => w <- handleSeeked s ;; commitState s w
  | Resize l =>
      let s' := set_dom (relayout l (dom s)) s in
      callUpdateDisplay s' s'
  | LoadedMetadata l =>
      let s' := set_dom (relayout l (dom s)) s in
      handleVideoLoad s'
  | ReadyStateChange rs => Done (set_dom (set_readyState rs (dom s)) s)
  end.

Fixpoint run (s : Display) (es : list Event) : outcome Display :=
  match es with
  | [] => Done s
  | e :: es' => s' <- step s e ;; run s' es'
  end.

(** The first render of the component over the elements [d]. *)
Definition mount (sample : Sample) (fps : bool) (d : Dom) : outcome Display :=
  let r := mkDisplay sample fps false None d [] [] in
  w <- commitProps r ;; commitState r w.

(** The media position [t] is the time of the frame of sample [d], up to
    the tolerance, as the seek test measures it: no seek is due. *)
Definition aligned (d : Sample) (t : number) : Prop :=
  forall fn, frame_number d = Some fn ->
             timeDifference t (inject_Z fn / videoFPS)
             <= binary64 seekTolerance.

(** Frame numbers up to which the times of two different frames are
    doubles more than the tolerance apart: at [2^50] the doubles near a
    frame time are [2^-6] s apart, and from [2^53 / 10] on two frames can
    share a double. *)
Definition frameLimit : Z := 2 ^ 50.

(** A call of [updateDisplay] projected a sample for which no seek was due
    where the media stood, and the media stood at the time of the frame of
    the sample that was pending, if any. *)
Definition projection_ok (e : Projection) : Prop :=
  (forall t, projMediaTime e = Some t -> aligned (projData e) t)
  /\ (forall p, projPending e = Some p ->
       exists fp t, frame_number p = Some fp
                    /\ projMediaTime e = Some t
                    /\ t == inject_Z fp / videoFPS).

(** What holds of the synchronizer whatever sample it is given next: a
    pending sample is one the media was sent to, there is a pending sample
    only while seeking, and every projection so far was in order. *)
Record DBase (s : Display) : Prop := mkDBase {
  base_pending :
    forall p, pendingData s = Some p ->
              exists fp t, frame_number p = Some fp
                           /\ mediaTime (dom s) = Some t
                           /\ t == inject_Z fp / videoFPS;
  base_idle : isSeeking s = false -> pendingData s = None;
  base_log : Forall projection_ok (projections s)
}.

(** What holds between events: moreover the media stands at the frame of
    the current sample. *)
Definition DInv (s : Display) : Prop :=
  DBase s /\ forall t, mediaTime (dom s) = Some t -> aligned (data s) t.

End Display.

(** ** Recordings and states used in the examples *)

Module Examples.

Import Scheduler.

(** Three samples captured at 0 s, 0.1 s and 0.3 s. *)
Definition threeSamples : list Sample :=
  [ mkSample (Some 0%Z) 0 "09:00:00.0" 100 100;
    mkSample (Some 1%Z) 0.1 "09:00:00.1" 200 200;
    mkSample (Some 2%Z) 0.3 "09:00:00.3" 300 300 ].

(** Two samples one second apart. *)
Definition twoSamples : list Sample :=
  [ mkSample (Some 0%Z) 0 "09:00:00" 100 100;
    mkSample (Some 10%Z) 1 "09:00:01" 200 200 ].

(** [twoSamples] playing from index 0 at speed 1: the state [mount] is in
    after one click on play. *)
Definition playingTwo : Viewer :=
  mkViewer 0 true 1 (Some 1%positive) 0 [mkTimer 1 1000 1 1] 2 0 true 1.

(** [twoSamples] still playing at speed 1 after ArrowRight has moved the
    index to the last sample: [playingTwo] after that key. *)
Definition playingTwoAtEnd : Viewer :=
  mkViewer 1 true 1 (Some 1%positive) 1 [mkTimer 1 1000 1 1] 2 1 true 1.

(** [threeSamples] playing at index 1 at speed 1, waiting to advance to
    the last index: [mount] after a click on play and the first timeout. *)
Definition playingThreeAtOne : Viewer :=
  mkViewer 1 true 1 (Some 2%positive) 1
           [mkTimer 2 ((0.3 - 0.1) * 1000 / 1) 2 1] 3 1 true 1.

(** [threeSamples] still playing at speed 1 with ArrowRight pressed twice:
    the index is at the last sample, the timeout set at index 0 is
    pending.  [mount] after a click on play and the two keys. *)
Definition playingThreeAtEnd : Viewer :=
  mkViewer 2 true 1 (Some 1%positive) 2
           [mkTimer 1 ((0.1 - 0) * 1000 / 1) 1 1] 2 2 true 1.

(** [threeSamples] stopped at the last sample: [mount] after the slider
    was moved there. *)
Definition stoppedThreeAtEnd : Viewer :=
  mkViewer 2 false 1 None 2 [] 1 2 false 1.

(** [threeSamples] playing at speed 1, started at index 1 and moved back to
    index 0 by ArrowLeft: the timeout pending is the one for index 2.
    [mount] after the slider at 1, a click on play and the key. *)
Definition playingThreeMovedBack : Viewer :=
  mkViewer 0 true 1 (Some 1%positive) 0
           [mkTimer 1 ((0.3 - 0.1) * 1000 / 1) 2 1] 2 0 true 1.

(** A recording of a single sample. *)
Definition oneSample : list Sample :=
  [ mkSample (Some 0%Z) 0 "09:00:00.0" 100 100 ].

(** A sample at (800, 600), at frame 0. *)
Definition sampleAt800x600 : Sample :=
  mkSample (Some 0%Z) 0 "09:00:00.0" 800 600.

(** A sample at frame 7. *)
Definition sampleAtFrame7 : Sample :=
  mkSample (Some 7%Z) 0.7 "09:00:00.7" 400 300.

(** The three elements right after the first render: the video has no
    metadata yet, nothing is styled. *)
Definition unloadedDom : Display.Dom :=
  Display.mkDom
    (Some (Display.mkCursor None None None None))
    (Some (Display.mkVideo 0 0 0 0 0 0 None None))
    (Some (Display.mkWrapper 800 600)).

(** The component showing [sampleAtFrame7] over a video that stands at
    0 s. *)
Definition displayAtFrame7 : Display.Display :=
  Display.mkDisplay sampleAtFrame7 false false None unloadedDom [] [].

(** A later sample of the same frame 7: the cursor is sampled more often
    than the screen is captured. *)
Definition sampleAtFrame7Later : Sample :=
  mkSample (Some 7%Z) 0.75 "09:00:00.75" 420 310.

(** The component showing [sampleAtFrame7] over a video that stands at
    0.75 s, a position that is a double. *)
Definition displayAtThreeQuarters : Display.Display :=
  Display.mkDisplay sampleAtFrame7 false false None
    (Display.mkDom
       (Some (Display.mkCursor None None None None))
       (Some (Display.mkVideo 0 0 0 0 0 0.75 None None))
       (Some (Display.mkWrapper 800 600)))
    [] [].

(** The component showing [sampleAt800x600] over a video that stands at
    0 s, the time of frame 0. *)
Definition displayAtFrame0 : Display.Display :=
  Display.mkDisplay sampleAt800x600 false false None unloadedDom [] [].

(** A 1000x1000 video shown at 500x500 in an 800x600 container. *)
Definition halfSizeLayout : Display.Layout :=
  Display.mkLayout 1000 1000 500 500 800 600.

Definition loadedDom : Display.Dom :=
  Display.relayout halfSizeLayout unloadedDom.

End Examples.

(** The reading of "a speed change does not restart the in-flight wait": the
    timeouts pending after the change are the ones pending before. *)
Definition inflight_wait_survives (timelineData : list Sample)
    (v : Scheduler.Viewer) (speed : number) : Prop :=
  exists v', Scheduler.step timelineData v (Scheduler.SpeedInput speed) = Done v'
             /\ Scheduler.timeouts v' = Scheduler.timeouts v.



(** The reading of "a seek is issued if and only if
    |t - frame_number/10| > 0.05", the difference taken exactly. *)
Definition seeks_iff_beyond_exact_tolerance (s : Display.Display) : Prop :=
  forall video fn,
    Display.videoRef (Display.dom s) = Some video ->
    frame_number (Display.data s) = Some fn ->
    exists w,
      Display.seekEffect s s = Done w
      /\ (Display.seekCommands w <> Display.seekCommands s
          <-> (0.05 < Qabs (Display.currentTime video - inject_Z fn / 10))%Q).

(** The reading of "while seeking, geometry is not recomputed from a newer
    sample than the one the media is seeking toward": a call of
    [updateDisplay] made while [isSeeking] was true, with a sample pending,
    projected that sample. *)
Definition projects_only_the_sought_sample (s : Display.Display) : Prop :=
  forall e p,
    In e (Display.projections s) ->
    Display.projSeeking e = true -> Display.projPending e = Some p ->
    Display.projData e = p.

(** The reading of "a speed change leaves the index and the play state
    alone": once the change is processed, both are what they were. *)
Definition speed_change_keeps_play_state (timelineData : list Sample)
    (v : Scheduler.Viewer) (speed : number) : Prop :=
  exists v', Scheduler.step timelineData v (Scheduler.SpeedInput speed) = Done v'
             /\ Scheduler.currentIndex v' = Scheduler.currentIndex v
             /\ Scheduler.isPlaying v' = Scheduler.isPlaying v.

(** ** Playing a recording out *)

Module Playout.

Import Scheduler.
Open Scope Z_scope.

Section Timeline.

Variable timelineData : list Sample.

(** The delay of a timeout is the time between the sample it advances to
    and the sample before, in milliseconds, divided by the speed its
    closure holds. *)
Definition delay_ok (t : Timer) : Prop :=
  exists cur nxt,
    dataAt timelineData (cbNextIndex t - 1) = Some cur
    /\ dataAt timelineData (cbNextIndex t) = Some nxt
    /\ (timerDelay t
        == ((timestamp nxt - timestamp cur) * 1000) / cbPlaybackSpeed t)%Q.

(** What playing out has led to: the state reached, the milliseconds waited
    in all, the indices shown on the way. *)
Record Played : Type := mkPlayed {
  final : Viewer;
  waited : number;
  visited : list Z
}.

(** The browser lets the pending timeout fire once its delay has passed,
    again and again, at most [fuel] times, with no other event in
    between. *)
Fixpoint playOut (fuel : nat) (v : Viewer) : outcome Played :=
  match fuel with
  | O => Done (mkPlayed v 0 [])
  | S fuel' =>
      match timeouts v with
      | [] => Done (mkPlayed v 0 [])
      | t :: _ =>
          v' <- step timelineData v (TimerFires (timerId t)) ;;
          rest <- playOut fuel' v' ;;
          Done (mkPlayed (final rest) (timerDelay t + waited rest)
                         (currentIndex v' :: visited rest))
      end
  end.

(** The indices [from], [from + 1], ..., [from + count - 1]. *)
Fixpoint indicesFrom (from : Z) (count : nat) : list Z :=
  match count with
  | O => []
  | S count' => from :: indicesFrom (from + 1) count'
  end.

End Timeline.

End Playout.

(** ** What TimelineViewerVideo renders: TimelineControls *)

Module Controls.

Import Scheduler.
Open Scope Z_scope.

(** The progress effect of TimelineControls:
    [(currentIndex / (totalFrames - 1)) * 100], the width of the progress
    bar in percent. *)
Definition progressPercent (currentIndex totalFrames : Z) : outcome number :=
  ratio <- num_div (inject_Z currentIndex) (inject_Z (totalFrames - 1)) ;;
  Done (ratio * 100)%Q.

(** The frame counter, [{currentIndex + 1} / {totalFrames}]. *)
Definition frameCounter (currentIndex totalFrames : Z) : Z * Z :=
  (currentIndex + 1, totalFrames).

(** What the controls show and offer. *)
Record ControlsView : Type := mkControlsView {
  progress : outcome number;
  counter : Z * Z;
  shownSample : Sample;
  playButtonPauses : bool;      (* the pause icon, "Pause (Space)" *)
  speedValue : number;
  sliderMin : Z;
  sliderMax : Z;
  sliderValue : Z
}.

Inductive View : Type :=
| NoDataAvailable
| Timeline (c : ControlsView).

(** TimelineControls for the props TimelineViewerVideo passes. *)
Definition TimelineControls (currentIndex totalFrames : Z)
    (currentData : Sample) (isPlaying : bool) (playbackSpeed : number)
    : ControlsView :=
  mkControlsView (progressPercent currentIndex totalFrames)
                 (frameCounter currentIndex totalFrames)
                 currentData isPlaying playbackSpeed
                 0 (totalFrames - 1) currentIndex.

(** The render of TimelineViewerVideo:
    [const currentData = timelineData[currentIndex]] and
    [if (!currentData) return <div>No data available</div>]. *)
Definition render (timelineData : list Sample) (v : Viewer) : View :=
  match dataAt timelineData (currentIndex v) with
  | None => NoDataAvailable
  | Some currentData =>
      Timeline (TimelineControls (currentIndex v) (dataLength timelineData)
                  currentData (isPlaying v) (playbackSpeed v))
  end.

(** With an empty recording nothing but the window's key listener is
    there to receive events.  The state such a viewer is in, at index
    [i]. *)
Definition emptyViewerAt (i : Z) : Viewer :=
  mkViewer i false 1 None i [] 1 i false 1.

(** Where the arrow keys leave the index of an empty recording. *)
Definition emptyIndexAfter (i : Z) (k : Key) : Z :=
  match k with
  | ArrowRight => -1
  | ArrowLeft => 0
  | _ => i
  end.

End Controls.

(** ** The frame the media stands on *)

Module Sync.

Import Display.
Open Scope Q_scope.

(** The video is mounted and its position is the time of frame [k]. *)
Definition standsOn (s : Display) (k : Z) : Prop :=
  exists t, mediaTime (dom s) = Some t /\ t == inject_Z k / videoFPS.

(** The frame number of a sample, if it has one, is within the limit. *)
Definition frameInRange (d : Sample) : Prop :=
  forall fn, frame_number d = Some fn -> (Z.abs fn <= frameLimit)%Z.

(** The sample an event brings, if it brings one, is within the limit. *)
Definition framesInRange (e : Event) : Prop :=
  match e with
  | NewSample d => frameInRange d
  | _ => True
  end.

(** What [updateDisplay] is not there to change: the wrapper, and of the
    video everything but its inline style. *)
Definition mediaFacts (d : Dom)
    : option (number * number * number * number * Z * number) :=
  option_map
    (fun video =>
       (videoWidth video, videoHeight video, clientWidth video,
        clientHeight video, readyState video, currentTime video))
    (videoRef d).

End Sync.

(** ** The recordings on offer: the tags endpoint and AppVideo *)

From Stdlib Require Import Permutation Sorted.

Module Tags.

Open Scope string_scope.

(** [s.startsWith(p)] *)
Definition startsWith (p s : string) : bool := prefix p s.

(** [s.endsWith(suffix)] *)
Definition endsWith (suffix s : string) : bool :=
  (length suffix <=? length s)%nat
  && (substring (length s - length suffix) (length suffix) s =? suffix).

(** [s.slice(start, stop)]: a negative position counts from the end, both
    positions are brought into [0, s.length], and nothing is left when the
    first is not before the second. *)
Definition slice (s : string) (start stop : Z) : string :=
  let len := Z.of_nat (length s) in
  let from := if (start <? 0)%Z then Z.max (len + start) 0 else Z.min start len in
  let to := if (stop <? 0)%Z then Z.max (len + stop) 0 else Z.min stop len in
  if (from <? to)%Z
  then substring (Z.to_nat from) (Z.to_nat (to - from)) s
  else EmptyString.

(** The filter of the [/api/tags] endpoint. *)
Definition isCapture (file : string) : bool :=
  startsWith "screen_capture_" file && endsWith ".webm" file.

(** [file.slice(15, -5)] *)
Definition tagOf (file : string) : string := slice file 15 (-5).

(** [`screen_capture_${tag}.webm`] *)
Definition videoFileOf (tag : string) : string :=
  "screen_capture_" ++ tag ++ ".webm".

(** [`/__cursor_data/screen_capture_${tag}.webm`], the video source
    [loadData] of AppVideo sets for a tag. *)
Definition videoSrcOf (tag : string) : string :=
  "/__cursor_data/screen_capture_" ++ tag ++ ".webm".

Section Listing.

(** [fs.statSync(path).mtime] of a file of the directory, in
    milliseconds. *)
Variable mtime : string -> Z.

(** The comparator handed to [sort]: negative when [a] goes first. *)
Definition newestFirst (a b : string) : Z :=
  (mtime (videoFileOf b) - mtime (videoFileOf a))%Z.

(** [Array.prototype.sort] is stable: an element goes behind the elements
    it does not have to precede. *)
Fixpoint insertTag (a : string) (sorted : list string) : list string :=
  match sorted with
  | [] => [a]
  | b :: rest =>
      if (newestFirst a b <? 0)%Z then a :: b :: rest
      else b :: insertTag a rest
  end.

Definition sortTags (tags : list string) : list string :=
  fold_left (fun sorted a => insertTag a sorted) tags [].

(** The tags the endpoint answers with, for the files of the directory. *)
Definition listTags (files : list string) : list string :=
  sortTags (map tagOf (filter isCapture files)).

(** [a] may stand before [b]: its capture is not older. *)
Definition notOlder (a b : string) : Prop :=
  (mtime (videoFileOf b) <= mtime (videoFileOf a))%Z.

End Listing.

(** The state of AppVideo. *)
Record App : Type := mkApp {
  availableTags : list string;
  selectedTag : string;
  timelineData : list Sample;
  videoSrc : string;
  loading : bool;
  error : option string
}.

Definition initialApp : App :=
  mkApp [] EmptyString [] EmptyString true None.

(** [fetchTags] once the endpoint has answered with [tags]. *)
Definition fetchTagsDone (tags : list string) (a : App) : App :=
  match tags with
  | first :: _ =>
      mkApp tags first (timelineData a) (videoSrc a) (loading a) (error a)
  | [] =>
      mkApp tags (selectedTag a) (timelineData a) (videoSrc a) false
            (Some "No recordings found in __cursor_data folder")
  end.

(** What the fetch of "/api/tags" comes back with: the request fails or
    its response is not ok, or it is ok and carries the tags. *)
Inductive TagsResponse : Type :=
| TagsFail
| TagsOk (tags : list string).

(** [fetchTags]: both failures end in the same [catch]. *)
Definition fetchTags (response : TagsResponse) (a : App) : App :=
  match response with
  | TagsOk tags => fetchTagsDone tags a
  | TagsFail =>
      mkApp (availableTags a) (selectedTag a) (timelineData a) (videoSrc a)
            false (Some "Failed to load available recordings")
  end.

(** What the fetch of the CSV comes back with: the request, or the reading
    of the body, throws an error with a message; the response is not ok; or
    it is ok and the lines of its text, the header dropped, parse to the
    given rows. *)
Inductive CsvResponse : Type :=
| FetchFails (message : string)
| NotOk
| Rows (data : list Sample).

(** [loadData(tag)]: the URL it fetches. *)
Definition csvUrlOf (tag : string) : string :=
  "/__cursor_data/mouse_positions_" ++ tag ++ ".csv".

(** [loadData(tag)], given what the fetch of [csvUrlOf tag] comes back
    with: [setLoading(true)] and [setError(null)] first, then the
    response.  Only an ok response sets the rows and the video source; the
    other two end in the [catch]. *)
Definition loadData (tag : string) (response : CsvResponse) (a0 : App) : App :=
  let a := mkApp (availableTags a0) (selectedTag a0) (timelineData a0)
                 (videoSrc a0) true None in
  match response with
  | Rows data =>
      mkApp (availableTags a) (selectedTag a) data (videoSrcOf tag) false
            (error a)
  | NotOk =>
      mkApp (availableTags a) (selectedTag a) (timelineData a) (videoSrc a)
            false (Some "Failed to load CSV file")
  | FetchFails message =>
      mkApp (availableTags a) (selectedTag a) (timelineData a) (videoSrc a)
            false (Some message)
  end.

(** The effect on [selectedTag]: [if (selectedTag) loadData(selectedTag)].
    The URL it has fetched, none for the empty tag. *)
Definition csvRequest (a : App) : option string :=
  if selectedTag a =? EmptyString then None
  else Some (csvUrlOf (selectedTag a)).

Definition selectedTagEffect (response : CsvResponse) (a : App) : App :=
  if selectedTag a =? EmptyString then a
  else loadData (selectedTag a) response a.

(** What AppVideo renders: [if (loading)], then [if (error)], which an
    empty message does not pass. *)
Inductive Screen : Type :=
| LoadingScreen
| ErrorScreen (message : string)
| ViewerScreen (data : list Sample) (src : string).

Definition renderApp (a : App) : Screen :=
  if loading a then LoadingScreen
  else match error a with
       | Some message =>
           if message =? EmptyString
           then ViewerScreen (timelineData a) (videoSrc a)
           else ErrorScreen message
       | None => ViewerScreen (timelineData a) (videoSrc a)
       end.

End Tags.

(** ** The screenshot viewer: TimelineViewer

    The viewer the video viewer grew out of.  It advances with
    [setInterval], at a period that depends on the speed only. *)

Module Legacy.

Open Scope Z_scope.

(** One row of the CSV, as [loadData] of App.jsx builds it. *)
Record Shot : Type := mkShot {
  shotTimestamp : number;
  shotDatetime : string;
  shotX : number;
  shotY : number;
  screenshot : string
}.

(** An interval of the browser that is set and not cleared.  Its callback
    reads the state through the updater it passes to [setCurrentIndex]; it
    holds nothing of the render that created it. *)
Record Interval : Type := mkInterval {
  intervalId : positive;
  intervalPeriod : number      (* milliseconds *)
}.

Record Viewer : Type := mkViewer {
  (* useState *)
  currentIndex : Z;
  isPlaying : bool;
  playbackSpeed : number;
  (* useRef *)
  playIntervalRef : option positive;
  (* the browser: intervals that are set and not cleared *)
  intervals : list Interval;
  nextIntervalId : positive;
  (* the dependency values the playback effect last ran with *)
  depPlaying : bool;
  depSpeed : number
}.

Definition setCurrentIndex (i : Z) (v : Viewer) : Viewer :=
  mkViewer i (isPlaying v) (playbackSpeed v) (playIntervalRef v)
           (intervals v) (nextIntervalId v) (depPlaying v) (depSpeed v).

Definition setIsPlaying (b : bool) (v : Viewer) : Viewer :=
  mkViewer (currentIndex v) b (playbackSpeed v) (playIntervalRef v)
           (intervals v) (nextIntervalId v) (depPlaying v) (depSpeed v).

Definition setPlaybackSpeed (s : number) (v : Viewer) : Viewer :=
  mkViewer (currentIndex v) (isPlaying v) s (playIntervalRef v)
           (intervals v) (nextIntervalId v) (depPlaying v) (depSpeed v).

Definition set_playIntervalRef (r : option positive) (v : Viewer) : Viewer :=
  mkViewer (currentIndex v) (isPlaying v) (playbackSpeed v) r
           (intervals v) (nextIntervalId v) (depPlaying v) (depSpeed v).

Definition set_intervals (l : list Interval) (v : Viewer) : Viewer :=
  mkViewer (currentIndex v) (isPlaying v) (playbackSpeed v)
           (playIntervalRef v) l (nextIntervalId v)
           (depPlaying v) (depSpeed v).

Definition set_deps (p : bool) (s : number) (v : Viewer) : Viewer :=
  mkViewer (currentIndex v) (isPlaying v) (playbackSpeed v)
           (playIntervalRef v) (intervals v) (nextIntervalId v) p s.

(** [setInterval(callback, period)]: a fresh handle. *)
Definition setInterval (period : number) (v : Viewer) : positive * Viewer :=
  let h := nextIntervalId v in
  (h, mkViewer (currentIndex v) (isPlaying v) (playbackSpeed v)
               (playIntervalRef v) (intervals v ++ [mkInterval h period])
               (Pos.succ h) (depPlaying v) (depSpeed v)).

Definition other_interval (h : positive) (t : Interval) : bool :=
  negb (Pos.eqb (intervalId t) h).

(** [clearInterval(h)] *)
Definition clearInterval (h : positive) (v : Viewer) : Viewer :=
  set_intervals (filter (other_interval h) (intervals v)) v.

Definition activeInterval (h : positive) (v : Viewer) : option Interval :=
  find (fun t => Pos.eqb (intervalId t) h) (intervals v).

(** Only [" "] toggles here; [Space] is that key. *)
Inductive Key : Type := Space | ArrowRight | ArrowLeft | OtherKey.

Inductive Event : Type :=
| ClickPlayPause
| KeyDown (k : Key)
| SliderInput (index : Z)
| SpeedInput (speed : number)
| IntervalFires (h : positive).

Section Timeline.

Variable timelineData : list Shot.

Definition dataLength : Z := Z.of_nat (List.length timelineData).

(** [timelineData[i]]: [undefined] outside the array. *)
Definition dataAt (i : Z) : option Shot :=
  if i <? 0 then None else nth_error timelineData (Z.to_nat i).

(** The callback handed to [setInterval]: the updater it passes to
    [setCurrentIndex], which stops the playback when it finds the index at
    the end. *)
Definition intervalCallback (v : Viewer) : Viewer :=
  let prevIndex := currentIndex v in
  if prevIndex >=? dataLength - 1 then setIsPlaying false v
  else setCurrentIndex (prevIndex + 1) v.

(** [if (playIntervalRef.current) clearInterval(playIntervalRef.current)]:
    the cleanup of the playback effect, and its [else] branch.  The ref
    keeps the handle. *)
Definition clearHeld (v : Viewer) : Viewer :=
  match playIntervalRef v with
  | Some h => clearInterval h v
  | None => v
  end.

(** The body of the playback effect, for a render with the given
    [isPlaying] and [playbackSpeed]. *)
Definition playbackEffect (playing : bool) (speed : number) (v : Viewer)
    : outcome Viewer :=
  if playing then
    interval <- num_div 100 speed ;;
    let (h, v') := setInterval interval v in
    Done (set_playIntervalRef (Some h) v')
  else Done (clearHeld v).

Definition playbackChanged (v : Viewer) : bool :=
  negb (Bool.eqb (isPlaying v) (depPlaying v))
  || negb (Qeq_bool (playbackSpeed v) (depSpeed v)).

(** One commit: the cleanup the playback effect left, if it ran its
    [isPlaying] branch, then its body. *)
Definition commit (v : Viewer) : outcome Viewer :=
  let playing := isPlaying v in
  let speed := playbackSpeed v in
  let v1 := if depPlaying v then clearHeld v else v in
  v2 <- playbackEffect playing speed v1 ;;
  Done (set_deps playing speed v2).

(** Render and commit; the effect sets no state, one commit settles. *)
Definition rerender (v : Viewer) : outcome Viewer :=
  if playbackChanged v then commit v else Done v.

Definition handleKeyDown (k : Key) (v : Viewer) : Viewer :=
  match k with
  | ArrowLeft =>
      if 0 <? currentIndex v
      then setIsPlaying false (setCurrentIndex (currentIndex v - 1) v)
      else v
  | ArrowRight =>
      if currentIndex v <? dataLength - 1
      then setIsPlaying false (setCurrentIndex (currentIndex v + 1) v)
      else v
  | Space => setIsPlaying (negb (isPlaying v)) v
  | OtherKey => v
  end.

Definition handleSliderChange (newIndex : Z) (v : Viewer) : Viewer :=
  setIsPlaying false (setCurrentIndex newIndex v).

Definition handlePlayPause (v : Viewer) : Viewer :=
  if currentIndex v >=? dataLength - 1
  then setIsPlaying true (setCurrentIndex 0 v)
  else setIsPlaying (negb (isPlaying v)) v.

(** One turn of the event loop. *)
Definition step (v : Viewer) (e : Event) : outcome Viewer :=
  match e with
  | ClickPlayPause => rerender (handlePlayPause v)
  | KeyDown k => rerender (handleKeyDown k v)
  | SliderInput index => rerender (handleSliderChange index v)
  | SpeedInput speed => rerender (setPlaybackSpeed speed v)
  | IntervalFires h =>
      match activeInterval h v with
      | Some _ => rerender (intervalCallback v)
      | None => Done v
      end
  end.

Fixpoint run (v : Viewer) (es : list Event) : outcome Viewer :=
  match es with
  | [] => Done v
  | e :: es' => v' <- step v e ;; run v' es'
  end.

(** What the browser can deliver: the range input has [min=0],
    [max=totalFrames-1]; the speed slider has [min=0.1]. *)
Definition deliverable (e : Event) : Prop :=
  match e with
  | SliderInput index => 0 <= index < dataLength
  | SpeedInput speed => (0 < speed)%Q
  | _ => True
  end.

(** The interval of the browser fires [count] times, with no other event
    in between. *)
Fixpoint ticks (count : nat) (v : Viewer) : outcome Viewer :=
  match count with
  | O => Done v
  | S count' =>
      match intervals v with
      | [] => Done v
      | t :: _ =>
          v' <- step v (IntervalFires (intervalId t)) ;;
          ticks count' v'
      end
  end.

(** Holds between an event handler and the effect it triggers: the
    intervals are those of the last run of the playback effect. *)
Record PreInv (v : Viewer) : Prop := mkPreInv {
  pre_index : 0 <= currentIndex v < dataLength;
  pre_speed : (0 < playbackSpeed v)%Q;
  pre_intervals :
    if depPlaying v
    then exists t, intervals v = [t]
                   /\ playIntervalRef v = Some (intervalId t)
                   /\ (intervalPeriod t == 100 / depSpeed v)%Q
    else intervals v = []
}.

(** Holds whenever the event loop is idle. *)
Record Inv (v : Viewer) : Prop := mkInv {
  inv_index : 0 <= currentIndex v < dataLength;
  inv_speed : (0 < playbackSpeed v)%Q;
  inv_deps : playbackChanged v = false;
  inv_intervals :
    if isPlaying v
    then exists t, intervals v = [t]
                   /\ playIntervalRef v = Some (intervalId t)
                   /\ (intervalPeriod t == 100 / playbackSpeed v)%Q
    else intervals v = []
}.

End Timeline.

(** The component after its first render: the playback effect has run its
    [else] branch over an empty ref. *)
Definition mount : Viewer :=
  mkViewer 0 false 1%Q None [] 1%positive false 1%Q.

End Legacy.

(** ** The screenshot display: ScreenshotDisplay *)

Module LegacyDisplay.

Import Display Legacy.
Open Scope Q_scope.

(** The <img> element: what the browser reports and the inline style. *)
Record Image : Type := mkImage {
  naturalWidth : number;
  naturalHeight : number;
  imgClientWidth : number;
  imgClientHeight : number;
  complete : bool;
  imgTransform : option Transform;
  imgTransition : option string
}.

(** The three refs; [None] is a ref whose [current] is [null]. *)
Record Dom : Type := mkDom {
  cursorRef : option Cursor;
  imgRef : option Image;
  wrapperRef : option Wrapper
}.

(** [updateDisplay] of ScreenshotDisplay: no test of the natural size,
    and the direct branch leaves the transition of the cursor alone. *)
Definition updateDisplay (data : Shot) (isFpsMode : bool) (d : Dom)
    : outcome Dom :=
  match cursorRef d, imgRef d, wrapperRef d with
  | Some cursor, Some img, Some wrapper =>
      let naturalWidth := naturalWidth img in
      let naturalHeight := naturalHeight img in
      let displayedWidth := imgClientWidth img in
      let displayedHeight := imgClientHeight img in
      scaleX <- num_div displayedWidth naturalWidth ;;
      scaleY <- num_div displayedHeight naturalHeight ;;
      halfX <- num_div (shotX data) 2 ;;
      halfY <- num_div (shotY data) 2 ;;
      let cursorX := halfX * scaleX in
      let cursorY := halfY * scaleY in
      if isFpsMode then
        centerX <- num_div (rectWidth wrapper) 2 ;;
        centerY <- num_div (rectHeight wrapper) 2 ;;
        let offsetX := centerX - cursorX in
        let offsetY := centerY - cursorY in
        Done (mkDom
          (Some (mkCursor (Some (Percent 50)) (Some (Percent 50))
                   (Some (Translate (Percent (-50)) (Percent (-50))))
                   (Some cursorEaseAll)))
          (Some (mkImage naturalWidth naturalHeight displayedWidth
                   displayedHeight (complete img)
                   (Some (Translate (Px offsetX) (Px offsetY)))
                   (Some videoEase)))
          (Some wrapper))
      else
        Done (mkDom
          (Some (mkCursor (Some (Px (cursorX - markerHalfSize)))
                   (Some (Px (cursorY - markerHalfSize)))
                   (Some TransformNone)
                   (cursorTransition cursor)))
          (Some (mkImage naturalWidth naturalHeight displayedWidth
                   displayedHeight (complete img)
                   (Some TransformNone)
                   (Some "none"%string)))
          (Some wrapper))
  | _, _, _ => Done d
  end.

(** [useEffect(() => { if (imgRef.current && imgRef.current.complete)
    updateDisplay() }, [data, isFpsMode, updateDisplay])] *)
Definition displayEffect (data : Shot) (isFpsMode : bool) (d : Dom)
    : outcome Dom :=
  match imgRef d with
  | Some img => if complete img then updateDisplay data isFpsMode d else Done d
  | None => Done d
  end.

(** The same elements with a <video> of the same sizes and styles in the
    place of the <img>. *)
Definition asVideo (rs : Z) (t : number) (img : Image) : Video :=
  mkVideo (naturalWidth img) (naturalHeight img) (imgClientWidth img)
          (imgClientHeight img) rs t (imgTransform img) (imgTransition img).

Definition asVideoDom (rs : Z) (t : number) (d : Dom) : Display.Dom :=
  Display.mkDom (cursorRef d) (option_map (asVideo rs t) (imgRef d))
                (wrapperRef d).

(** The sample a row stands for in the video viewer, given the frame that
    shows it. *)
Definition asSample (frame : option Z) (shot : Shot) : Sample :=
  mkSample frame (shotTimestamp shot) (shotDatetime shot)
           (shotX shot) (shotY shot).

End LegacyDisplay.

(** Further example data. *)
Module MoreExamples.

(** Three screenshots, taken at 0 s, 0.1 s and 0.3 s. *)
Definition threeShots : list Legacy.Shot :=
  [ Legacy.mkShot 0 "09:00:00.0" 100 100 "screenshots/0.png";
    Legacy.mkShot 0.1 "09:00:00.1" 200 200 "screenshots/1.png";
    Legacy.mkShot 0.3 "09:00:00.3" 300 300 "screenshots/2.png" ].

(** A screenshot with the cursor at (800, 600). *)
Definition shotAt800x600 : Legacy.Shot :=
  Legacy.mkShot 0 "09:00:00.0" 800 600 "screenshots/0.png".

(** The elements of the screenshot display around an image that failed to
    load: [complete], and no natural size. *)
Definition brokenImageDom : LegacyDisplay.Dom :=
  LegacyDisplay.mkDom
    (Some (Display.mkCursor None None None None))
    (Some (LegacyDisplay.mkImage 0 0 500 500 true None None))
    (Some (Display.mkWrapper 800 600)).

(** The name the recorder gives the capture tagged "demo". *)
Definition demoCapture : string := "screen_capture_demo.webm".

End MoreExamples.

(** ** Properties of the playback scheduler *)

Section SchedulerFacts.

Import Scheduler.
Open Scope Z_scope.

Variable timelineData : list Sample.

Local Abbreviation N := (dataLength timelineData).

Lemma dataAt_defined (i : Z) :
  0 <= i < N -> exists s, dataAt timelineData i = Some s.
Proof.
  intros [Hlo Hhi]. unfold dataAt, dataLength in *.
  destruct (i <? 0) eqn:E; [apply Z.ltb_lt in E; lia|].
  destruct (nth_error timelineData (Z.to_nat i)) as [s|] eqn:Hn.
  - now exists s.
  - apply nth_error_None in Hn. lia.
Qed.

Lemma num_div_nonzero (a b : number) :
  ~ (b == 0)%Q -> num_div a b = Done (a / b)%Q.
Proof.
  intros Hb. unfold num_div.
  destruct (Qeq_bool b 0) eqn:E; [|reflexivity].
  apply Qeq_bool_iff in E. contradiction.
Qed.

Lemma num_div_positive (a b : number) :
  (0 < b)%Q -> num_div a b = Done (a / b)%Q.
Proof.
  intros Hb. apply num_div_nonzero. intros E. rewrite E in Hb.
  now apply Qlt_irrefl in Hb.
Qed.

(** [advanceFrame] before the last index: one more pending timeout. *)
Lemma advanceFrame_schedules (speed : number) (v : Viewer) :
  0 <= playingIndexRef v < N - 1 -> (0 < speed)%Q ->
  exists cur nxt,
    dataAt timelineData (playingIndexRef v) = Some cur
    /\ dataAt timelineData (playingIndexRef v + 1) = Some nxt
    /\ advanceFrame timelineData speed v
       = Done (set_playIntervalRef (Some (nextTimerId v))
                 (snd (setTimeout
                         (((timestamp nxt - timestamp cur) * 1000) / speed)%Q
                         (playingIndexRef v + 1) speed v))).
Proof.
  intros Hi Hs.
  destruct (dataAt_defined (playingIndexRef v)) as [cur Hc]; [lia|].
  destruct (dataAt_defined (playingIndexRef v + 1)) as [nxt Hn]; [lia|].
  exists cur, nxt. repeat split; trivial.
  unfold advanceFrame.
  destruct (playingIndexRef v >=? N - 1) eqn:E.
  - apply Z.geb_le in E. lia.
  - rewrite Hn, Hc. cbn [defined bind].
    rewrite (num_div_positive _ _ Hs). reflexivity.
Qed.

(** [advanceFrame] at or past the last index: playback stops, nothing is
    scheduled. *)
Lemma advanceFrame_stops (speed : number) (v : Viewer) :
  N - 1 <= playingIndexRef v ->
  advanceFrame timelineData speed v = Done (setIsPlaying false v).
Proof.
  intros Hi. unfold advanceFrame.
  destruct (playingIndexRef v >=? N - 1) eqn:E; [reflexivity|].
  rewrite Z.geb_leb in E. apply Z.leb_gt in E. lia.
Qed.

Lemma flush_quiescent (fuel : nat) (v : Viewer) :
  quiescent v = true -> flush timelineData fuel v = Done v.
Proof. intros H. destruct fuel; cbn [flush]; now rewrite H. Qed.

Lemma flush_commit (fuel : nat) (v : Viewer) :
  quiescent v = false ->
  flush timelineData (S fuel) v
  = (v' <- commit timelineData v ;; flush timelineData fuel v').
Proof. intros H. cbn [flush]. now rewrite H. Qed.


Lemma filter_other_single (t : Timer) :
  filter (other_timer (timerId t)) [t] = [].
Proof. cbn. unfold other_timer. now rewrite Pos.eqb_refl. Qed.

Lemma commit_playback (u : Viewer) :
  PreInv timelineData u -> playbackChanged u = true ->
  commit timelineData u
  = (v3 <- playbackEffect timelineData (isPlaying u) (playbackSpeed u) (ready u) ;;
     Done (set_deps (currentIndex u) (isPlaying u) (playbackSpeed u) v3)).
Proof.
  intros [Hidx Hsp Href Htm] Hpc. unfold commit. rewrite Hpc.
  cbn [andb].
  replace (if indexChanged u
           then syncIndexEffect (if depPlaying u then cancelPending u else u)
           else if depPlaying u then cancelPending u else u)
    with (ready u); [reflexivity|].
  unfold timers_ok in Htm.
  assert (Hsync : indexChanged u = true \/ playingIndexRef u = currentIndex u)
    by (destruct (indexChanged u); auto).
  unfold ready, syncIndexEffect, cancelPending, clearTimeout.
  destruct u as [ci ip sp ref pref tos nid di dp ds]; cbn in *.
  destruct dp.
  - destruct Htm as [[-> ->] | (t & -> & -> & _)].
    + destruct ref; cbn; destruct Hsync as [-> | ->]; cbn;
        try reflexivity; destruct (indexChanged _); reflexivity.
    + rewrite filter_other_single.
      destruct Hsync as [-> | ->]; cbn;
        try reflexivity; destruct (indexChanged _); reflexivity.
  - destruct Htm as [-> ->].
    destruct Hsync as [-> | ->]; cbn;
        try reflexivity; destruct (indexChanged _); reflexivity.
Qed.

Lemma Qeq_bool_same (q : Q) : Qeq_bool q q = true.
Proof. apply Qeq_bool_iff. reflexivity. Qed.

Ltac quiet :=
  unfold quiescent, indexChanged, playbackChanged; cbn;
  repeat match goal with
         | H : isPlaying _ = _ |- _ => rewrite H
         end;
  rewrite ?Z.eqb_refl, ?Bool.eqb_reflx, ?Qeq_bool_same; reflexivity.

(** Stopping: the effect runs its [else] branch. *)
Lemma rerender_stop (u : Viewer) :
  PreInv timelineData u -> playbackChanged u = true -> isPlaying u = false ->
  rerender timelineData u
  = Done (set_deps (currentIndex u) false (playbackSpeed u) (ready u)).
Proof.
  intros HP Hpc Hip. unfold rerender, NESTED_UPDATE_LIMIT.
  rewrite flush_commit by (unfold quiescent; rewrite Hpc; apply andb_false_r).
  rewrite (commit_playback u HP Hpc), Hip. cbn [playbackEffect bind].
  apply flush_quiescent.
  quiet.
Qed.

(** Starting or restarting before the last index: one timeout is set. *)
Lemma rerender_play (u : Viewer) :
  PreInv timelineData u -> playbackChanged u = true -> isPlaying u = true ->
  currentIndex u < N - 1 ->
  exists cur nxt,
    dataAt timelineData (currentIndex u) = Some cur
    /\ dataAt timelineData (currentIndex u + 1) = Some nxt
    /\ rerender timelineData u
       = Done (set_deps (currentIndex u) true (playbackSpeed u)
                 (set_playIntervalRef (Some (nextTimerId u))
                    (snd (setTimeout
                            (((timestamp nxt - timestamp cur) * 1000)
                               / playbackSpeed u)%Q
                            (currentIndex u + 1) (playbackSpeed u) (ready u))))).
Proof.
  intros HP Hpc Hip Hlt. unfold rerender, NESTED_UPDATE_LIMIT.
  rewrite flush_commit by (unfold quiescent; rewrite Hpc; apply andb_false_r).
  rewrite (commit_playback u HP Hpc), Hip. cbn [playbackEffect].
  destruct (advanceFrame_schedules (playbackSpeed u) (ready u))
    as (cur & nxt & Hc & Hn & Hadv).
  { cbn. destruct HP. lia. }
  { now destruct HP. }
  cbn [ready playingIndexRef set_playingIndexRef] in Hc, Hn.
  exists cur, nxt. repeat split; trivial.
  rewrite Hadv. cbn [bind].
  apply flush_quiescent.
  quiet.
Qed.

(** Starting at the last index: the effect stops playback at once, and the
    next commit runs the [else] branch. *)
Lemma rerender_end (u : Viewer) :
  PreInv timelineData u -> playbackChanged u = true -> isPlaying u = true ->
  N - 1 <= currentIndex u ->
  rerender timelineData u
  = Done (set_deps (currentIndex u) false (playbackSpeed u)
            (setIsPlaying false (ready u))).
Proof.
  intros HP Hpc Hip Hge. unfold rerender, NESTED_UPDATE_LIMIT.
  rewrite flush_commit by (unfold quiescent; rewrite Hpc; apply andb_false_r).
  rewrite (commit_playback u HP Hpc), Hip. cbn [playbackEffect].
  rewrite advanceFrame_stops by (cbn; lia). cbn [bind].
  rewrite flush_commit by
    (unfold quiescent, playbackChanged; cbn; apply andb_false_r).
  unfold commit, playbackChanged, indexChanged. cbn -[flush].
  rewrite Z.eqb_refl. cbn -[flush].
  apply flush_quiescent.
  quiet.
Qed.

(** Only the index changed: the index ref is brought in step. *)
Lemma rerender_index (u : Viewer) :
  playbackChanged u = false -> indexChanged u = true ->
  rerender timelineData u
  = Done (set_deps (currentIndex u) (isPlaying u) (playbackSpeed u)
            (syncIndexEffect u)).
Proof.
  intros Hpc Hic. unfold rerender, NESTED_UPDATE_LIMIT.
  rewrite flush_commit by (unfold quiescent; now rewrite Hic).
  unfold commit. rewrite Hpc, Hic. cbn [andb bind].
  apply flush_quiescent.
  quiet.
Qed.


Lemma quiescent_deps (v : Viewer) :
  quiescent v = true ->
  depIndex v = currentIndex v /\ depPlaying v = isPlaying v
  /\ (depSpeed v == playbackSpeed v)%Q.
Proof.
  unfold quiescent, indexChanged, playbackChanged. intros H.
  apply andb_true_iff in H. destruct H as [H1 H2].
  apply negb_true_iff, negb_false_iff, Z.eqb_eq in H1.
  apply negb_true_iff, orb_false_iff in H2. destruct H2 as [H2 H3].
  apply negb_false_iff, Bool.eqb_prop in H2.
  apply negb_false_iff, Qeq_bool_iff in H3.
  repeat split; auto. now symmetry.
Qed.

Lemma playback_unchanged (v : Viewer) :
  playbackChanged v = false ->
  depPlaying v = isPlaying v /\ (depSpeed v == playbackSpeed v)%Q.
Proof.
  unfold playbackChanged. intros H.
  apply orb_false_iff in H. destruct H as [H2 H3].
  apply negb_false_iff, Bool.eqb_prop in H2.
  apply negb_false_iff, Qeq_bool_iff in H3.
  split; auto. now symmetry.
Qed.

(** While idle and playing exactly one timeout is pending, the one the ref
    names; while idle and stopped none is. *)
Lemma Inv_timers (v : Viewer) :
  Inv timelineData v ->
  if isPlaying v
  then exists t, timeouts v = [t]
                 /\ playIntervalRef v = Some (timerId t)
                 /\ 1 <= cbNextIndex t < N
                 /\ (cbPlaybackSpeed t == playbackSpeed v)%Q
                 /\ (timerId t < nextTimerId v)%positive
  else timeouts v = [] /\ playIntervalRef v = None.
Proof.
  intros [[_ _ _ Htm] Hq].
  destruct (quiescent_deps v Hq) as (_ & Hp & Hs).
  unfold timers_ok in Htm. rewrite Hp in Htm.
  destruct (isPlaying v); [|exact Htm].
  destruct Htm as [[_ H] | (t & H1 & H2 & H3 & H4 & H5)]; [discriminate|].
  exists t. repeat split; try tauto. now rewrite H4.
Qed.

Lemma Inv_ref (v : Viewer) :
  Inv timelineData v -> playingIndexRef v = currentIndex v.
Proof.
  intros [[_ _ Href _] Hq]. apply Href.
  unfold quiescent in Hq. apply andb_true_iff in Hq.
  now apply negb_true_iff.
Qed.

(** An event handler that touches only the three state variables leaves
    the state ready for its effects. *)
Lemma handler_PreInv (v u : Viewer) :
  Inv timelineData v ->
  0 <= currentIndex u < N -> (0 < playbackSpeed u)%Q ->
  playIntervalRef u = playIntervalRef v ->
  playingIndexRef u = playingIndexRef v ->
  timeouts u = timeouts v -> nextTimerId u = nextTimerId v ->
  depIndex u = depIndex v -> depPlaying u = depPlaying v ->
  depSpeed u = depSpeed v ->
  PreInv timelineData u.
Proof.
  intros HI Hidx Hsp Hr Hp Ht Hnt Hdi Hdp Hds.
  pose proof (Inv_timers v HI) as Htm.
  pose proof (Inv_ref v HI) as Href.
  destruct HI as [_ Hq]. destruct (quiescent_deps v Hq) as (Hi' & Hp' & Hs').
  constructor; trivial.
  - unfold indexChanged. intros E. apply negb_false_iff, Z.eqb_eq in E.
    congruence.
  - unfold timers_ok. rewrite Hdp, Hp', Ht, Hr, Hds, Hnt.
    destruct (isPlaying v); [|exact Htm].
    right. destruct Htm as (t & H1 & H2 & H3 & H4 & H5).
    exists t. repeat split; try tauto. now rewrite H4, Hs'.
Qed.

(** From any state a handler can leave, the effects settle in an idle
    state; they never touch the index or the speed, and never start
    playback. *)
Lemma rerender_Inv (u : Viewer) :
  PreInv timelineData u ->
  exists v, rerender timelineData u = Done v /\ Inv timelineData v
    /\ currentIndex v = currentIndex u
    /\ playbackSpeed v = playbackSpeed u
    /\ (isPlaying u = false -> isPlaying v = false).
Proof.
  intros HP.
  destruct (playbackChanged u) eqn:Hpc.
  - destruct (isPlaying u) eqn:Hip.
    + destruct (Z_lt_le_dec (currentIndex u) (N - 1)) as [Hlt | Hge].
      * destruct (rerender_play u HP Hpc Hip Hlt) as (cur & nxt & _ & _ & ->).
        eexists. split; [reflexivity|]. destruct HP as [Hidx Hsp Href Htm].
        repeat split; cbn; trivial; try discriminate; try lia.
        -- unfold timers_ok; cbn. right. eexists.
           repeat split; cbn; try lia; try reflexivity.
        -- quiet.
      * rewrite (rerender_end u HP Hpc Hip Hge).
        eexists. split; [reflexivity|]. destruct HP as [Hidx Hsp Href Htm].
        repeat split; cbn; trivial; try lia.
        quiet.
    + rewrite (rerender_stop u HP Hpc Hip).
      eexists. split; [reflexivity|]. destruct HP as [Hidx Hsp Href Htm].
      repeat split; cbn; trivial; try lia.
      quiet.
  - destruct (playback_unchanged u Hpc) as [Hdp Hds].
    destruct (indexChanged u) eqn:Hic.
    + rewrite (rerender_index u Hpc Hic).
      eexists. split; [reflexivity|]. destruct HP as [Hidx Hsp Href Htm].
      repeat split; cbn; trivial; try lia.
      * unfold timers_ok in *; cbn. rewrite Hdp in Htm.
        destruct (isPlaying u); trivial.
        destruct Htm as [H | (t & H1 & H2 & H3 & H4 & H5)]; [now left|].
        right. exists t. repeat split; try tauto. now rewrite H4.
      * quiet.
    + exists u. unfold rerender.
      assert (Hq : quiescent u = true) by (unfold quiescent; now rewrite Hpc, Hic).
      rewrite flush_quiescent by trivial.
      repeat split; trivial; apply HP.
Qed.

Lemma filter_other_single_id (h : positive) (t : Timer) :
  timerId t = h -> filter (other_timer h) [t] = [].
Proof. intros <-. apply filter_other_single. Qed.



Lemma handlePlayPause_PreInv (v : Viewer) :
  Inv timelineData v -> PreInv timelineData (handlePlayPause timelineData v).
Proof.
  intros HI. pose proof HI as [[Hidx Hsp _ _] _].
  unfold handlePlayPause.
  destruct (currentIndex v >=? N - 1);
    apply (handler_PreInv v); cbn; trivial; lia.
Qed.

Lemma handleKeyPress_PreInv (k : Key) (v : Viewer) :
  Inv timelineData v -> PreInv timelineData (handleKeyPress timelineData k v).
Proof.
  intros HI. pose proof HI as [[Hidx Hsp Hr Ht] _].
  destruct k; cbn [handleKeyPress];
    apply (handler_PreInv v); cbn; trivial; lia.
Qed.

Lemma handleSliderChange_PreInv (i : Z) (v : Viewer) :
  Inv timelineData v -> 0 <= i < N ->
  PreInv timelineData (handleSliderChange i v).
Proof.
  intros HI Hi. pose proof HI as [[Hidx Hsp _ _] _].
  apply (handler_PreInv v); cbn; trivial.
Qed.

Lemma handleSpeedChange_PreInv (s : number) (v : Viewer) :
  Inv timelineData v -> (0 < s)%Q ->
  PreInv timelineData (handleSpeedChange s v).
Proof.
  intros HI Hs. pose proof HI as [[Hidx Hsp _ _] _].
  apply (handler_PreInv v); cbn; trivial.
Qed.

(** A timeout that fires is the one the scheduler is waiting for. *)
Lemma pending_is_scheduled (h : positive) (t : Timer) (v : Viewer) :
  Inv timelineData v -> pendingTimeout h v = Some t ->
  isPlaying v = true /\ timeouts v = [t] /\ timerId t = h
  /\ playIntervalRef v = Some h
  /\ 1 <= cbNextIndex t < N
  /\ (cbPlaybackSpeed t == playbackSpeed v)%Q
  /\ timeouts (clearTimeout h v) = []
  /\ (h < nextTimerId v)%positive.
Proof.
  intros HI Hf. pose proof (Inv_timers v HI) as Htm.
  unfold pendingTimeout in Hf.
  destruct (isPlaying v).
  - destruct Htm as (t0 & H1 & H2 & H3 & H4 & H5).
    rewrite H1 in Hf. cbn in Hf.
    destruct (Pos.eqb (timerId t0) h) eqn:E; [|discriminate].
    apply Pos.eqb_eq in E. injection Hf as <-. subst h.
    repeat split; trivial; try lia.
    unfold clearTimeout. cbn. rewrite H1. apply filter_other_single.
  - destruct Htm as [H1 _]. rewrite H1 in Hf. discriminate.
Qed.

Lemma timerCallback_PreInv (h : positive) (t : Timer) (v : Viewer) :
  Inv timelineData v -> pendingTimeout h v = Some t ->
  exists u, timerCallback timelineData t (clearTimeout h v) = Done u
            /\ PreInv timelineData u.
Proof.
  intros HI Hf.
  destruct (pending_is_scheduled h t v HI Hf)
    as (Hip & Hts & Hid & Href & Hrg & Hsp & Hcl & Hfr).
  pose proof HI as [[Hidx Hspd _ _] Hq].
  destruct (quiescent_deps v Hq) as (Hdi & Hdp & Hds).
  unfold timerCallback.
  destruct (Z_lt_le_dec (cbNextIndex t) (N - 1)) as [Hlt | Hge].
  - destruct (advanceFrame_schedules (cbPlaybackSpeed t)
                (set_playingIndexRef (cbNextIndex t)
                   (setCurrentIndex (cbNextIndex t) (clearTimeout h v))))
      as (cur & nxt & _ & _ & ->).
    { cbn. lia. }
    { now rewrite Hsp. }
    eexists. split; [reflexivity|].
    constructor; cbn; trivial; try lia.
    unfold timers_ok. cbn. rewrite Hdp, Hip. right.
    rewrite Hts, filter_other_single_id by trivial. cbn.
    eexists. repeat split; cbn; try lia. now rewrite Hsp, Hds.
  - rewrite advanceFrame_stops by (cbn; lia).
    eexists. split; [reflexivity|].
    constructor; cbn; trivial; try lia.
    unfold timers_ok. cbn. rewrite Hdp, Hip. left.
    rewrite Hts, filter_other_single_id by trivial. now split.
Qed.

Theorem step_Inv (v : Viewer) (e : Event) :
  Inv timelineData v -> deliverable timelineData e ->
  exists v', step timelineData v e = Done v' /\ Inv timelineData v'.
Proof.
  intros HI He. destruct e as [ | k | i | s | h]; cbn [step].
  - destruct (rerender_Inv _ (handlePlayPause_PreInv v HI))
      as (v' & -> & HI' & _). now exists v'.
  - destruct (rerender_Inv _ (handleKeyPress_PreInv k v HI))
      as (v' & -> & HI' & _). now exists v'.
  - destruct (rerender_Inv _ (handleSliderChange_PreInv i v HI He))
      as (v' & -> & HI' & _). now exists v'.
  - destruct (rerender_Inv _ (handleSpeedChange_PreInv s v HI He))
      as (v' & -> & HI' & _). now exists v'.
  - destruct (pendingTimeout h v) as [t|] eqn:Hf; [|now exists v].
    destruct (timerCallback_PreInv h t v HI Hf) as (u & -> & HP).
    cbn [bind].
    destruct (rerender_Inv u HP) as (v' & -> & HI' & _).
    now exists v'.
Qed.

Lemma run_Inv (es : list Event) : forall v,
  Inv timelineData v -> Forall (deliverable timelineData) es ->
  exists v', run timelineData v es = Done v' /\ Inv timelineData v'.
Proof.
  induction es as [|e es IH]; intros v HI Hes; cbn [run].
  - now exists v.
  - inversion Hes as [|? ? He Hes']; subst.
    destruct (step_Inv v e HI He) as (v1 & -> & HI1). cbn [bind].
    now apply IH.
Qed.

Lemma mount_Inv : 1 <= N -> Inv timelineData mount.
Proof.
  intros HN. split; [|reflexivity].
  constructor; cbn; try lia; try reflexivity. now split.
Qed.

End SchedulerFacts.

(** ** The claims about the scheduler *)

Section SchedulerClaims.

Import Scheduler Examples.
Open Scope Z_scope.

Variable timelineData : list Sample.
Local Abbreviation N := (dataLength timelineData).

(** Play pressed while stopped before the last index: the scheduler waits
    for the next sample, for the time between the two samples divided by
    the speed. *)
Lemma play_waits_sample_delta (v : Viewer) :
  Inv timelineData v -> isPlaying v = false -> currentIndex v < N - 1 ->
  exists cur nxt v',
    dataAt timelineData (currentIndex v) = Some cur
    /\ dataAt timelineData (currentIndex v + 1) = Some nxt
    /\ step timelineData v ClickPlayPause = Done v'
    /\ isPlaying v' = true
    /\ currentIndex v' = currentIndex v
    /\ timeouts v'
       = [mkTimer (nextTimerId v)
            (((timestamp nxt - timestamp cur) * 1000) / playbackSpeed v)%Q
            (currentIndex v + 1) (playbackSpeed v)].
Proof.
  intros HI Hip Hlt. cbn [step].
  pose proof (handlePlayPause_PreInv timelineData v HI) as HP.
  assert (Hpp : handlePlayPause timelineData v = setIsPlaying true v).
  { unfold handlePlayPause.
    destruct (currentIndex v >=? N - 1) eqn:E.
    - apply Z.geb_le in E. lia.
    - now rewrite Hip. }
  rewrite Hpp in *.
  destruct (rerender_play timelineData _ HP) as (cur & nxt & Hc & Hn & ->).
  - destruct HI as [_ Hq]. destruct (quiescent_deps v Hq) as (_ & Hdp & _).
    unfold playbackChanged. cbn. now rewrite Hdp, Hip.
  - reflexivity.
  - exact Hlt.
  - exists cur, nxt. eexists. cbn in Hc, Hn.
    split; [exact Hc|]. split; [exact Hn|]. split; [reflexivity|]. now cbn.
Qed.

(** A timeout that fires before the last index sets the next one: the
    loop reschedules itself with the speed it was started with. *)
Lemma timeout_reschedules (v : Viewer) (h : positive) (t : Timer) :
  Inv timelineData v -> pendingTimeout h v = Some t ->
  cbNextIndex t < N - 1 ->
  exists cur nxt v',
    dataAt timelineData (cbNextIndex t) = Some cur
    /\ dataAt timelineData (cbNextIndex t + 1) = Some nxt
    /\ step timelineData v (TimerFires h) = Done v'
    /\ isPlaying v' = true
    /\ currentIndex v' = cbNextIndex t
    /\ timeouts v'
       = [mkTimer (nextTimerId v)
            (((timestamp nxt - timestamp cur) * 1000) / cbPlaybackSpeed t)%Q
            (cbNextIndex t + 1) (cbPlaybackSpeed t)].
Proof.
  intros HI Hf Hlt. cbn [step]. rewrite Hf.
  destruct (pending_is_scheduled timelineData h t v HI Hf)
    as (Hip & Hts & Hid & Href & Hrg & Hsp & Hcl & Hfr).
  destruct (timerCallback_PreInv timelineData h t v HI Hf) as (u & Hcb & HP).
  pose proof Hcb as Hcb'. unfold timerCallback in Hcb'.
  destruct (advanceFrame_schedules timelineData (cbPlaybackSpeed t)
              (set_playingIndexRef (cbNextIndex t)
                 (setCurrentIndex (cbNextIndex t) (clearTimeout h v))))
    as (cur & nxt & Hc & Hn & Hadv).
  { cbn. lia. }
  { destruct HI as [[_ Hpos _ _] _]. now rewrite Hsp. }
  rewrite Hadv in Hcb'. injection Hcb' as Hu.
  rewrite Hcb. cbn [bind]. cbn in Hc, Hn.
  exists cur, nxt.
  assert (Hpc : playbackChanged u = false).
  { destruct HI as [_ Hq]. unfold quiescent in Hq.
    apply andb_true_iff in Hq. destruct Hq as [_ Hq].
    apply negb_true_iff in Hq. subst u. exact Hq. }
  assert (Htu : timeouts u
                = [mkTimer (nextTimerId v)
                     (((timestamp nxt - timestamp cur) * 1000)
                        / cbPlaybackSpeed t)%Q
                     (cbNextIndex t + 1) (cbPlaybackSpeed t)]).
  { subst u. cbn. now rewrite Hts, filter_other_single_id. }
  destruct (indexChanged u) eqn:Hic.
  - rewrite (rerender_index timelineData u Hpc Hic).
    eexists. split; [exact Hc|]. split; [exact Hn|]. split; [reflexivity|].
    cbn. rewrite Htu. subst u. cbn. now rewrite Hip.
  - assert (Hq : quiescent u = true) by (unfold quiescent; now rewrite Hpc, Hic).
    unfold rerender. rewrite (flush_quiescent timelineData _ _ Hq).
    eexists. split; [exact Hc|]. split; [exact Hn|]. split; [reflexivity|].
    rewrite Htu. subst u. cbn. now rewrite Hip.
Qed.

Lemma setCurrentIndex_same (v : Viewer) :
  setCurrentIndex (currentIndex v) v = v.
Proof. now destruct v. Qed.

Lemma rerender_idle (v : Viewer) :
  Inv timelineData v -> rerender timelineData v = Done v.
Proof. intros [_ Hq]. now apply flush_quiescent. Qed.

(** Claim C5.  For a recording of [N >= 1] samples and every finite
    sequence of events the browser can deliver (play/pause clicks, keys,
    slider values within the slider's range, speed values, timeouts firing),
    the component never faults and [currentIndex] stays within [0, N-1];
    ArrowRight at index [N-1] and ArrowLeft at index [0] change nothing. *)
Theorem C5_index_in_range (es : list Event) :
  1 <= N -> Forall (deliverable timelineData) es ->
  exists v, run timelineData mount es = Done v
    /\ 0 <= currentIndex v <= N - 1
    /\ (currentIndex v = N - 1 ->
        step timelineData v (KeyDown ArrowRight) = Done v)
    /\ (currentIndex v = 0 ->
        step timelineData v (KeyDown ArrowLeft) = Done v).
Proof.
  intros HN Hes.
  destruct (run_Inv timelineData es mount (mount_Inv timelineData HN) Hes)
    as (v & Hrun & HI).
  exists v. split; [exact Hrun|].
  pose proof HI as [[Hidx _ _ _] _].
  split; [lia|]. split; intros Hb; cbn [step handleKeyPress].
  - replace (Z.min (currentIndex v + 1) (N - 1)) with (currentIndex v) by lia.
    rewrite setCurrentIndex_same. now apply rerender_idle.
  - replace (Z.max (currentIndex v - 1) 0) with (currentIndex v) by lia.
    rewrite setCurrentIndex_same. now apply rerender_idle.
Qed.

(** Scrubbing with the slider pauses: nothing is left to fire. *)
Lemma slider_scrub_pauses (v : Viewer) (i : Z) :
  Inv timelineData v -> 0 <= i < N ->
  exists v', step timelineData v (SliderInput i) = Done v'
    /\ currentIndex v' = i /\ isPlaying v' = false /\ timeouts v' = []
    /\ forall h, step timelineData v' (TimerFires h) = Done v'.
Proof.
  intros HI Hi. cbn [step].
  destruct (rerender_Inv timelineData _ (handleSliderChange_PreInv timelineData i v HI Hi))
    as (v' & -> & HI' & Hci & _ & Hip).
  specialize (Hip eq_refl).
  pose proof (Inv_timers timelineData v' HI') as Htm. rewrite Hip in Htm.
  destruct Htm as [Hts _].
  exists v'. repeat split; trivial.
  intros h. cbn [step]. unfold pendingTimeout. now rewrite Hts.
Qed.

(** A keyboard step while playing changes the index and nothing else: the
    scheduler keeps playing and its timeout stays pending. *)
Lemma keyboard_step_keeps_playing (v : Viewer) (k : Key) :
  Inv timelineData v -> k = ArrowRight \/ k = ArrowLeft ->
  exists v', step timelineData v (KeyDown k) = Done v'
    /\ isPlaying v' = isPlaying v /\ timeouts v' = timeouts v.
Proof.
  intros HI Hk. cbn [step].
  assert (Hpc : playbackChanged (handleKeyPress timelineData k v) = false).
  { destruct HI as [_ Hq]. unfold quiescent in Hq.
    apply andb_true_iff in Hq. destruct Hq as [_ Hq].
    apply negb_true_iff in Hq. destruct Hk as [-> | ->]; exact Hq. }
  destruct (indexChanged (handleKeyPress timelineData k v)) eqn:Hic.
  - rewrite (rerender_index timelineData _ Hpc Hic).
    eexists. split; [reflexivity|]. destruct Hk as [-> | ->]; now cbn.
  - assert (Hq : quiescent (handleKeyPress timelineData k v) = true)
      by (unfold quiescent; now rewrite Hpc, Hic).
    unfold rerender. rewrite (flush_quiescent timelineData _ _ Hq).
    eexists. split; [reflexivity|]. destruct Hk as [-> | ->]; now cbn.
Qed.



(** Claim C7, amended.  While the scheduler is playing before the last
    index, a change of the speed to a different positive value cancels the
    pending timeout and sets a new one, under a new handle, for the
    advancement from the current index to the next: its delay is the full
    delta between these two samples divided by the new speed, counted from
    the moment of the change.  That is the advancement the cancelled
    timeout was for exactly when the cancelled timeout was for the index
    after the current one, which it is unless an arrow key has moved the
    index during the wait.  The index and the play state are unchanged. *)
Theorem C7_speed_change_restarts_wait (v : Viewer) (s : number) :
  Inv timelineData v -> isPlaying v = true -> currentIndex v < N - 1 ->
  (0 < s)%Q -> ~ (s == playbackSpeed v)%Q ->
  exists old new cur nxt v',
    timeouts v = [old]
    /\ 1 <= cbNextIndex old <= N - 1
    /\ dataAt timelineData (currentIndex v) = Some cur
    /\ dataAt timelineData (currentIndex v + 1) = Some nxt
    /\ step timelineData v (SpeedInput s) = Done v'
    /\ timeouts v' = [new]
    /\ new = mkTimer (nextTimerId v)
                     (((timestamp nxt - timestamp cur) * 1000) / s)%Q
                     (currentIndex v + 1) s
    /\ playIntervalRef v' = Some (timerId new)
    /\ cbNextIndex new = currentIndex v + 1
    /\ (timerDelay new / 1000 == (timestamp nxt - timestamp cur) / s)%Q
    /\ (cbNextIndex new = cbNextIndex old
        <-> cbNextIndex old = currentIndex v + 1)
    /\ timerId old <> timerId new
    /\ pendingTimeout (timerId old) v' = None
    /\ isPlaying v' = true /\ currentIndex v' = currentIndex v
    /\ playbackSpeed v' = s.
Proof.
  intros HI Hip Hlt Hs Hne.
  pose proof (Inv_timers timelineData v HI) as Htm. rewrite Hip in Htm.
  destruct Htm as (old & Hts & Href & Hrg & Hsp & Hfr).
  pose proof (handleSpeedChange_PreInv timelineData s v HI Hs) as HP.
  destruct (rerender_play timelineData _ HP) as (cur & nxt & Hc & Hn & Hre).
  - destruct HI as [_ Hq]. destruct (quiescent_deps v Hq) as (_ & _ & Hds).
    unfold playbackChanged. cbn.
    destruct (Qeq_bool s (depSpeed v)) eqn:E.
    + apply Qeq_bool_iff in E. exfalso. apply Hne. now rewrite E.
    + apply orb_true_r.
  - exact Hip.
  - exact Hlt.
  - cbn in Hc, Hn, Hre.
    exists old. eexists. exists cur, nxt. eexists.
    split; [exact Hts|]. split; [lia|].
    split; [exact Hc|]. split; [exact Hn|].
    split; [exact Hre|]. cbn.
    split; [reflexivity|]. split; [reflexivity|].
    split; [reflexivity|]. split; [reflexivity|].
    split; [cbn [timerDelay]; field; lra|].
    split; [cbn [cbNextIndex]; split; intros H; lia|].
    assert (Hid : timerId old <> nextTimerId v) by lia.
    split; [exact Hid|].
    repeat split; trivial.
    unfold pendingTimeout. cbn.
    destruct (Pos.eqb (nextTimerId v) (timerId old)) eqn:E; [|reflexivity].
    apply Pos.eqb_eq in E. congruence.
Qed.

(** Claim C10, amended.  In every idle state other than "playing with the
    index at the last sample", a speed change (to a positive value) updates
    only the speed: the handler sets nothing but [playbackSpeed], and once
    the effects have run [currentIndex] and [isPlaying] are what they
    were. *)
Theorem C10_speed_change_frame (v : Viewer) (s : number) :
  Inv timelineData v -> (0 < s)%Q ->
  isPlaying v = false \/ currentIndex v < N - 1 ->
  handleSpeedChange s v = setPlaybackSpeed s v
  /\ exists v', step timelineData v (SpeedInput s) = Done v'
       /\ playbackSpeed v' = s
       /\ currentIndex v' = currentIndex v
       /\ isPlaying v' = isPlaying v.
Proof.
  intros HI Hs Hcase. split; [reflexivity|]. cbn [step].
  pose proof (handleSpeedChange_PreInv timelineData s v HI Hs) as HP.
  destruct (playbackChanged (handleSpeedChange s v)) eqn:Hpc.
  - destruct (isPlaying v) eqn:Hip.
    + destruct Hcase as [Hcase | Hlt]; [discriminate|].
      destruct (rerender_play timelineData _ HP Hpc Hip Hlt)
        as (cur & nxt & _ & _ & ->).
      eexists. split; [reflexivity|]. now cbn.
    + rewrite (rerender_stop timelineData _ HP Hpc Hip).
      eexists. split; [reflexivity|]. now cbn.
  - assert (Hq : quiescent (handleSpeedChange s v) = true).
    { destruct HI as [_ Hq]. unfold quiescent in *. rewrite Hpc.
      apply andb_true_iff in Hq. destruct Hq as [Hq _].
      unfold indexChanged in *. cbn. now rewrite Hq. }
    unfold rerender. rewrite (flush_quiescent timelineData _ _ Hq).
    eexists. split; [reflexivity|]. now cbn.
Qed.

End SchedulerClaims.

Section SchedulerExamples.

Import Scheduler Examples.
Open Scope Z_scope.

Lemma playingTwo_reached :
  run twoSamples mount [ClickPlayPause] = Done playingTwo.
Proof. reflexivity. Qed.

Ltac concrete_Inv :=
  split; [|reflexivity];
  constructor;
  [ cbn; lia
  | reflexivity
  | intros _; reflexivity
  | unfold timers_ok; cbn; right; eexists;
    repeat split; try reflexivity; try discriminate ].

Lemma playingTwo_Inv : Inv twoSamples playingTwo.
Proof. concrete_Inv. Defined.

Lemma playingThreeAtOne_reached :
  run threeSamples mount [ClickPlayPause; TimerFires 1]
  = Done playingThreeAtOne.
Proof. reflexivity. Qed.

Lemma playingThreeAtOne_Inv : Inv threeSamples playingThreeAtOne.
Proof. concrete_Inv. Defined.

Lemma playingThreeMovedBack_reached :
  run threeSamples mount [SliderInput 1; ClickPlayPause; KeyDown ArrowLeft]
  = Done playingThreeMovedBack.
Proof. reflexivity. Qed.

Lemma playingThreeMovedBack_Inv : Inv threeSamples playingThreeMovedBack.
Proof. concrete_Inv. Defined.

Lemma playingThreeAtEnd_reached :
  run threeSamples mount
      [ClickPlayPause; KeyDown ArrowRight; KeyDown ArrowRight]
  = Done playingThreeAtEnd.
Proof. reflexivity. Qed.

Lemma stoppedThreeAtEnd_reached :
  run threeSamples mount [SliderInput 2] = Done stoppedThreeAtEnd.
Proof. reflexivity. Qed.

(** Claim C7 as stated fails: playing [twoSamples] at speed 1 with a 1000 ms
    timeout pending, a change to speed 2 replaces that timeout (by one of
    500 ms under a new handle). *)
Lemma C7_counterexample : ~ inflight_wait_survives twoSamples playingTwo 2.
Proof.
  intros (v' & Hstep & Hts).
  vm_compute in Hstep. injection Hstep as <-. discriminate Hts.
Qed.

Lemma C7_witness :
  (exists old new cur nxt v',
      timeouts playingTwo = [old]
      /\ dataAt twoSamples 0 = Some cur
      /\ dataAt twoSamples 1 = Some nxt
      /\ step twoSamples playingTwo (SpeedInput 2) = Done v'
      /\ timeouts v' = [new]
      /\ cbNextIndex new = 1 /\ cbNextIndex old = 1
      /\ (timerDelay new / 1000 == (timestamp nxt - timestamp cur) / 2)%Q
      /\ pendingTimeout (timerId old) v' = None
      /\ isPlaying v' = true /\ currentIndex v' = 0)
  /\ (exists old new v',
         timeouts playingThreeMovedBack = [old]
         /\ step threeSamples playingThreeMovedBack (SpeedInput 2) = Done v'
         /\ timeouts v' = [new]
         /\ cbNextIndex old = 2 /\ cbNextIndex new = 1).
Proof.
  split.
  - destruct (C7_speed_change_restarts_wait twoSamples playingTwo 2)
      as (old & new & cur & nxt & v' & H1 & _ & H3 & H4 & H5 & H6 & H7 & _
          & H9 & H10 & _ & _ & H13 & H14 & H15 & _).
    + exact playingTwo_Inv.
    + reflexivity.
    + vm_compute. reflexivity.
    + reflexivity.
    + vm_compute. discriminate.
    + exists old, new, cur, nxt, v'.
      split; [exact H1|]. split; [exact H3|]. split; [exact H4|].
      split; [exact H5|]. split; [exact H6|]. split; [exact H9|].
      split; [injection H1 as <-; reflexivity|].
      split; [exact H10|]. split; [exact H13|]. split; [exact H14|].
      exact H15.
  - destruct (C7_speed_change_restarts_wait threeSamples
                playingThreeMovedBack 2)
      as (old & new & cur & nxt & v' & H1 & _ & _ & _ & H5 & H6 & _ & _
          & H9 & _).
    + exact playingThreeMovedBack_Inv.
    + reflexivity.
    + vm_compute. reflexivity.
    + reflexivity.
    + vm_compute. discriminate.
    + exists old, new, v'.
      split; [exact H1|]. split; [exact H5|]. split; [exact H6|].
      split; [injection H1 as <-; reflexivity | exact H9].
Defined.

Lemma C5_witness :
  exists v,
    run threeSamples mount
        [ClickPlayPause; KeyDown ArrowRight; SliderInput 2; SpeedInput 2;
         KeyDown ArrowRight] = Done v
    /\ 0 <= currentIndex v <= dataLength threeSamples - 1
    /\ (currentIndex v = dataLength threeSamples - 1 ->
        step threeSamples v (KeyDown ArrowRight) = Done v)
    /\ (currentIndex v = 0 ->
        step threeSamples v (KeyDown ArrowLeft) = Done v).
Proof.
  apply (C5_index_in_range threeSamples).
  - vm_compute. discriminate.
  - repeat constructor; vm_compute; try reflexivity; discriminate.
Defined.

(** Claim C3, evaluated on the arrow keys.  Playing [threeSamples] from
    index 1, ArrowLeft moves [currentIndex] to 0 but leaves [isPlaying] true
    and the timeout for index 2 pending; when that timeout fires
    [currentIndex] jumps to 2. *)
Theorem C3_keyboard_step_does_not_pause :
  exists v v',
    run threeSamples mount
        [SliderInput 1; ClickPlayPause; KeyDown ArrowLeft] = Done v
    /\ currentIndex v = 0
    /\ isPlaying v = true
    /\ map cbNextIndex (timeouts v) = [2]
    /\ step threeSamples v (TimerFires 1) = Done v'
    /\ currentIndex v' = 2.
Proof.
  eexists. eexists. split; [vm_compute; reflexivity|].
  repeat split.
Qed.

Lemma playingTwoAtEnd_reached :
  run twoSamples mount [ClickPlayPause; KeyDown ArrowRight]
  = Done playingTwoAtEnd.
Proof. reflexivity. Qed.

(** Claim C10 as stated fails: playing [twoSamples] with the index moved to
    the last sample by ArrowRight, a change to speed 2 re-runs the playback
    effect, whose [advanceFrame] finds the last index and sets [isPlaying]
    to false. *)
Lemma C10_counterexample :
  ~ speed_change_keeps_play_state twoSamples playingTwoAtEnd 2.
Proof.
  intros (v' & Hstep & _ & Hplay).
  vm_compute in Hstep. injection Hstep as <-. discriminate Hplay.
Qed.

Lemma C10_witness :
  handleSpeedChange 2 playingTwo = setPlaybackSpeed 2 playingTwo
  /\ exists v', step twoSamples playingTwo (SpeedInput 2) = Done v'
       /\ playbackSpeed v' = 2%Q
       /\ currentIndex v' = currentIndex playingTwo
       /\ isPlaying v' = isPlaying playingTwo.
Proof.
  apply (C10_speed_change_frame twoSamples playingTwo 2).
  - exact playingTwo_Inv.
  - reflexivity.
  - right. vm_compute. reflexivity.
Defined.

(** The scenario of three samples at 0 s, 0.1 s and 0.3 s played at speed
    1: a 100 ms wait, then a 200 ms wait, then the scheduler stops at the
    last index. *)
Example three_samples_play_through :
  exists v1 v2 v3,
    run threeSamples mount [ClickPlayPause] = Done v1
    /\ map cbNextIndex (timeouts v1) = [1]
    /\ Forall (fun t => timerDelay t == 100)%Q (timeouts v1)
    /\ step threeSamples v1 (TimerFires 1) = Done v2
    /\ currentIndex v2 = 1
    /\ map cbNextIndex (timeouts v2) = [2]
    /\ Forall (fun t => timerDelay t == 200)%Q (timeouts v2)
    /\ step threeSamples v2 (TimerFires 2) = Done v3
    /\ currentIndex v3 = 2 /\ isPlaying v3 = false /\ timeouts v3 = [].
Proof.
  eexists. eexists. eexists.
  split; [vm_compute; reflexivity|]. split; [reflexivity|].
  split; [repeat constructor|].
  split; [vm_compute; reflexivity|]. split; [reflexivity|].
  split; [reflexivity|]. split; [repeat constructor|].
  split; [vm_compute; reflexivity|]. repeat split.
Qed.

End SchedulerExamples.

(** ** Rounding to binary64 *)

Section Binary64Facts.

Open Scope Q_scope.

Lemma binary64_zero (q : number) : q == 0 -> binary64 q = 0.
Proof.
  intros H. unfold binary64.
  assert (E : Qeq_bool (Qred q) 0 = true).
  { apply Qeq_bool_iff. now rewrite Qred_correct. }
  now rewrite E.
Qed.

Lemma binary64_morph (p q : number) : p == q -> binary64 p = binary64 q.
Proof.
  intros H. unfold binary64. now rewrite (Qred_complete p q H).
Qed.

Lemma roundHalfEven_near (x : Q) :
  Qabs (inject_Z (roundHalfEven x) - x) <= 1 # 2.
Proof.
  unfold roundHalfEven.
  pose proof (Qfloor_le x) as Hlo.
  pose proof (Qlt_floor x) as Hhi.
  rewrite inject_Z_plus in Hhi. change (inject_Z 1) with 1 in Hhi.
  apply Qabs_Qle_condition.
  destruct (Qcompare (x - inject_Z (Qfloor x)) (1 # 2)) eqn:E.
  - apply Qeq_alt in E.
    destruct (Z.even (Qfloor x));
      rewrite ?inject_Z_plus; change (inject_Z 1) with 1; split; lra.
  - apply Qlt_alt in E. split; lra.
  - apply Qgt_alt in E. rewrite inject_Z_plus. change (inject_Z 1) with 1.
    split; lra.
Qed.

Lemma two_power_pos (z : Z) : 0 < 2 ^ z.
Proof. apply Qpower_0_lt. reflexivity. Qed.

Lemma two_power_inverse (z : Z) : 2 ^ (- z) * 2 ^ z == 1.
Proof.
  rewrite <- Qpower_plus by discriminate.
  replace (- z + z)%Z with 0%Z by lia. reflexivity.
Qed.

Lemma two_power_succ (z : Z) : 2 ^ (z + 1) == 2 ^ z * 2.
Proof. rewrite Qpower_plus by discriminate. reflexivity. Qed.

Lemma two_power_inject (k : Z) : (0 <= k)%Z -> inject_Z (2 ^ k) == 2 ^ k.
Proof. intros H. now rewrite Zpower_Qpower. Qed.

(** The exponent puts the scaled magnitude at or above [2^52]. *)
Lemma binaryExponent_scaled (a : Q) :
  0 < a -> 2 ^ 52 <= a * 2 ^ (- binaryExponent a).
Proof.
  intros Ha. unfold binaryExponent.
  set (n := Qnum a). set (d := Zpos (Qden a)).
  set (l := (Z.log2 n - Z.log2 d - 52)%Z).
  destruct (Qle_bool (2 ^ 52) (a * 2 ^ (- l))) eqn:E.
  - now apply Qle_bool_iff.
  - assert (Hn : (0 < n)%Z).
    { unfold n. destruct a as [an ad]. unfold Qlt in Ha. cbn in *. lia. }
    assert (Hd : (0 < d)%Z) by (unfold d; lia).
    destruct (Z.log2_spec n Hn) as [Hn1 _].
    destruct (Z.log2_spec d Hd) as [_ Hd2].
    pose proof (Z.log2_nonneg n) as Hln.
    pose proof (Z.log2_nonneg d) as Hld.
    assert (Qn : 2 ^ Z.log2 n <= inject_Z n).
    { rewrite <- two_power_inject by lia. now rewrite <- Zle_Qle. }
    assert (Qd : inject_Z d < 2 ^ (Z.log2 d + 1)).
    { rewrite <- two_power_inject by lia. rewrite <- Zlt_Qlt.
      now rewrite <- Z.add_1_r in Hd2. }
    assert (Qa : a * inject_Z d == inject_Z n).
    { unfold n, d. destruct a as [an ad]. unfold Qeq, Qmult, inject_Z. cbn.
      lia. }
    replace (- (l - 1))%Z with (52 + (Z.log2 d + 1) + - Z.log2 n)%Z
      by (unfold l; lia).
    rewrite (Qpower_plus 2 (52 + (Z.log2 d + 1)) (- Z.log2 n))
      by discriminate.
    rewrite (Qpower_plus 2 52 (Z.log2 d + 1)) by discriminate.
    pose proof (two_power_pos (Z.log2 n)) as P1.
    pose proof (two_power_pos (Z.log2 d + 1)) as P2.
    pose proof (two_power_inverse (Z.log2 n)) as P3.
    set (A := 2 ^ Z.log2 n) in *.
    set (D := 2 ^ (Z.log2 d + 1)) in *.
    set (A' := 2 ^ (- Z.log2 n)) in *.
    assert (PA' : 0 < A').
    { unfold A'. apply two_power_pos. }
    assert (Hd0 : 0 < inject_Z d).
    { change 0 with (inject_Z 0). now rewrite <- Zlt_Qlt. }
    (* a * D * A' >= 1 *)
    assert (H1 : 1 <= a * D * A').
    { assert (a * inject_Z d <= a * D) by nra.
      assert (A <= a * D) by lra.
      assert (A' * A <= A' * (a * D)) by nra.
      lra. }
    assert (H52 : 0 < 2 ^ 52) by reflexivity.
    set (c := 2 ^ 52) in *.
    setoid_replace (a * (c * D * A')) with (c * (a * D * A')) by ring.
    set (X := a * D * A') in *. nra.
Qed.

(** Rounding to binary64 moves a number by at most half a unit in the last
    place: by [2^-53] of its magnitude. *)
Lemma binary64_error (q : number) :
  Qabs (binary64 q - q) <= Qabs q * (1 # 2 ^ 53).
Proof.
  unfold binary64.
  pose proof (Qred_correct q) as Hr.
  set (r := Qred q) in *.
  destruct (Qeq_bool r 0) eqn:E0.
  - apply Qeq_bool_iff in E0. assert (Hq : q == 0) by now rewrite <- Hr.
    rewrite Hq. cbn. discriminate.
  - assert (Hne : ~ r == 0).
    { intros H. apply Qeq_bool_iff in H. congruence. }
    assert (Ha : 0 < Qabs r).
    { destruct (Qlt_le_dec 0 (Qabs r)) as [H | H]; [exact H|].
      exfalso. apply Hne. pose proof (Qabs_nonneg r).
      apply Qabs_Qle_condition in H. lra. }
    pose proof (binaryExponent_scaled (Qabs r) Ha) as Hx.
    set (e := binaryExponent (Qabs r)) in *.
    pose proof (roundHalfEven_near (Qabs r * 2 ^ (- e))) as Hm.
    set (m := inject_Z (roundHalfEven (Qabs r * 2 ^ (- e)))) in *.
    pose proof (two_power_pos e) as P.
    pose proof (two_power_pos (- e)) as P'.
    pose proof (two_power_inverse e) as PP.
    set (p := 2 ^ e) in *. set (p' := 2 ^ (- e)) in *.
    apply Qabs_Qle_condition in Hm. destruct Hm as [Hm1 Hm2].
    assert (H52 : 2 ^ 52 == 4503599627370496) by reflexivity.
    rewrite H52 in Hx.
    assert (Hbound : - (Qabs r * (1 # 2 ^ 53)) <= m * p - Qabs r
                     /\ m * p - Qabs r <= Qabs r * (1 # 2 ^ 53)).
    { change (1 # 2 ^ 53) with (1 # 9007199254740992).
      assert (Hscale : Qabs r == (Qabs r * p') * p).
      { rewrite <- Qmult_assoc, PP. ring. }
      set (x := Qabs r * p') in *.
      assert (Hp : p * 4503599627370496 <= Qabs r).
      { rewrite Hscale. nra. }
      rewrite Hscale at 2 3. 
      split; nra. }
    destruct Hbound as [Hb1 Hb2].
    rewrite <- Hr.
    destruct (Qle_bool 0 r) eqn:Es.
    + apply Qle_bool_iff in Es. rewrite (Qabs_pos r Es) in *.
      apply Qabs_Qle_condition. split; lra.
    + assert (Hneg : r <= 0).
      { destruct (Qlt_le_dec 0 r) as [H | H]; [|exact H].
        apply Qlt_le_weak, Qle_bool_iff in H. congruence. }
      rewrite (Qabs_neg r Hneg) in *.
      apply Qabs_Qle_condition. split; lra.
Qed.


Lemma binaryExponent_below (a : Q) :
  0 < a -> a * 2 ^ (- binaryExponent a) < 2 ^ 53.
Proof.
  intros Ha. unfold binaryExponent.
  set (n := Qnum a). set (d := Zpos (Qden a)).
  set (l := (Z.log2 n - Z.log2 d - 52)%Z).
  assert (H53 : 2 ^ 53 == 2 ^ 52 * 2) by reflexivity.
  assert (H52 : 0 < 2 ^ 52) by reflexivity.
  destruct (Qle_bool (2 ^ 52) (a * 2 ^ (- l))) eqn:E.
  - assert (Hn : (0 < n)%Z).
    { unfold n. destruct a as [an ad]. unfold Qlt in Ha. cbn in *. lia. }
    assert (Hd : (0 < d)%Z) by (unfold d; lia).
    destruct (Z.log2_spec n Hn) as [_ Hn2].
    destruct (Z.log2_spec d Hd) as [Hd1 _].
    pose proof (Z.log2_nonneg n) as Hln.
    pose proof (Z.log2_nonneg d) as Hld.
    assert (Qn : inject_Z n < 2 ^ (Z.log2 n + 1)).
    { rewrite <- two_power_inject by lia. rewrite <- Zlt_Qlt.
      now rewrite <- Z.add_1_r in Hn2. }
    assert (Qd : 2 ^ Z.log2 d <= inject_Z d).
    { rewrite <- two_power_inject by lia. now rewrite <- Zle_Qle. }
    assert (Qa : a * inject_Z d == inject_Z n).
    { unfold n, d. destruct a as [an ad]. unfold Qeq, Qmult, inject_Z. cbn.
      lia. }
    rewrite two_power_succ in Qn.
    replace (- l)%Z with (52 + Z.log2 d + - Z.log2 n)%Z by (unfold l; lia).
    rewrite (Qpower_plus 2 (52 + Z.log2 d) (- Z.log2 n)) by discriminate.
    rewrite (Qpower_plus 2 52 (Z.log2 d)) by discriminate.
    pose proof (two_power_pos (Z.log2 n)) as P1.
    pose proof (two_power_pos (Z.log2 d)) as P2.
    pose proof (two_power_inverse (Z.log2 n)) as P3.
    pose proof (two_power_pos (- Z.log2 n)) as PA'.
    set (A := 2 ^ Z.log2 n) in *.
    set (D := 2 ^ Z.log2 d) in *.
    set (A' := 2 ^ (- Z.log2 n)) in *.
    set (c := 2 ^ 52) in *.
    rewrite H53.
    assert (H1 : a * D * A' < 2).
    { assert (a * D <= a * inject_Z d) by nra.
      assert (a * D < A * 2) by lra.
      assert (A' * (a * D) < A' * (A * 2)) by nra.
      nra. }
    setoid_replace (a * (c * D * A')) with (c * (a * D * A')) by ring.
    set (X := a * D * A') in *. nra.
  - assert (Hlt : a * 2 ^ (- l) < 2 ^ 52).
    { destruct (Qlt_le_dec (a * 2 ^ (- l)) (2 ^ 52)) as [H | H]; [exact H|].
      apply Qle_bool_iff in H. congruence. }
    replace (- (l - 1))%Z with (- l + 1)%Z by lia.
    rewrite two_power_succ, H53.
    set (y := a * 2 ^ (- l)) in *. set (c := 2 ^ 52) in *.
    setoid_replace (a * (2 ^ (- l) * 2)) with (y * 2) by (unfold y; ring).
    lra.
Qed.

Lemma Qabs_cases (x : Q) :
  (0 <= x /\ Qabs x == x) \/ (x <= 0 /\ Qabs x == - x).
Proof.
  destruct (Qlt_le_dec x 0) as [H | H].
  - right. split; [lra|]. apply Qabs_neg. lra.
  - left. split; [exact H|]. now apply Qabs_pos.
Qed.

(** On the numbers of the seek test at 0.75 s and frame 7, [binary64] is
    the Standard Library's binary64: the quotient 7 / 10, the literal
    0.05, the difference 0.75 - 0.7 and the outcome of the test. *)
Lemma binary64_agrees_with_SpecFloat :
  let div := SpecFloat.SFdiv 53 1024 in
  let sub := SpecFloat.SFsub 53 1024 in
  let sameAs (f : SpecFloat.spec_float) (q : Q) :=
    exists v, ieeeValue f = Some v /\ v == q in
  sameAs (div (ieeeOfZ 7) (ieeeOfZ 10)) (binary64 (7 / 10))
  /\ sameAs (div (ieeeOfZ 1) (ieeeOfZ 20)) (binary64 0.05)
  /\ sameAs (div (ieeeOfZ 3) (ieeeOfZ 4)) (binary64 0.75)
  /\ sameAs (sub (div (ieeeOfZ 3) (ieeeOfZ 4)) (div (ieeeOfZ 7) (ieeeOfZ 10)))
            (binary64 (binary64 0.75 - binary64 (7 / 10)))
  /\ SpecFloat.SFltb
       (div (ieeeOfZ 1) (ieeeOfZ 20))
       (SpecFloat.SFabs
          (sub (div (ieeeOfZ 3) (ieeeOfZ 4)) (div (ieeeOfZ 7) (ieeeOfZ 10))))
     = negb (Qle_bool (Qabs (binary64 (binary64 0.75 - binary64 (7 / 10))))
                      (binary64 0.05)).
Proof.
  cbv zeta. repeat split;
    try (eexists; split; [vm_compute; reflexivity | vm_compute; reflexivity]).
Qed.

End Binary64Facts.

(** ** Properties of the projector and the synchronizer *)

Section ProjectorFacts.

Import Display.
Open Scope Q_scope.

Lemma num_div_2 (a : number) : num_div a 2 = Done (a / 2).
Proof. reflexivity. Qed.

Lemma Qeq_bool_neq_false (a b : Q) : ~ a == b -> Qeq_bool a b = false.
Proof.
  intros H. destruct (Qeq_bool a b) eqn:E; [|reflexivity].
  apply Qeq_bool_iff in E. contradiction.
Qed.

(** The projector never divides by zero. *)
Lemma updateDisplay_total (data : Sample) (mode : bool) (d : Dom) :
  exists d', updateDisplay data mode d = Done d'.
Proof.
  unfold updateDisplay.
  destruct (cursorRef d) as [cursor|]; [|now exists d].
  destruct (videoRef d) as [video|]; [|now exists d].
  destruct (wrapperRef d) as [wrapper|]; [|now exists d].
  destruct (Qeq_bool (videoWidth video) 0) eqn:Ew; [now exists d|].
  destruct (Qeq_bool (videoHeight video) 0) eqn:Eh; [now exists d|].
  cbn [orb]. unfold num_div at 1 2. rewrite Ew, Eh. cbn [bind].
  rewrite !num_div_2. cbn [bind].
  destruct mode; rewrite ?num_div_2; cbn [bind]; eexists; reflexivity.
Qed.

(** The projector leaves the media position alone. *)
Lemma updateDisplay_mediaTime (data : Sample) (mode : bool) (d d' : Dom) :
  updateDisplay data mode d = Done d' -> mediaTime d' = mediaTime d.
Proof.
  unfold updateDisplay.
  destruct (cursorRef d) as [cursor|]; [|now intros [= <-]].
  destruct (videoRef d) as [video|] eqn:Hv; [|now intros [= <-]].
  destruct (wrapperRef d) as [wrapper|]; [|now intros [= <-]].
  destruct (Qeq_bool (videoWidth video) 0) eqn:Ew; [now intros [= <-]|].
  destruct (Qeq_bool (videoHeight video) 0) eqn:Eh; [now intros [= <-]|].
  cbn [orb]. unfold num_div at 1 2. rewrite Ew, Eh. cbn [bind].
  rewrite !num_div_2. cbn [bind].
  destruct mode; rewrite ?num_div_2; cbn [bind]; intros [= <-];
    unfold mediaTime; cbn; now rewrite Hv.
Qed.

Lemma updateDisplay_videoReady (data : Sample) (mode : bool) (d d' : Dom) :
  updateDisplay data mode d = Done d' -> videoReady d' = videoReady d.
Proof.
  unfold updateDisplay.
  destruct (cursorRef d) as [cursor|]; [|now intros [= <-]].
  destruct (videoRef d) as [video|] eqn:Hv; [|now intros [= <-]].
  destruct (wrapperRef d) as [wrapper|]; [|now intros [= <-]].
  destruct (Qeq_bool (videoWidth video) 0) eqn:Ew; [now intros [= <-]|].
  destruct (Qeq_bool (videoHeight video) 0) eqn:Eh; [now intros [= <-]|].
  cbn [orb]. unfold num_div at 1 2. rewrite Ew, Eh. cbn [bind].
  rewrite !num_div_2. cbn [bind].
  destruct mode; rewrite ?num_div_2; cbn [bind]; intros [= <-];
    unfold videoReady; cbn; now rewrite Hv.
Qed.


Import Examples.

(** Claim C9.  With the three elements mounted and nonzero natural
    dimensions, direct mode computes
    [cursorX = (x / 2) * (displayedWidth / naturalWidth)] and
    [cursorY = (y / 2) * (displayedHeight / naturalHeight)] and puts the
    marker's top-left corner at
    [(cursorX - markerHalfSize, cursorY - markerHalfSize)], so that the
    marker's centre is the cursor point.  For a 1000x1000 video shown at
    500x500 and a sample at (800, 600) the centre is (200, 150). *)
Theorem C9_direct_mode_geometry
    (data : Sample) (d : Dom) (cursor : Cursor) (video : Video)
    (wrapper : Wrapper) :
  cursorRef d = Some cursor -> videoRef d = Some video ->
  wrapperRef d = Some wrapper ->
  ~ videoWidth video == 0 -> ~ videoHeight video == 0 ->
  let cursorX := (x data / 2) * (clientWidth video / videoWidth video) in
  let cursorY := (y data / 2) * (clientHeight video / videoHeight video) in
  (exists d' cursor',
      updateDisplay data false d = Done d'
      /\ cursorRef d' = Some cursor'
      /\ cursorLeft cursor' = Some (Px (cursorX - markerHalfSize))
      /\ cursorTop cursor' = Some (Px (cursorY - markerHalfSize))
      /\ markerCenter (cursorX - markerHalfSize) == cursorX
      /\ markerCenter (cursorY - markerHalfSize) == cursorY)
  /\ (exists d' cursor' left top,
         updateDisplay sampleAt800x600 false loadedDom = Done d'
         /\ cursorRef d' = Some cursor'
         /\ cursorLeft cursor' = Some (Px left)
         /\ cursorTop cursor' = Some (Px top)
         /\ markerCenter left == 200
         /\ markerCenter top == 150).
Proof.
  intros Hc Hv Hw Hnw Hnh cursorX cursorY. split.
  - unfold updateDisplay. rewrite Hc, Hv, Hw.
    rewrite (Qeq_bool_neq_false _ _ Hnw), (Qeq_bool_neq_false _ _ Hnh).
    cbn [orb]. unfold num_div at 1 2.
    rewrite (Qeq_bool_neq_false _ _ Hnw), (Qeq_bool_neq_false _ _ Hnh).
    cbn [bind]. rewrite !num_div_2. cbn [bind].
    eexists. eexists. split; [reflexivity|].
    cbn [cursorRef cursorLeft cursorTop].
    repeat split; unfold markerCenter; ring.
  - eexists. eexists. eexists. eexists. split; [vm_compute; reflexivity|].
    repeat split.
Qed.

(** Claim C8.  When the video reports a zero natural width or height,
    [updateDisplay] changes nothing.  Whatever its input, [updateDisplay]
    completes without dividing by zero.  When the video signals that its
    metadata is loaded, [updateDisplay] runs again, on the dimensions the
    browser then reports. *)
Theorem C8_unloaded_media_is_skipped
    (data : Sample) (mode : bool) (d : Dom) (video : Video)
    (s : Display) (l : Layout) :
  videoRef d = Some video ->
  videoWidth video == 0 \/ videoHeight video == 0 ->
  updateDisplay data mode d = Done d
  /\ (forall data' mode' d0, exists d', updateDisplay data' mode' d0 = Done d')
  /\ exists s',
       step s (LoadedMetadata l) = Done s'
       /\ updateDisplay (Display.data s) (isFpsMode s) (relayout l (dom s))
          = Done (dom s')
       /\ projections s'
          = projections s
            ++ [mkProjection (Display.data s) (isSeeking s) (pendingData s)
                             (mediaTime (dom s))].
Proof.
  intros Hv Hz. split; [|split].
  - unfold updateDisplay. rewrite Hv.
    destruct (cursorRef d); [|reflexivity].
    destruct (wrapperRef d); [|reflexivity].
    destruct Hz as [Hz | Hz]; apply Qeq_bool_iff in Hz; rewrite Hz;
      [reflexivity | now rewrite orb_true_r].
  - intros. apply updateDisplay_total.
  - cbn [step]. unfold handleVideoLoad, callUpdateDisplay. cbn.
    destruct (updateDisplay_total (Display.data s) (isFpsMode s)
                (relayout l (dom s))) as (d' & Hd).
    rewrite Hd. cbn [bind]. eexists. split; [reflexivity|]. cbn.
    split; [reflexivity|].
    do 3 f_equal. unfold mediaTime, relayout. cbn.
    now destruct (videoRef (dom s)).
Qed.

End ProjectorFacts.

Section SynchronizerFacts.

Import Display.
Open Scope Q_scope.

Lemma tolerance_bounds :
  0.05 <= binary64 seekTolerance /\ binary64 seekTolerance <= 0.05 + (1 # 10000000000000000).
Proof. split; apply Qle_bool_iff; vm_compute; reflexivity. Qed.

Lemma binary64_near (q bound : number) :
  Qabs q <= bound ->
  Qabs (binary64 q - q) <= bound * (1 # 2 ^ 53).
Proof.
  intros H. pose proof (binary64_error q) as He.
  change (1 # 2 ^ 53) with (1 # 9007199254740992) in *.
  lra.
Qed.

Lemma timeDifference_same (t q : number) : t == q -> timeDifference t q == 0.
Proof.
  intros H. unfold timeDifference. rewrite (binary64_morph t q H).
  rewrite (binary64_zero (binary64 q - binary64 q)) by ring. reflexivity.
Qed.

Lemma frame_time_bound (a : Z) :
  (Z.abs a <= frameLimit)%Z ->
  Qabs (inject_Z a / videoFPS) <= inject_Z frameLimit / 10.
Proof.
  intros H. unfold videoFPS. apply Qabs_Qle_condition.
  assert (H1 : inject_Z (- frameLimit) <= inject_Z a)
    by (rewrite <- Zle_Qle; lia).
  assert (H2 : inject_Z a <= inject_Z frameLimit)
    by (rewrite <- Zle_Qle; lia).
  rewrite inject_Z_opp in H1.
  unfold Qdiv. change (/ 10) with (1 # 10). split; lra.
Qed.

(** The times of two different frames, as doubles, are more than the
    tolerance apart. *)
Lemma other_frame_beyond (a b : Z) (t : number) :
  t == inject_Z a / videoFPS -> a <> b ->
  (Z.abs a <= frameLimit)%Z -> (Z.abs b <= frameLimit)%Z ->
  binary64 seekTolerance < timeDifference t (inject_Z b / videoFPS).
Proof.
  intros Ht Hne Ha Hb. unfold timeDifference.
  rewrite (binary64_morph t _ Ht).
  pose proof (binary64_near _ _ (frame_time_bound a Ha)) as Ea.
  pose proof (binary64_near _ _ (frame_time_bound b Hb)) as Eb.
  set (X := binary64 (inject_Z a / videoFPS)) in *.
  set (Y := binary64 (inject_Z b / videoFPS)) in *.
  pose proof (binary64_error (X - Y)) as Ed.
  destruct tolerance_bounds as [_ Htol].
  change (inject_Z frameLimit) with 1125899906842624 in *.
  change (1 # 2 ^ 53) with (1 # 9007199254740992) in *.
  unfold videoFPS, Qdiv in *. change (/ 10) with (1 # 10) in *.
  apply Qabs_Qle_condition in Ea, Eb.
  assert (Hsep : inject_Z a + 1 <= inject_Z b \/ inject_Z b + 1 <= inject_Z a).
  { change 1 with (inject_Z 1). rewrite <- !inject_Z_plus, <- !Zle_Qle. lia. }
  set (qa := inject_Z a) in *. set (qb := inject_Z b) in *.
  destruct (Qabs_cases (X - Y)) as [[Hs Hx] | [Hs Hx]]; rewrite Hx in Ed;
    destruct (Qabs_cases (binary64 (X - Y) - (X - Y))) as [[Hs1 Hx1] | [Hs1 Hx1]];
    rewrite Hx1 in Ed;
    destruct (Qabs_cases (binary64 (X - Y))) as [[Hs2 Hx2] | [Hs2 Hx2]];
    rewrite Hx2; destruct Hsep; lra.
Qed.

Lemma frames_close (a b : Z) (t : number) :
  t == inject_Z a / videoFPS ->
  timeDifference t (inject_Z b / videoFPS) <= binary64 seekTolerance ->
  (Z.abs a <= frameLimit)%Z -> (Z.abs b <= frameLimit)%Z ->
  a = b.
Proof.
  intros Ht Hle Ha Hb. destruct (Z.eq_dec a b) as [E | E]; [exact E|].
  exfalso. pose proof (other_frame_beyond a b t Ht E Ha Hb). lra.
Qed.

(** Up to a million seconds the difference the program computes is within a
    nanosecond of the exact one. *)
Lemma timeDifference_exact (t target : number) :
  Qabs t <= 1000000 -> Qabs target <= 1000000 ->
  Qabs (timeDifference t target - Qabs (t - target)) <= 1 # 2000000000.
Proof.
  intros Ht HT. unfold timeDifference.
  pose proof (binary64_error t) as Et.
  pose proof (binary64_error target) as ET.
  set (X := binary64 t) in *. set (Y := binary64 target) in *.
  pose proof (binary64_error (X - Y)) as Ed.
  change (1 # 2 ^ 53) with (1 # 9007199254740992) in *.
  apply Qabs_Qle_condition in Ht, HT.
  destruct (Qabs_cases t) as [[? Ha] | [? Ha]]; rewrite Ha in Et;
  destruct (Qabs_cases target) as [[? Hb] | [? Hb]]; rewrite Hb in ET;
  destruct (Qabs_cases (X - t)) as [[? Hc] | [? Hc]]; rewrite Hc in Et;
  destruct (Qabs_cases (Y - target)) as [[? Hd] | [? Hd]]; rewrite Hd in ET;
  destruct (Qabs_cases (X - Y)) as [[? He] | [? He]]; rewrite He in Ed;
  destruct (Qabs_cases (binary64 (X - Y) - (X - Y))) as [[? Hf] | [? Hf]];
    rewrite Hf in Ed;
  destruct (Qabs_cases (binary64 (X - Y))) as [[? Hg] | [? Hg]]; rewrite Hg;
  destruct (Qabs_cases (t - target)) as [[? Hh] | [? Hh]]; rewrite Hh;
  apply Qabs_Qle_condition; split; lra.
Qed.

Lemma same_frame_aligned (k : Z) (t : number) :
  t == inject_Z k / videoFPS ->
  timeDifference t (inject_Z k / videoFPS) <= binary64 seekTolerance.
Proof.
  intros Ht. rewrite (timeDifference_same _ _ Ht).
  destruct tolerance_bounds as [H _]. lra.
Qed.

Lemma callUpdateDisplay_spec (r w : Display) :
  exists d',
    updateDisplay (data r) (isFpsMode r) (dom w) = Done d'
    /\ mediaTime d' = mediaTime (dom w)
    /\ videoReady d' = videoReady (dom w)
    /\ callUpdateDisplay r w
       = Done (mkDisplay (data w) (isFpsMode w) (isSeeking w) (pendingData w)
                 d' (seekCommands w)
                 (projections w ++
                    [mkProjection (data r) (isSeeking r) (pendingData r)
                                  (mediaTime (dom w))])).
Proof.
  destruct (updateDisplay_total (data r) (isFpsMode r) (dom w)) as (d' & Hd).
  exists d'. split; [exact Hd|].
  split; [exact (updateDisplay_mediaTime _ _ _ _ Hd)|].
  split; [exact (updateDisplay_videoReady _ _ _ _ Hd)|].
  unfold callUpdateDisplay. now rewrite Hd.
Qed.

Lemma entry_ok (r w : Display) :
  (forall t, mediaTime (dom w) = Some t -> aligned (data r) t) ->
  (forall p, pendingData r = Some p ->
             exists fp t, frame_number p = Some fp
                          /\ mediaTime (dom w) = Some t
                          /\ t == inject_Z fp / videoFPS) ->
  projection_ok (mkProjection (data r) (isSeeking r) (pendingData r)
                              (mediaTime (dom w))).
Proof.
  intros Hal Hp. split; cbn.
  - exact Hal.
  - exact Hp.
Qed.

(** A call of [updateDisplay] from a closure of [r] keeps the invariant of
    [w] when [r] and [w] show the same sample. *)
Lemma callUpdateDisplay_DInv (r w : Display) :
  DInv w -> data r = data w ->
  (forall p, pendingData r = Some p -> pendingData w = Some p \/
             exists fp t, frame_number p = Some fp
                          /\ mediaTime (dom w) = Some t
                          /\ t == inject_Z fp / videoFPS) ->
  exists w', callUpdateDisplay r w = Done w' /\ DInv w'
    /\ data w' = data w /\ isFpsMode w' = isFpsMode w
    /\ isSeeking w' = isSeeking w /\ pendingData w' = pendingData w
    /\ seekCommands w' = seekCommands w
    /\ mediaTime (dom w') = mediaTime (dom w)
    /\ videoReady (dom w') = videoReady (dom w)
    /\ projections w'
       = projections w ++ [mkProjection (data r) (isSeeking r)
                             (pendingData r) (mediaTime (dom w))].
Proof.
  intros [[Hpend Hidle Hlog] Hal] Hdata Hrp.
  destruct (callUpdateDisplay_spec r w) as (d' & _ & Hmt & Hvr & ->).
  eexists. split; [reflexivity|]. cbn.
  repeat split; trivial; cbn.
  - intros p Hp. rewrite Hmt. now apply Hpend.
  - apply Forall_app. split; [exact Hlog|]. constructor; [|constructor].
    apply entry_ok.
    + rewrite Hdata. exact Hal.
    + intros p Hp. destruct (Hrp p Hp) as [Hw | H]; [now apply Hpend | exact H].
  - rewrite Hmt. exact Hal.
Qed.

Lemma num_div_fps (a : number) : num_div a videoFPS = Done (a / videoFPS).
Proof. reflexivity. Qed.

(** What the seek effect does, given a video and a frame number. *)
Lemma seekEffect_cases (s : Display) (video : Video) (fn : Z) :
  videoRef (dom s) = Some video -> frame_number (data s) = Some fn ->
  let targetTime := inject_Z fn / videoFPS in
  let timeDiff := timeDifference (currentTime video) targetTime in
  (binary64 seekTolerance < timeDiff ->
   seekEffect s s
   = Done (seekTo targetTime
             (setPendingData (Some (data s)) (setIsSeeking true s))))
  /\ (timeDiff <= binary64 seekTolerance ->
      seekEffect s s = callUpdateDisplay s s).
Proof.
  intros Hv Hfn targetTime timeDiff.
  unfold seekEffect. rewrite Hv, Hfn, num_div_fps. cbn [bind].
  fold targetTime. fold timeDiff. unfold beyondTolerance.
  destruct (Qle_bool timeDiff (binary64 seekTolerance)) eqn:E; cbn [negb].
  - apply Qle_bool_iff in E. split; [|reflexivity].
    intros Hlt. exfalso. apply (Qlt_not_le _ _ Hlt E).
  - split; [reflexivity|].
    intros Hle. apply Qle_bool_iff in Hle. congruence.
Qed.

Lemma seekEffect_DInv (r : Display) :
  DBase r ->
  exists w, seekEffect r r = Done w /\ DInv w
    /\ data w = data r /\ isFpsMode w = isFpsMode r.
Proof.
  intros HB.
  destruct (videoRef (dom r)) as [video|] eqn:Hv.
  - destruct (frame_number (data r)) as [fn|] eqn:Hfn.
    + destruct (seekEffect_cases r video fn Hv Hfn) as [Hseek Hnear].
      destruct (Qlt_le_dec (binary64 seekTolerance)
                  (timeDifference (currentTime video)
                                  (inject_Z fn / videoFPS)))
        as [Hfar | Hle].
      * rewrite (Hseek Hfar). eexists. split; [reflexivity|].
        destruct HB as [Hpend Hidle Hlog].
        unfold seekTo. cbn. rewrite Hv.
        split; [split; [constructor|]|split]; cbn; trivial.
        -- intros p [= <-]. exists fn. eexists.
           split; [exact Hfn|]. split; [reflexivity|]. reflexivity.
        -- discriminate.
        -- intros t Ht. injection Ht as <-. intros fn' Hfn'.
           rewrite Hfn in Hfn'. injection Hfn' as <-.
           apply same_frame_aligned. reflexivity.
      * rewrite (Hnear Hle).
        assert (HI : DInv r).
        { split; [exact HB|]. unfold mediaTime. rewrite Hv. cbn.
          intros t [= <-] fn' Hfn'. rewrite Hfn in Hfn'.
          injection Hfn' as <-. exact Hle. }
        destruct (callUpdateDisplay_DInv r r HI eq_refl) as (w & -> & HI' & Hd & Hm & _).
        { intros p Hp. now left. }
        exists w. repeat split; trivial; apply HI'.
    + unfold seekEffect. rewrite Hv, Hfn. exists r.
      split; [reflexivity|]. split; [|split; reflexivity].
      split; [exact HB|]. intros t _ fn Hfn'. congruence.
  - unfold seekEffect. rewrite Hv. exists r.
    split; [reflexivity|]. split; [|split; reflexivity].
    split; [exact HB|]. unfold mediaTime. rewrite Hv. discriminate.
Qed.

Lemma notSeekingEffect_DInv (r w : Display) :
  DInv w -> data r = data w ->
  (isSeeking r = false -> pendingData r = None) ->
  exists w', notSeekingEffect r w = Done w' /\ DInv w'
    /\ data w' = data w /\ isFpsMode w' = isFpsMode w
    /\ isSeeking w' = isSeeking w /\ pendingData w' = pendingData w
    /\ exists rest, projections w' = projections w ++ rest.
Proof.
  intros HI Hd Hidle. unfold notSeekingEffect.
  destruct (isSeeking r) eqn:Hs; cbn [negb andb].
  - exists w. repeat split; trivial; try apply HI.
    exists []. now rewrite app_nil_r.
  - destruct (videoReady (dom w)).
    + destruct (callUpdateDisplay_DInv r w HI Hd)
        as (w' & -> & HI' & H1 & H2 & H3 & H4 & _ & _ & _ & H8).
      { intros p Hp. rewrite (Hidle eq_refl) in Hp. discriminate. }
      exists w'. repeat split; trivial; try apply HI'.
      eexists. exact H8.
    + exists w. repeat split; trivial; try apply HI.
      exists []. now rewrite app_nil_r.
Qed.

Lemma commitProps_DInv (r : Display) :
  DBase r ->
  exists w, commitProps r = Done w /\ DInv w
    /\ data w = data r /\ isFpsMode w = isFpsMode r.
Proof.
  intros HB. unfold commitProps.
  destruct (seekEffect_DInv r HB) as (w1 & -> & HI1 & Hd1 & Hm1).
  cbn [bind].
  destruct (notSeekingEffect_DInv r w1 HI1 (eq_sym Hd1) (base_idle r HB))
    as (w2 & -> & HI2 & Hd2 & Hm2 & _).
  exists w2. repeat split; try apply HI2; congruence.
Qed.

Lemma commitState_DInv (r w : Display) :
  DInv w ->
  exists w', commitState r w = Done w' /\ DInv w'
    /\ data w' = data w /\ isFpsMode w' = isFpsMode w
    /\ isSeeking w' = isSeeking w /\ pendingData w' = pendingData w
    /\ exists rest, projections w' = projections w ++ rest.
Proof.
  intros HI. unfold commitState.
  destruct (Bool.eqb (isSeeking r) (isSeeking w)).
  - exists w. repeat split; trivial; try apply HI.
    exists []. now rewrite app_nil_r.
  - apply notSeekingEffect_DInv; trivial. apply HI.
Qed.

Lemma relayout_mediaTime (l : Layout) (d : Dom) :
  mediaTime (relayout l d) = mediaTime d.
Proof. unfold mediaTime, relayout. cbn. now destruct (videoRef d). Qed.

Lemma set_readyState_mediaTime (rs : Z) (d : Dom) :
  mediaTime (set_readyState rs d) = mediaTime d.
Proof. unfold mediaTime, set_readyState. cbn. now destruct (videoRef d). Qed.

Lemma set_dom_DInv (s : Display) (d : Dom) :
  DInv s -> mediaTime d = mediaTime (dom s) -> DInv (set_dom d s).
Proof.
  intros [[Hp Hi Hl] Hal] Hm. repeat split; cbn; trivial.
  - intros p Hpe. rewrite Hm. now apply Hp.
  - rewrite Hm. exact Hal.
Qed.

(** The synchronizer never faults, and the invariant holds between
    events. *)
Theorem step_DInv (s : Display) (e : Event) :
  DInv s -> exists s', step s e = Done s' /\ DInv s'.
Proof.
  intros HI. pose proof HI as [[Hp Hi Hl] Hal].
  destruct e as [d | | | | l | l | rs]; cbn [step].
  - destruct (commitProps_DInv
                (mkDisplay d (isFpsMode s) (isSeeking s) (pendingData s)
                   (dom s) (seekCommands s) (projections s)))
      as (w & -> & HIw & _); [now constructor|].
    cbn [bind].
    destruct (commitState_DInv
                (mkDisplay d (isFpsMode s) (isSeeking s) (pendingData s)
                   (dom s) (seekCommands s) (projections s)) w HIw)
      as (w' & -> & HI' & _).
    now exists w'.
  - destruct (commitProps_DInv
                (mkDisplay (data s) (negb (isFpsMode s)) (isSeeking s)
                   (pendingData s) (dom s) (seekCommands s) (projections s)))
      as (w & -> & HIw & _); [now constructor|].
    cbn [bind].
    destruct (commitState_DInv
                (mkDisplay (data s) (negb (isFpsMode s)) (isSeeking s)
                   (pendingData s) (dom s) (seekCommands s) (projections s))
                w HIw)
      as (w' & -> & HI' & _).
    now exists w'.
  - destruct (commitState_DInv s (handleSeeking s)) as (w' & -> & HI' & _).
    + repeat split; cbn; trivial. discriminate.
    + now exists w'.
  - unfold handleSeeked.
    destruct (pendingData s) as [p|] eqn:Hpe.
    + destruct (callUpdateDisplay_DInv s
                  (setPendingData None (setIsSeeking false s)))
        as (w & -> & HIw & _).
      * repeat split; cbn; trivial. discriminate.
      * reflexivity.
      * intros p' Hp'. right. apply Hp. congruence.
      * cbn [bind].
        destruct (commitState_DInv s w HIw) as (w' & -> & HI' & _).
        now exists w'.
    + cbn [bind].
      destruct (commitState_DInv s (setIsSeeking false s)) as (w' & -> & HI' & _).
      * repeat split; cbn; trivial. congruence.
      * now exists w'.
  - destruct (callUpdateDisplay_DInv (set_dom (relayout l (dom s)) s)
                (set_dom (relayout l (dom s)) s))
      as (w & -> & HIw & _).
    + apply set_dom_DInv; trivial. apply relayout_mediaTime.
    + reflexivity.
    + intros p' Hp'. now left.
    + now exists w.
  - unfold handleVideoLoad.
    destruct (callUpdateDisplay_DInv (set_dom (relayout l (dom s)) s)
                (set_dom (relayout l (dom s)) s))
      as (w & -> & HIw & _).
    + apply set_dom_DInv; trivial. apply relayout_mediaTime.
    + reflexivity.
    + intros p' Hp'. now left.
    + now exists w.
  - eexists. split; [reflexivity|].
    apply set_dom_DInv; trivial. apply set_readyState_mediaTime.
Qed.

Lemma run_DInv (es : list Event) : forall s,
  DInv s -> exists s', run s es = Done s' /\ DInv s'.
Proof.
  induction es as [|e es IH]; intros s HI; cbn [run].
  - now exists s.
  - destruct (step_DInv s e HI) as (s1 & -> & HI1). cbn [bind].
    now apply IH.
Qed.

Lemma mount_DInv (sample : Sample) (fps : bool) (d : Dom) :
  exists s, mount sample fps d = Done s /\ DInv s.
Proof.
  unfold mount.
  destruct (commitProps_DInv (mkDisplay sample fps false None d [] []))
    as (w & -> & HIw & _).
  - constructor; cbn; trivial. discriminate.
  - cbn [bind].
    destruct (commitState_DInv (mkDisplay sample fps false None d [] []) w HIw)
      as (w' & -> & HI' & _).
    now exists w'.
Qed.


Lemma app_one_neq {A : Type} (l : list A) (a : A) : l ++ [a] <> l.
Proof.
  intros H. apply (f_equal (@List.length A)) in H.
  rewrite length_app in H. cbn in H. lia.
Qed.

(** Claim C2, amended.  With the video mounted and a sample that has a
    frame number, the seek effect issues a seek (sets [isSeeking],
    remembers the sample in [pendingData], assigns [frame_number / 10] to
    the media position) exactly when the difference between the media
    position and [frame_number / 10], computed as the program computes it
    in binary64, is greater than the double 0.05; otherwise it issues no
    seek, leaves the seek state alone and calls [updateDisplay] at once.
    For positions and frame times up to a million seconds the computed
    difference is within half a nanosecond of the exact one: a seek is
    issued whenever the exact difference is at least 0.05 s plus a
    nanosecond, and none whenever it is at most 0.05 s minus a
    nanosecond. *)
Theorem C2_seek_iff_beyond_tolerance (s : Display) (video : Video) (fn : Z) :
  videoRef (dom s) = Some video -> frame_number (data s) = Some fn ->
  let targetTime := inject_Z fn / 10 in
  let timeDiff := timeDifference (currentTime video) targetTime in
  exists w,
    seekEffect s s = Done w
    /\ (binary64 0.05 < timeDiff ->
        isSeeking w = true
        /\ pendingData w = Some (data s)
        /\ mediaTime (dom w) = Some targetTime
        /\ seekCommands w = seekCommands s ++ [targetTime]
        /\ projections w = projections s)
    /\ (timeDiff <= binary64 0.05 ->
        seekCommands w = seekCommands s
        /\ isSeeking w = isSeeking s
        /\ pendingData w = pendingData s
        /\ mediaTime (dom w) = Some (currentTime video)
        /\ updateDisplay (data s) (isFpsMode s) (dom s) = Done (dom w)
        /\ projections w
           = projections s
             ++ [mkProjection (data s) (isSeeking s) (pendingData s)
                              (Some (currentTime video))])
    /\ (seekCommands w <> seekCommands s <-> binary64 0.05 < timeDiff)
    /\ (Qabs (currentTime video) <= 1000000 -> Qabs targetTime <= 1000000 ->
        (0.05 + (1 # 1000000000) <= Qabs (currentTime video - targetTime) ->
         binary64 0.05 < timeDiff)
        /\ (Qabs (currentTime video - targetTime) <= 0.05 - (1 # 1000000000) ->
            timeDiff <= binary64 0.05)).
Proof.
  intros Hv Hfn targetTime timeDiff.
  destruct (seekEffect_cases s video fn Hv Hfn) as [Hseek Hnear].
  fold targetTime in Hseek, Hnear. fold timeDiff in Hseek, Hnear.
  change seekTolerance with 0.05 in Hseek, Hnear.
  assert (Hmt : mediaTime (dom s) = Some (currentTime video))
    by (unfold mediaTime; now rewrite Hv).
  assert (Hexact :
    Qabs (currentTime video) <= 1000000 -> Qabs targetTime <= 1000000 ->
    (0.05 + (1 # 1000000000) <= Qabs (currentTime video - targetTime) ->
     binary64 0.05 < timeDiff)
    /\ (Qabs (currentTime video - targetTime) <= 0.05 - (1 # 1000000000) ->
        timeDiff <= binary64 0.05)).
  { intros Ht HT.
    pose proof (timeDifference_exact _ _ Ht HT) as He.
    fold timeDiff in He. apply Qabs_Qle_condition in He.
    destruct tolerance_bounds as [Hlo Hhi].
    change seekTolerance with 0.05 in Hlo, Hhi.
    split; intros H; lra. }
  destruct (Qlt_le_dec (binary64 0.05) timeDiff) as [Hfar | Hle].
  - rewrite (Hseek Hfar). eexists. split; [reflexivity|].
    unfold seekTo. cbn. rewrite Hv. cbn.
    split; [|split; [|split]].
    + intros _. repeat split.
    + intros Hle. exfalso. apply (Qlt_not_le _ _ Hfar Hle).
    + split; [now intros _ | intros _; apply app_one_neq].
    + exact Hexact.
  - rewrite (Hnear Hle).
    destruct (callUpdateDisplay_spec s s) as (d' & Hd & Hm & _ & ->).
    eexists. split; [reflexivity|]. cbn.
    split; [|split; [|split]].
    + intros Hfar. exfalso. apply (Qlt_not_le _ _ Hfar Hle).
    + intros _. rewrite Hm, Hmt. repeat split; trivial.
    + split; [intros H; now contradiction H |].
      intros Hfar. exfalso. apply (Qlt_not_le _ _ Hfar Hle).
    + exact Hexact.
Qed.

(** Claim C6, amended.  From the first render on, through any sequence of
    events, the component never faults, and every call of [updateDisplay]
    made while [isSeeking] was true projected a sample for which no seek
    was due where the media stood; with a sample pending the media stood
    at the time of the pending sample's frame, and the projected sample
    had that frame number (for frame numbers up to [frameLimit], beyond
    which the times of different frames are not told apart): it was the
    pending sample or a later sample of the same frame, never a sample of
    another frame.  On the seeked signal [isSeeking] and [pendingData] are
    cleared, and if a sample was pending [updateDisplay] is called with the
    current sample. *)
Theorem C6_no_projection_ahead_of_seek
    (sample : Sample) (fps : bool) (d : Dom) (es : list Event) :
  exists s0 s,
    mount sample fps d = Done s0
    /\ run s0 es = Done s
    /\ (forall e, In e (projections s) -> projSeeking e = true ->
        (forall t, projMediaTime e = Some t -> aligned (projData e) t)
        /\ (forall p, projPending e = Some p ->
            exists fp t,
              frame_number p = Some fp
              /\ projMediaTime e = Some t
              /\ t == inject_Z fp / 10
              /\ forall fn, frame_number (projData e) = Some fn ->
                   (Z.abs fn <= frameLimit)%Z -> (Z.abs fp <= frameLimit)%Z ->
                   fn = fp))
    /\ exists s',
         step s SeekedSignal = Done s'
         /\ isSeeking s' = false
         /\ pendingData s' = None
         /\ (forall p, pendingData s = Some p ->
             exists rest,
               projections s'
               = projections s
                 ++ mkProjection (data s) (isSeeking s) (Some p)
                                 (mediaTime (dom s)) :: rest).
Proof.
  destruct (mount_DInv sample fps d) as (s0 & Hm & HI0).
  destruct (run_DInv es s0 HI0) as (s & Hr & HI).
  exists s0, s. split; [exact Hm|]. split; [exact Hr|]. split.
  - intros e He _. destruct HI as [[_ _ Hlog] _].
    rewrite Forall_forall in Hlog. destruct (Hlog e He) as [Hal Hpe].
    split; [exact Hal|]. intros p Hp.
    destruct (Hpe p Hp) as (fp & t & Hfp & Ht & Heq).
    exists fp, t. split; [exact Hfp|]. split; [exact Ht|].
    split; [exact Heq|]. intros fn Hfn Hbn Hbp. symmetry.
    exact (frames_close fp fn t Heq (Hal t Ht fn Hfn) Hbp Hbn).
  - pose proof HI as [[Hp Hi Hl] Hal].
    cbn [step]. unfold handleSeeked.
    destruct (pendingData s) as [p|] eqn:Hpe.
    + destruct (callUpdateDisplay_DInv s
                  (setPendingData None (setIsSeeking false s)))
        as (w & -> & HIw & _ & _ & Hs & Hpn & _ & _ & _ & Hpr).
      * repeat split; cbn; trivial. discriminate.
      * reflexivity.
      * intros p' Hp'. right. apply Hp. congruence.
      * cbn [bind].
        destruct (commitState_DInv s w HIw)
          as (w' & -> & _ & _ & _ & Hs' & Hpn' & rest & Hrest).
        exists w'. split; [reflexivity|].
        split; [now rewrite Hs', Hs|]. split; [now rewrite Hpn', Hpn|].
        intros p0 [= <-]. exists rest.
        rewrite Hrest, Hpr, Hpe. cbn. now rewrite <- app_assoc.
    + cbn [bind].
      destruct (commitState_DInv s (setIsSeeking false s))
        as (w' & -> & _ & _ & _ & Hs' & Hpn' & _).
      * repeat split; cbn; trivial. congruence.
      * exists w'. split; [reflexivity|].
        split; [now rewrite Hs'|]. split; [now rewrite Hpn'|].
        intros p0 H0. discriminate.
Qed.

End SynchronizerFacts.

Section DisplayExamples.
Import Display Examples.
Open Scope Q_scope.

(** Claim C2 as stated fails at the tolerance: with the media at 0.75 s
    and a sample of frame 7 the exact difference is 0.05 s, not more, and
    the seek effect seeks: the double of 7 / 10 is below 0.7, and the
    difference of the doubles exceeds the double 0.05. *)
Lemma C2_counterexample :
  ~ seeks_iff_beyond_exact_tolerance displayAtThreeQuarters.
Proof.
  intros H.
  destruct (H (mkVideo 0 0 0 0 0 0.75 None None) 7%Z eq_refl eq_refl)
    as (w & Hw & Hiff).
  vm_compute in Hw. injection Hw as <-.
  assert (Hlt : 0.05 < Qabs (0.75 - inject_Z 7 / 10)).
  { apply Hiff. cbn. discriminate. }
  vm_compute in Hlt. discriminate.
Qed.

(** Claim C6 as stated fails: while the media seeks toward
    [sampleAtFrame7], the later sample of the same frame is projected. *)
Lemma C6_counterexample :
  exists s0 s,
    mount sampleAtFrame7 false loadedDom = Done s0
    /\ run s0 [NewSample sampleAtFrame7Later] = Done s
    /\ isSeeking s = true
    /\ pendingData s = Some sampleAtFrame7
    /\ ~ projects_only_the_sought_sample s.
Proof.
  eexists. eexists. split; [vm_compute; reflexivity|].
  split; [vm_compute; reflexivity|].
  split; [reflexivity|]. split; [reflexivity|].
  intros H.
  specialize (H (mkProjection sampleAtFrame7Later true (Some sampleAtFrame7)
                              (Some (inject_Z 7 / 10)))
                sampleAtFrame7).
  cbn in H. discriminate H; auto.
Qed.

Lemma C2_witness :
  (exists w,
      seekEffect displayAtFrame7 displayAtFrame7 = Done w
      /\ isSeeking w = true
      /\ pendingData w = Some sampleAtFrame7
      /\ seekCommands w = [inject_Z 7 / 10])
  /\ (exists w,
         seekEffect displayAtFrame0 displayAtFrame0 = Done w
         /\ seekCommands w = []
         /\ isSeeking w = false
         /\ List.length (projections w) = 1%nat).
Proof.
  split.
  - destruct (C2_seek_iff_beyond_tolerance displayAtFrame7
                (mkVideo 0 0 0 0 0 0 None None) 7 eq_refl eq_refl)
      as (w & Hw & Hfar & _).
    exists w. split; [exact Hw|].
    destruct Hfar as (H1 & H2 & _ & H4 & _); [vm_compute; reflexivity|].
    repeat split; assumption.
  - destruct (C2_seek_iff_beyond_tolerance displayAtFrame0
                (mkVideo 0 0 0 0 0 0 None None) 0 eq_refl eq_refl)
      as (w & Hw & _ & Hnear & _).
    exists w. split; [exact Hw|].
    destruct Hnear as (H1 & H2 & _ & _ & _ & H6); [vm_compute; discriminate|].
    rewrite H1, H2, H6. repeat split.
Defined.

Lemma C9_witness :
  exists d' cursor',
    updateDisplay sampleAt800x600 false loadedDom = Done d'
    /\ cursorRef d' = Some cursor'
    /\ cursorLeft cursor'
       = Some (Px ((800 / 2) * (500 / 1000) - markerHalfSize))
    /\ cursorTop cursor'
       = Some (Px ((600 / 2) * (500 / 1000) - markerHalfSize)).
Proof.
  destruct (C9_direct_mode_geometry sampleAt800x600 loadedDom
              (mkCursor None None None None)
              (mkVideo 1000 1000 500 500 0 0 None None)
              (mkWrapper 800 600) eq_refl eq_refl eq_refl)
    as [(d' & cursor' & H1 & H2 & H3 & H4 & _) _].
  - vm_compute. discriminate.
  - vm_compute. discriminate.
  - exists d', cursor'. repeat split; assumption.
Defined.

Lemma C8_witness :
  updateDisplay sampleAt800x600 false unloadedDom = Done unloadedDom
  /\ exists s',
       step displayAtFrame0 (LoadedMetadata halfSizeLayout) = Done s'
       /\ updateDisplay sampleAt800x600 false loadedDom = Done (dom s').
Proof.
  destruct (C8_unloaded_media_is_skipped sampleAt800x600 false unloadedDom
              (mkVideo 0 0 0 0 0 0 None None) displayAtFrame0 halfSizeLayout
              eq_refl)
    as (H1 & _ & s' & H3 & H4 & _).
  - left. reflexivity.
  - split; [exact H1|]. exists s'. split; [exact H3 | exact H4].
Defined.

End DisplayExamples.

(** ** The playback scheduler, continued *)

Section SchedulerMore.

Import Scheduler Playout.
Open Scope Z_scope.

Variable timelineData : list Sample.
Local Abbreviation N := (dataLength timelineData).

(** The timeout that advances to the last index stops the scheduler. *)
Lemma timeout_at_end_stops (v : Viewer) (h : positive) (t : Timer) :
  Inv timelineData v -> pendingTimeout h v = Some t ->
  N - 1 <= cbNextIndex t ->
  exists v', step timelineData v (TimerFires h) = Done v'
    /\ Inv timelineData v'
    /\ isPlaying v' = false
    /\ currentIndex v' = cbNextIndex t
    /\ playbackSpeed v' = playbackSpeed v
    /\ timeouts v' = [].
Proof.
  intros HI Hf Hlast. cbn [step]. rewrite Hf.
  destruct (timerCallback_PreInv timelineData h t v HI Hf) as (u & Hcb & HP).
  pose proof Hcb as Hcb'. unfold timerCallback in Hcb'.
  rewrite advanceFrame_stops in Hcb' by (cbn; lia).
  injection Hcb' as Hu. rewrite Hcb. cbn [bind].
  destruct (rerender_Inv timelineData u HP)
    as (v' & -> & HI' & Hci & Hsp & Hstop).
  assert (Hip' : isPlaying v' = false) by (apply Hstop; now subst u).
  pose proof (Inv_timers timelineData v' HI') as Htm. rewrite Hip' in Htm.
  exists v'. split; [reflexivity|]. split; [exact HI'|].
  split; [exact Hip'|]. split; [rewrite Hci; now subst u|].
  split; [rewrite Hsp; now subst u|]. tauto.
Qed.

Lemma fresh_timer_delay_ok (id : positive) (j : Z) (sp : number)
    (cur nxt : Sample) :
  dataAt timelineData j = Some cur ->
  dataAt timelineData (j + 1) = Some nxt ->
  delay_ok timelineData
    (mkTimer id (((timestamp nxt - timestamp cur) * 1000) / sp)%Q (j + 1) sp).
Proof.
  intros Hc Hn. exists cur, nxt. cbn.
  replace (j + 1 - 1) with j by lia. repeat split; trivial.
Qed.

(** What the effects leave pending: what was pending, or nothing, or one
    fresh timeout with the delay of the next sample. *)
Lemma rerender_timeouts (u : Viewer) :
  PreInv timelineData u ->
  exists v', rerender timelineData u = Done v' /\ Inv timelineData v'
    /\ (timeouts v' = timeouts u
        \/ timeouts v' = []
        \/ exists t, timeouts v' = [t] /\ delay_ok timelineData t).
Proof.
  intros HP.
  destruct (rerender_Inv timelineData u HP) as (v' & Hre & HI' & _).
  exists v'. split; [exact Hre|]. split; [exact HI'|].
  destruct (playbackChanged u) eqn:Hpc.
  - destruct (isPlaying u) eqn:Hip.
    + destruct (Z_lt_le_dec (currentIndex u) (N - 1)) as [Hlt | Hge].
      * destruct (rerender_play timelineData u HP Hpc Hip Hlt)
          as (cur & nxt & Hc & Hn & Hre').
        rewrite Hre' in Hre. injection Hre as <-.
        right. right. eexists. split; [reflexivity|].
        now apply fresh_timer_delay_ok.
      * rewrite (rerender_end timelineData u HP Hpc Hip Hge) in Hre.
        injection Hre as <-. right. left. reflexivity.
    + rewrite (rerender_stop timelineData u HP Hpc Hip) in Hre.
      injection Hre as <-. right. left. reflexivity.
  - destruct (indexChanged u) eqn:Hic.
    + rewrite (rerender_index timelineData u Hpc Hic) in Hre.
      injection Hre as <-. left. reflexivity.
    + assert (Hq : quiescent u = true)
        by (unfold quiescent; now rewrite Hpc, Hic).
      unfold rerender in Hre.
      rewrite (flush_quiescent timelineData _ _ Hq) in Hre.
      injection Hre as <-. left. reflexivity.
Qed.

Lemma step_timeouts (v : Viewer) (e : Event) :
  Inv timelineData v -> deliverable timelineData e ->
  exists v', step timelineData v e = Done v' /\ Inv timelineData v'
    /\ (timeouts v' = timeouts v
        \/ timeouts v' = []
        \/ exists t, timeouts v' = [t] /\ delay_ok timelineData t).
Proof.
  intros HI He. destruct e as [ | k | i | s | h]; cbn [step].
  - destruct (rerender_timeouts _ (handlePlayPause_PreInv timelineData v HI))
      as (v' & -> & HI' & Ht).
    exists v'. split; [reflexivity|]. split; [exact HI'|].
    unfold handlePlayPause in Ht.
    now destruct (currentIndex v >=? N - 1).
  - destruct (rerender_timeouts _ (handleKeyPress_PreInv timelineData k v HI))
      as (v' & -> & HI' & Ht).
    exists v'. split; [reflexivity|]. split; [exact HI'|]. now destruct k.
  - destruct (rerender_timeouts _
                (handleSliderChange_PreInv timelineData i v HI He))
      as (v' & -> & HI' & Ht).
    now exists v'.
  - destruct (rerender_timeouts _
                (handleSpeedChange_PreInv timelineData s v HI He))
      as (v' & -> & HI' & Ht).
    now exists v'.
  - destruct (pendingTimeout h v) as [t|] eqn:Hf.
    + destruct (Z_lt_le_dec (cbNextIndex t) (N - 1)) as [Hlt | Hge].
      * destruct (timeout_reschedules timelineData v h t HI Hf Hlt)
          as (cur & nxt & v' & Hc & Hn & Hst & _ & _ & Hts).
        destruct (step_Inv timelineData v (TimerFires h) HI I)
          as (v'' & Hst' & HI').
        rewrite Hst in Hst'. injection Hst' as <-.
        cbn [step] in Hst. rewrite Hf in Hst.
        exists v'. split; [exact Hst|]. split; [exact HI'|].
        right. right. eexists. split; [exact Hts|].
        now apply fresh_timer_delay_ok.
      * destruct (timeout_at_end_stops v h t HI Hf Hge)
          as (v' & Hst & HI' & _ & _ & _ & Hts).
        cbn [step] in Hst. rewrite Hf in Hst.
        exists v'. split; [exact Hst|]. split; [exact HI'|]. now right; left.
    + exists v. split; [reflexivity|]. split; [exact HI|]. now left.
Qed.

(** Property X1 (TimelineViewerVideo, the playback effect and its cleanup).
    After any sequence of events on a recording with at least one sample:
    while the viewer plays, exactly one timeout is pending, it is the one
    [playIntervalRef] holds, it advances to an index of the recording, and
    its closure carries the current speed; while the viewer is stopped,
    nothing is pending, the ref is empty, and a timeout that fires late
    changes nothing. *)
Theorem one_pending_timeout (es : list Event) :
  1 <= N -> Forall (deliverable timelineData) es ->
  exists v, run timelineData mount es = Done v
    /\ (isPlaying v = true ->
        exists t, timeouts v = [t]
                  /\ playIntervalRef v = Some (timerId t)
                  /\ 1 <= cbNextIndex t <= N - 1
                  /\ (cbPlaybackSpeed t == playbackSpeed v)%Q)
    /\ (isPlaying v = false ->
        timeouts v = [] /\ playIntervalRef v = None
        /\ forall h, step timelineData v (TimerFires h) = Done v).
Proof.
  intros HN Hes.
  destruct (run_Inv timelineData es mount (mount_Inv timelineData HN) Hes)
    as (v & Hrun & HI).
  exists v. split; [exact Hrun|].
  pose proof (Inv_timers timelineData v HI) as Htm.
  split; intros Hip; rewrite Hip in Htm.
  - destruct Htm as (t & H1 & H2 & H3 & H4 & _).
    exists t. repeat split; trivial; lia.
  - destruct Htm as [H1 H2]. repeat split; trivial.
    intros h. cbn [step]. unfold pendingTimeout. now rewrite H1.
Qed.

Lemma run_delay_ok (es : list Event) : forall v,
  Inv timelineData v -> Forall (deliverable timelineData) es ->
  Forall (delay_ok timelineData) (timeouts v) ->
  exists v', run timelineData v es = Done v' /\ Inv timelineData v'
    /\ Forall (delay_ok timelineData) (timeouts v').
Proof.
  induction es as [|e es IH]; intros v HI Hes Hd; cbn [run].
  - now exists v.
  - inversion Hes as [|? ? He Hes']; subst.
    destruct (step_timeouts v e HI He) as (v1 & -> & HI1 & Ht).
    cbn [bind]. apply IH; trivial.
    destruct Ht as [-> | [-> | (t & -> & Hdt)]]; trivial.
    now repeat constructor.
Qed.

(** Property X2 (TimelineViewerVideo, [advanceFrame]).  After any sequence
    of events, every pending timeout was set for the gap between the sample
    it advances to and the sample before it, divided by the speed the
    viewer has now: no timeout computed for an older speed or for another
    pair of samples survives. *)
Theorem pending_delay_is_sample_delta (es : list Event) :
  1 <= N -> Forall (deliverable timelineData) es ->
  exists v, run timelineData mount es = Done v
    /\ forall t, In t (timeouts v) ->
       exists cur nxt,
         dataAt timelineData (cbNextIndex t - 1) = Some cur
         /\ dataAt timelineData (cbNextIndex t) = Some nxt
         /\ (timerDelay t / 1000
             == (timestamp nxt - timestamp cur) / playbackSpeed v)%Q.
Proof.
  intros HN Hes.
  destruct (run_delay_ok es mount (mount_Inv timelineData HN) Hes)
    as (v & Hrun & HI & Hd); [constructor|].
  exists v. split; [exact Hrun|]. intros t Ht.
  rewrite Forall_forall in Hd. destruct (Hd t Ht) as (cur & nxt & Hc & Hn & Hq).
  exists cur, nxt. split; [exact Hc|]. split; [exact Hn|].
  pose proof (Inv_timers timelineData v HI) as Htm.
  destruct (isPlaying v).
  - destruct Htm as (t0 & H1 & _ & _ & Hsp & _).
    rewrite H1 in Ht. destruct Ht as [<- | []].
    pose proof HI as [[_ Hpos _ _] _].
    rewrite Hq, Hsp. field. intros E. rewrite E in Hpos.
    now apply Qlt_irrefl in Hpos.
  - destruct Htm as [H1 _]. rewrite H1 in Ht. destruct Ht.
Qed.

Lemma pending_single (v : Viewer) (t : Timer) :
  timeouts v = [t] -> pendingTimeout (timerId t) v = Some t.
Proof.
  intros H. unfold pendingTimeout. rewrite H. cbn.
  now rewrite Pos.eqb_refl.
Qed.

Lemma timer_fire_speed (v v' : Viewer) (h : positive) :
  Inv timelineData v -> step timelineData v (TimerFires h) = Done v' ->
  playbackSpeed v' = playbackSpeed v.
Proof.
  intros HI Hst. cbn [step] in Hst.
  destruct (pendingTimeout h v) as [t|] eqn:Hf;
    [|now injection Hst as <-].
  destruct (timerCallback_PreInv timelineData h t v HI Hf) as (u & Hcb & HP).
  rewrite Hcb in Hst. cbn [bind] in Hst.
  destruct (rerender_Inv timelineData u HP) as (w & Hre & _ & _ & Hsp & _).
  rewrite Hre in Hst. injection Hst as <-. rewrite Hsp.
  unfold timerCallback, advanceFrame in Hcb. cbn in Hcb.
  destruct (cbNextIndex t >=? N - 1); [now injection Hcb as <-|].
  destruct (dataAt timelineData (cbNextIndex t + 1)); [|discriminate].
  destruct (dataAt timelineData (cbNextIndex t)); [|discriminate].
  cbn in Hcb.
  destruct (num_div _ (cbPlaybackSpeed t)); [|discriminate].
  cbn in Hcb. now injection Hcb as <-.
Qed.

(** Left alone, a playing scheduler shows every index up to the last one,
    in order, then stops; the waits add up to the time between the sample
    before the first advancement and the last sample, over the speed. *)
Lemma playOut_to_end (k : nat) : forall (v : Viewer) (t : Timer) (prev : Sample),
  Inv timelineData v -> timeouts v = [t] ->
  k = Z.to_nat (N - cbNextIndex t) ->
  dataAt timelineData (cbNextIndex t - 1) = Some prev ->
  (forall nxt, dataAt timelineData (cbNextIndex t) = Some nxt ->
     (timerDelay t
      == ((timestamp nxt - timestamp prev) * 1000) / cbPlaybackSpeed t)%Q) ->
  exists r last,
    playOut timelineData k v = Done r
    /\ dataAt timelineData (N - 1) = Some last
    /\ currentIndex (final r) = N - 1
    /\ isPlaying (final r) = false
    /\ timeouts (final r) = []
    /\ playbackSpeed (final r) = playbackSpeed v
    /\ (waited r
        == ((timestamp last - timestamp prev) * 1000) / cbPlaybackSpeed t)%Q
    /\ visited r = indicesFrom (cbNextIndex t) k.
Proof.
  induction k as [|k IH]; intros v t prev HI Hts Hk Hprev Hdelay.
  - pose proof (pending_single v t Hts) as Hf.
    destruct (pending_is_scheduled timelineData _ t v HI Hf)
      as (_ & _ & _ & _ & Hrg & _). lia.
  - pose proof (pending_single v t Hts) as Hf.
    destruct (pending_is_scheduled timelineData _ t v HI Hf)
      as (Hip & _ & _ & _ & Hrg & Hsp & _).
    assert (Hnz : ~ (cbPlaybackSpeed t == 0)%Q).
    { destruct HI as [[_ Hpos _ _] _]. rewrite Hsp. intros E.
      rewrite E in Hpos. now apply Qlt_irrefl in Hpos. }
    cbn [playOut]. rewrite Hts.
    destruct (Z_lt_le_dec (cbNextIndex t) (N - 1)) as [Hlt | Hge].
    + destruct (timeout_reschedules timelineData v _ t HI Hf Hlt)
        as (cur & nxt & v' & Hc & Hn & Hst & _ & Hci & Hts').
      destruct (step_Inv timelineData v (TimerFires (timerId t)) HI I)
        as (v'' & Hst' & HI').
      rewrite Hst in Hst'. injection Hst' as <-.
      rewrite Hst. cbn [bind].
      destruct (IH v' _ cur HI' Hts') as (r & last & Hr & Hl & H1 & H2 & H3 & H4 & H5 & H6).
      * cbn. lia.
      * cbn. now replace (cbNextIndex t + 1 - 1) with (cbNextIndex t) by lia.
      * cbn. intros nxt' Hn'. rewrite Hn in Hn'. injection Hn' as <-.
        reflexivity.
      * rewrite Hr. cbn [bind]. eexists. exists last.
        split; [reflexivity|]. cbn [final waited visited].
        split; [exact Hl|]. split; [exact H1|]. split; [exact H2|].
        split; [exact H3|].
        split; [rewrite H4; exact (timer_fire_speed v v' _ HI Hst)|].
        split.
        -- rewrite H5, (Hdelay cur Hc). cbn [cbPlaybackSpeed]. now field.
        -- rewrite H6, Hci. reflexivity.
    + destruct (timeout_at_end_stops v _ t HI Hf Hge)
        as (v' & Hst & HI' & Hip' & Hci & Hsp' & Hts').
      rewrite Hst. cbn [bind].
      assert (Hk0 : k = O) by lia. subst k. cbn [playOut bind].
      destruct (dataAt_defined timelineData (N - 1)) as (last & Hl); [lia|].
      eexists. exists last. split; [reflexivity|]. cbn [final waited visited].
      assert (Hj : cbNextIndex t = N - 1) by lia.
      split; [exact Hl|]. split; [now rewrite Hci|]. split; [exact Hip'|].
      split; [exact Hts'|]. split; [exact Hsp'|]. split.
      * rewrite (Hdelay last) by (now rewrite Hj). ring.
      * now rewrite Hci.
Qed.

(** Property X3 (TimelineViewerVideo, the playback loop).  From any
    reachable stopped state before the last index, one click on play and
    then the timeouts firing in turn visit every following index once, in
    order, and end stopped at the last index with nothing pending; the
    delays waited add up to the time between the first and the last sample
    shown, divided by the speed. *)
Theorem play_runs_to_the_end (es : list Event) :
  1 <= N -> Forall (deliverable timelineData) es ->
  exists v, run timelineData mount es = Done v
    /\ (isPlaying v = false -> currentIndex v < N - 1 ->
        exists v1 r first last,
          dataAt timelineData (currentIndex v) = Some first
          /\ dataAt timelineData (N - 1) = Some last
          /\ step timelineData v ClickPlayPause = Done v1
          /\ playOut timelineData (Z.to_nat (N - 1 - currentIndex v)) v1
             = Done r
          /\ currentIndex (final r) = N - 1
          /\ isPlaying (final r) = false
          /\ timeouts (final r) = []
          /\ visited r
             = indicesFrom (currentIndex v + 1)
                           (Z.to_nat (N - 1 - currentIndex v))
          /\ (waited r / 1000
              == (timestamp last - timestamp first) / playbackSpeed v)%Q).
Proof.
  intros HN Hes.
  destruct (run_Inv timelineData es mount (mount_Inv timelineData HN) Hes)
    as (v & Hrun & HI).
  exists v. split; [exact Hrun|]. intros Hip Hlt.
  destruct (play_waits_sample_delta timelineData v HI Hip Hlt)
    as (first & nxt & v1 & Hc & Hn & Hst & _ & _ & Hts).
  destruct (step_Inv timelineData v ClickPlayPause HI I) as (v1' & Hst' & HI1).
  rewrite Hst in Hst'. injection Hst' as <-.
  destruct (playOut_to_end (Z.to_nat (N - 1 - currentIndex v)) v1 _ first
              HI1 Hts)
    as (r & last & Hr & Hl & H1 & H2 & H3 & _ & H5 & H6).
  - cbn. lia.
  - cbn. now replace (currentIndex v + 1 - 1) with (currentIndex v) by lia.
  - cbn. intros nxt' Hn'. rewrite Hn in Hn'. injection Hn' as <-. reflexivity.
  - exists v1, r, first, last. cbn in H5, H6.
    repeat (split; [assumption|]).
    rewrite H5. field. destruct HI as [[_ Hpos _ _] _]. intros E.
    rewrite E in Hpos. now apply Qlt_irrefl in Hpos.
Qed.

(** Stopping a playing scheduler. *)
Lemma rerender_pause (v : Viewer) :
  Inv timelineData v -> isPlaying v = true ->
  exists v', rerender timelineData (setIsPlaying false v) = Done v'
    /\ isPlaying v' = false
    /\ currentIndex v' = currentIndex v
    /\ playbackSpeed v' = playbackSpeed v
    /\ timeouts v' = [] /\ playIntervalRef v' = None.
Proof.
  intros HI Hip.
  assert (HP : PreInv timelineData (setIsPlaying false v)).
  { pose proof HI as [[Hidx Hsp _ _] _].
    apply (handler_PreInv timelineData v); cbn; trivial. }
  rewrite (rerender_stop timelineData _ HP).
  - eexists. split; [reflexivity|]. cbn. now repeat split.
  - destruct HI as [_ Hq]. destruct (quiescent_deps v Hq) as (_ & Hdp & _).
    unfold playbackChanged. cbn. now rewrite Hdp, Hip.
  - reflexivity.
Qed.

(** Property X4 (TimelineViewerVideo, [handlePlayPause] and the Space
    key).  While the viewer plays, Space, or the play button before the last
    index, stops it where it is: the index and the speed are kept, the
    pending timeout is cleared and the ref emptied. *)
Theorem pause_keeps_position (es : list Event) :
  1 <= N -> Forall (deliverable timelineData) es ->
  exists v, run timelineData mount es = Done v
    /\ (isPlaying v = true ->
        forall e, e = KeyDown Space
                  \/ (e = ClickPlayPause /\ currentIndex v < N - 1) ->
        exists v', step timelineData v e = Done v'
          /\ isPlaying v' = false
          /\ currentIndex v' = currentIndex v
          /\ playbackSpeed v' = playbackSpeed v
          /\ timeouts v' = [] /\ playIntervalRef v' = None).
Proof.
  intros HN Hes.
  destruct (run_Inv timelineData es mount (mount_Inv timelineData HN) Hes)
    as (v & Hrun & HI).
  exists v. split; [exact Hrun|]. intros Hip e [-> | [-> Hlt]]; cbn [step].
  - cbn [handleKeyPress]. rewrite Hip. cbn [negb].
    now apply rerender_pause.
  - unfold handlePlayPause.
    destruct (currentIndex v >=? N - 1) eqn:E.
    + apply Z.geb_le in E. lia.
    + rewrite Hip. cbn [negb]. now apply rerender_pause.
Qed.

(** Property X5 (TimelineViewerVideo, [handleSliderChange]).  In any
    reachable state, playing or not, a slider input moves to the chosen
    index and leaves the viewer stopped at the same speed with nothing
    pending; no timeout can move the index afterwards. *)
Theorem scrub_always_pauses (es : list Event) (i : Z) :
  1 <= N -> Forall (deliverable timelineData) es -> 0 <= i < N ->
  exists v v', run timelineData mount es = Done v
    /\ step timelineData v (SliderInput i) = Done v'
    /\ currentIndex v' = i
    /\ isPlaying v' = false
    /\ playbackSpeed v' = playbackSpeed v
    /\ timeouts v' = []
    /\ forall h, step timelineData v' (TimerFires h) = Done v'.
Proof.
  intros HN Hes Hi.
  destruct (run_Inv timelineData es mount (mount_Inv timelineData HN) Hes)
    as (v & Hrun & HI).
  destruct (slider_scrub_pauses timelineData v i HI Hi)
    as (v' & Hst & H1 & H2 & H3 & H4).
  exists v, v'. repeat (split; [assumption|]). split; [|now split].
  cbn [step] in Hst.
  destruct (rerender_Inv timelineData _
              (handleSliderChange_PreInv timelineData i v HI Hi))
    as (w & Hre & _ & _ & Hsp & _).
  rewrite Hre in Hst. injection Hst as <-. exact Hsp.
Qed.

(** One arrow key, away from its boundary or not. *)
Lemma arrow_step (v : Viewer) (k : Key) (target : Z) :
  Inv timelineData v ->
  (k = ArrowRight /\ target = Z.min (currentIndex v + 1) (N - 1))
  \/ (k = ArrowLeft /\ target = Z.max (currentIndex v - 1) 0) ->
  exists v', step timelineData v (KeyDown k) = Done v'
    /\ Inv timelineData v'
    /\ currentIndex v' = target
    /\ isPlaying v' = isPlaying v
    /\ playbackSpeed v' = playbackSpeed v
    /\ timeouts v' = timeouts v
    /\ playIntervalRef v' = playIntervalRef v.
Proof.
  intros HI Hk. cbn [step].
  destruct (rerender_Inv timelineData _ (handleKeyPress_PreInv timelineData k v HI))
    as (v' & Hre & HI' & Hci & Hsp & _).
  assert (Hpc : playbackChanged (handleKeyPress timelineData k v) = false).
  { destruct HI as [_ Hq]. unfold quiescent in Hq.
    apply andb_true_iff in Hq. destruct Hq as [_ Hq].
    apply negb_true_iff in Hq. destruct Hk as [[-> _] | [-> _]]; exact Hq. }
  exists v'. split; [exact Hre|]. split; [exact HI'|].
  split; [rewrite Hci; destruct Hk as [[-> ->] | [-> ->]]; reflexivity|].
  split; [|split; [rewrite Hsp; destruct Hk as [[-> _] | [-> _]]; reflexivity|]].
  - destruct (indexChanged (handleKeyPress timelineData k v)) eqn:Hic.
    + rewrite (rerender_index timelineData _ Hpc Hic) in Hre.
      injection Hre as <-. destruct Hk as [[-> _] | [-> _]]; reflexivity.
    + assert (Hq : quiescent (handleKeyPress timelineData k v) = true)
        by (unfold quiescent; now rewrite Hpc, Hic).
      unfold rerender in Hre.
      rewrite (flush_quiescent timelineData _ _ Hq) in Hre.
      injection Hre as <-. destruct Hk as [[-> _] | [-> _]]; reflexivity.
  - destruct (indexChanged (handleKeyPress timelineData k v)) eqn:Hic.
    + rewrite (rerender_index timelineData _ Hpc Hic) in Hre.
      injection Hre as <-. destruct Hk as [[-> _] | [-> _]]; now cbn.
    + assert (Hq : quiescent (handleKeyPress timelineData k v) = true)
        by (unfold quiescent; now rewrite Hpc, Hic).
      unfold rerender in Hre.
      rewrite (flush_quiescent timelineData _ _ Hq) in Hre.
      injection Hre as <-. destruct Hk as [[-> _] | [-> _]]; now cbn.
Qed.

(** Property X6 (TimelineViewerVideo, [handleKeyPress]).  Before the last
    index ArrowRight then ArrowLeft is a round trip: the index, the play
    state, the speed and the pending timeouts are what they were.  At the
    last index ArrowRight does nothing, so the pair ends one index earlier
    (at 0 when there is one sample). *)
Theorem arrow_right_then_left (es : list Event) :
  1 <= N -> Forall (deliverable timelineData) es ->
  exists v, run timelineData mount es = Done v
    /\ (currentIndex v < N - 1 ->
        exists v1 v2,
          step timelineData v (KeyDown ArrowRight) = Done v1
          /\ currentIndex v1 = currentIndex v + 1
          /\ step timelineData v1 (KeyDown ArrowLeft) = Done v2
          /\ currentIndex v2 = currentIndex v
          /\ isPlaying v2 = isPlaying v
          /\ playbackSpeed v2 = playbackSpeed v
          /\ timeouts v2 = timeouts v)
    /\ (currentIndex v = N - 1 ->
        exists v1 v2,
          step timelineData v (KeyDown ArrowRight) = Done v1
          /\ step timelineData v1 (KeyDown ArrowLeft) = Done v2
          /\ currentIndex v2 = Z.max (N - 2) 0).
Proof.
  intros HN Hes.
  destruct (run_Inv timelineData es mount (mount_Inv timelineData HN) Hes)
    as (v & Hrun & HI).
  exists v. split; [exact Hrun|].
  pose proof HI as [[Hidx _ _ _] _].
  destruct (arrow_step v ArrowRight _ HI (or_introl (conj eq_refl eq_refl)))
    as (v1 & Hs1 & HI1 & Hc1 & Hp1 & Hsp1 & Ht1 & _).
  destruct (arrow_step v1 ArrowLeft _ HI1 (or_intror (conj eq_refl eq_refl)))
    as (v2 & Hs2 & HI2 & Hc2 & Hp2 & Hsp2 & Ht2 & _).
  split; intros Hb; exists v1, v2.
  - split; [exact Hs1|]. split; [lia|]. split; [exact Hs2|].
    split; [lia|]. split; [congruence|]. split; congruence.
  - split; [exact Hs1|]. split; [exact Hs2|]. lia.
Qed.

(** The delay of a pending timeout, counted in seconds at the speed the
    viewer has. *)
Lemma pending_delay_in_seconds (v : Viewer) (t : Timer) :
  Inv timelineData v -> Forall (delay_ok timelineData) (timeouts v) ->
  In t (timeouts v) ->
  exists cur nxt,
    dataAt timelineData (cbNextIndex t - 1) = Some cur
    /\ dataAt timelineData (cbNextIndex t) = Some nxt
    /\ (timerDelay t / 1000
        == (timestamp nxt - timestamp cur) / playbackSpeed v)%Q.
Proof.
  intros HI Hd Ht.
  rewrite Forall_forall in Hd. destruct (Hd t Ht) as (cur & nxt & Hc & Hn & Hq).
  exists cur, nxt. split; [exact Hc|]. split; [exact Hn|].
  pose proof (Inv_timers timelineData v HI) as Htm.
  destruct (isPlaying v).
  - destruct Htm as (t0 & H1 & _ & _ & Hsp & _).
    rewrite H1 in Ht. destruct Ht as [<- | []].
    pose proof HI as [[_ Hpos _ _] _].
    rewrite Hq, Hsp. field. intros E. rewrite E in Hpos.
    now apply Qlt_irrefl in Hpos.
  - destruct Htm as [H1 _]. rewrite H1 in Ht. destruct Ht.
Qed.

Lemma dataAt_in_range (i : Z) (d : Sample) :
  dataAt timelineData i = Some d -> 0 <= i < N.
Proof.
  unfold dataAt, dataLength. destruct (i <? 0) eqn:E; [discriminate|].
  apply Z.ltb_ge in E. intros H.
  assert (Hn : nth_error timelineData (Z.to_nat i) <> None) by congruence.
  apply nth_error_Some in Hn. lia.
Qed.

(** The slider and the speed control bring the viewer to a chosen index
    and speed, stopped. *)
Lemma set_index_and_speed (v : Viewer) (i : Z) (s : number) :
  Inv timelineData v -> 0 <= i < N -> (0 < s)%Q ->
  exists v2,
    run timelineData v [SliderInput i; SpeedInput s] = Done v2
    /\ Inv timelineData v2
    /\ currentIndex v2 = i /\ playbackSpeed v2 = s /\ isPlaying v2 = false.
Proof.
  intros HI Hi Hs. cbn [run step].
  destruct (rerender_Inv timelineData _
              (handleSliderChange_PreInv timelineData i v HI Hi))
    as (v1 & -> & HI1 & Hc1 & _ & Hp1).
  cbn [bind].
  destruct (rerender_Inv timelineData _
              (handleSpeedChange_PreInv timelineData s v1 HI1 Hs))
    as (v2 & -> & HI2 & Hc2 & Hs2 & Hp2).
  cbn [bind]. exists v2. split; [reflexivity|]. split; [exact HI2|].
  cbn in Hc1, Hp1, Hc2, Hs2, Hp2.
  split; [congruence|]. split; [exact Hs2|]. apply Hp2. now apply Hp1.
Qed.

(** Claim C1.  Take a recording of at least two samples, any state [v0] the
    viewer can be in, an index [i] before the last and a speed [s > 0].
    In [v0] every pending timeout waits for the time between the sample it
    advances to and the sample before it, divided by the speed of [v0].
    Brought to index [i] and speed [s] and started, the scheduler is
    playing with exactly one timeout pending, the one [playIntervalRef]
    holds: it advances to [i + 1] after
    [(samples[i+1].timestamp - samples[i].timestamp) / s] seconds (the
    [setTimeout] argument is that many milliseconds).  At twice the speed
    the wait for the same advancement is half as long.  When the timeout
    fires before the last index the scheduler shows [i + 1] and waits for
    [i + 2], for [(samples[i+2].timestamp - samples[i+1].timestamp) / s]
    seconds. *)
Theorem C1_scheduled_delay (es : list Event) (i : Z) (s : number) :
  2 <= N -> Forall (deliverable timelineData) es ->
  0 <= i < N - 1 -> (0 < s)%Q ->
  exists v0 v cur nxt t,
    run timelineData mount es = Done v0
    /\ (forall t0, In t0 (timeouts v0) ->
        exists c n,
          dataAt timelineData (cbNextIndex t0 - 1) = Some c
          /\ dataAt timelineData (cbNextIndex t0) = Some n
          /\ (timerDelay t0 / 1000
              == (timestamp n - timestamp c) / playbackSpeed v0)%Q)
    /\ run timelineData v0 [SliderInput i; SpeedInput s; ClickPlayPause]
       = Done v
    /\ isPlaying v = true /\ currentIndex v = i /\ playbackSpeed v = s
    /\ dataAt timelineData i = Some cur
    /\ dataAt timelineData (i + 1) = Some nxt
    /\ timeouts v = [t]
    /\ playIntervalRef v = Some (timerId t)
    /\ cbNextIndex t = i + 1
    /\ (timerDelay t / 1000 == (timestamp nxt - timestamp cur) / s)%Q
    /\ (exists v2 t2,
          step timelineData v (SpeedInput (2 * s)%Q) = Done v2
          /\ isPlaying v2 = true /\ currentIndex v2 = i
          /\ timeouts v2 = [t2] /\ cbNextIndex t2 = i + 1
          /\ (timerDelay t2 == timerDelay t / 2)%Q)
    /\ (forall nxt2, dataAt timelineData (i + 2) = Some nxt2 ->
        exists v3 t3,
          step timelineData v (TimerFires (timerId t)) = Done v3
          /\ isPlaying v3 = true /\ currentIndex v3 = i + 1
          /\ timeouts v3 = [t3] /\ cbNextIndex t3 = i + 2
          /\ (timerDelay t3 / 1000
              == (timestamp nxt2 - timestamp nxt) / s)%Q).
Proof.
  intros HN Hes Hi Hs.
  destruct (run_delay_ok es mount (mount_Inv timelineData ltac:(lia)) Hes)
    as (v0 & Hrun & HI0 & Hd0); [constructor|].
  destruct (set_index_and_speed v0 i s HI0 ltac:(lia) Hs)
    as (v2 & Hr2 & HI2 & Hc2 & Hs2 & Hp2).
  destruct (play_waits_sample_delta timelineData v2 HI2 Hp2 ltac:(lia))
    as (cur & nxt & v & Hcur & Hnxt & Hst & Hip & Hci & Hts).
  rewrite Hc2 in Hcur, Hnxt, Hci, Hts. rewrite Hs2 in Hts.
  destruct (step_Inv timelineData v2 ClickPlayPause HI2 I)
    as (v' & Hst' & HI).
  rewrite Hst in Hst'. injection Hst' as <-.
  assert (Hsp : playbackSpeed v = s).
  { cbn [step] in Hst.
    destruct (rerender_Inv timelineData _
                (handlePlayPause_PreInv timelineData v2 HI2))
      as (w & Hw & _ & _ & Hws & _).
    rewrite Hst in Hw. injection Hw as <-. rewrite Hws, <- Hs2.
    unfold handlePlayPause. now destruct (currentIndex v2 >=? N - 1). }
  pose proof (Inv_timers timelineData v HI) as Htm. rewrite Hip in Htm.
  destruct Htm as (t & Ht1 & Href & _).
  assert (Ht : t = mkTimer (nextTimerId v2)
                     (((timestamp nxt - timestamp cur) * 1000) / s)%Q
                     (i + 1) s) by congruence.
  exists v0, v, cur, nxt, t.
  split; [exact Hrun|].
  split; [intros t0 H0; exact (pending_delay_in_seconds v0 t0 HI0 Hd0 H0)|].
  split.
  { change [SliderInput i; SpeedInput s; ClickPlayPause]
      with ([SliderInput i; SpeedInput s] ++ [ClickPlayPause]).
    cbn [run app] in Hr2 |- *.
    destruct (step timelineData v0 (SliderInput i)) as [v1|];
      [|discriminate]. cbn [bind] in Hr2 |- *.
    destruct (step timelineData v1 (SpeedInput s)) as [v1'|];
      [|discriminate]. cbn [bind] in Hr2 |- *.
    injection Hr2 as ->. now rewrite Hst. }
  split; [exact Hip|]. split; [exact Hci|]. split; [exact Hsp|].
  split; [exact Hcur|]. split; [exact Hnxt|]. split; [exact Ht1|].
  split; [exact Href|]. split; [now rewrite Ht|].
  split; [rewrite Ht; cbn [timerDelay]; field; lra|].
  split.
  - assert (Hs2' : (0 < 2 * s)%Q) by lra.
    pose proof (handleSpeedChange_PreInv timelineData (2 * s)%Q v HI Hs2')
      as HP.
    destruct (rerender_play timelineData _ HP)
      as (cur' & nxt' & Hc' & Hn' & Hre).
    + destruct HI as [_ Hq]. destruct (quiescent_deps v Hq) as (_ & _ & Hds).
      unfold playbackChanged. cbn.
      destruct (Qeq_bool (2 * s) (depSpeed v)) eqn:E; [|apply orb_true_r].
      apply Qeq_bool_iff in E. rewrite Hds, Hsp in E. lra.
    + exact Hip.
    + cbn. lia.
    + cbn in Hc', Hn', Hre. rewrite Hci in Hc', Hn', Hre.
      rewrite Hcur in Hc'. rewrite Hnxt in Hn'.
      injection Hc' as <-. injection Hn' as <-.
      eexists. eexists. cbn [step]. split; [exact Hre|].
      cbn. split; [exact Hip|]. split; [reflexivity|].
      split; [reflexivity|]. split; [reflexivity|].
      rewrite Ht. cbn [timerDelay]. field. lra.
  - intros nxt2 Hn2.
    pose proof (dataAt_in_range _ _ Hn2) as Hr.
    destruct (timeout_reschedules timelineData v (timerId t) t HI
                (pending_single v t Ht1))
      as (c3 & n3 & v3 & Hc3 & Hn3 & Hst3 & Hip3 & Hci3 & Hts3).
    { rewrite Ht. cbn. lia. }
    rewrite Ht in Hc3, Hn3, Hci3, Hts3. cbn in Hc3, Hn3, Hci3, Hts3.
    replace (i + 1 + 1) with (i + 2) in Hn3, Hts3 by lia.
    rewrite Hnxt in Hc3. rewrite Hn2 in Hn3.
    injection Hc3 as <-. injection Hn3 as <-.
    exists v3. eexists. split; [exact Hst3|]. split; [exact Hip3|].
    split; [exact Hci3|]. split; [exact Hts3|]. split; [reflexivity|].
    cbn [timerDelay]. field. lra.
Qed.


End SchedulerMore.

(** ** What the viewer renders *)

Section RenderFacts.

Import Scheduler Controls.
Open Scope Z_scope.

Lemma progressPercent_value (i n : Z) :
  2 <= n ->
  progressPercent i n = Done (inject_Z i / inject_Z (n - 1) * 100)%Q.
Proof.
  intros Hn. unfold progressPercent.
  rewrite num_div_positive; [reflexivity|].
  change 0%Q with (inject_Z 0). rewrite <- Zlt_Qlt. lia.
Qed.

Lemma progress_as_fraction (i n : Z) :
  2 <= n ->
  (inject_Z i / inject_Z (n - 1) * 100 == inject_Z (100 * i) / inject_Z (n - 1))%Q.
Proof.
  intros Hn. rewrite inject_Z_mult. change (inject_Z 100) with 100%Q.
  field. intros E. apply (inject_Z_injective (n - 1) 0) in E. lia.
Qed.

Lemma fraction_le (a b d : Z) :
  0 < d -> (inject_Z a / inject_Z d <= inject_Z b / inject_Z d)%Q <-> a <= b.
Proof.
  intros Hd.
  assert (Hq : (0 < inject_Z d)%Q)
    by (change 0%Q with (inject_Z 0); rewrite <- Zlt_Qlt; lia).
  rewrite (Zle_Qle a b). split; intros H.
  - apply (Qmult_le_r _ _ (/ inject_Z d)); [now apply Qinv_lt_0_compat|exact H].
  - apply (Qmult_le_r _ _ (/ inject_Z d)) in H; [exact H|now apply Qinv_lt_0_compat].
Qed.

(** Property X7 (TimelineControls, the progress effect, the frame counter
    and the slider).  With at least two samples, in any reachable state the
    viewer renders the timeline with the sample at the current index, the
    slider value lies between the slider's bounds, the counter shows a frame
    between 1 and the total, and the progress width is a percentage
    between 0 and 100: 0 exactly at the first index, 100 exactly at the
    last. *)
Theorem progress_bar_in_range (timelineData : list Sample) (es : list Event) :
  2 <= dataLength timelineData ->
  Forall (deliverable timelineData) es ->
  exists v c p,
    run timelineData mount es = Done v
    /\ render timelineData v = Timeline c
    /\ dataAt timelineData (currentIndex v) = Some (shownSample c)
    /\ sliderMin c <= sliderValue c <= sliderMax c
    /\ 1 <= fst (counter c) <= snd (counter c)
    /\ progress c = Done p
    /\ (0 <= p <= 100)%Q
    /\ ((p == 0)%Q <-> currentIndex v = 0)
    /\ ((p == 100)%Q <-> currentIndex v = dataLength timelineData - 1).
Proof.
  intros HN Hes.
  destruct (run_Inv timelineData es mount) as (v & Hrun & HI); trivial.
  { apply mount_Inv. lia. }
  pose proof HI as [[Hidx _ _ _] _].
  destruct (dataAt_defined timelineData (currentIndex v) Hidx) as (d & Hd).
  set (n := dataLength timelineData) in *.
  exists v. eexists. exists (inject_Z (currentIndex v) / inject_Z (n - 1) * 100)%Q.
  split; [exact Hrun|]. unfold render. rewrite Hd.
  split; [reflexivity|]. cbn.
  split; [reflexivity|]. split; [lia|]. split; [lia|].
  split; [now apply progressPercent_value|].
  assert (Hd0 : 0 < n - 1) by lia.
  rewrite (progress_as_fraction _ n HN).
  assert (H0 : (0 == inject_Z (100 * 0) / inject_Z (n - 1))%Q)
    by (cbn; unfold Qdiv; ring).
  assert (H100 : (100 == inject_Z (100 * (n - 1)) / inject_Z (n - 1))%Q).
  { rewrite inject_Z_mult. change (inject_Z 100) with 100%Q. field.
    intros E. apply (inject_Z_injective (n - 1) 0) in E. lia. }
  split; [split|split].
  - rewrite H0. apply fraction_le; lia.
  - rewrite H100. apply fraction_le; lia.
  - split; intros H.
    + assert (L : (inject_Z (100 * currentIndex v) / inject_Z (n - 1)
                   <= inject_Z (100 * 0) / inject_Z (n - 1))%Q)
        by (rewrite <- H0, H; apply Qle_refl).
      apply fraction_le in L; lia.
    + rewrite H. symmetry. exact H0.
  - split; intros H.
    + assert (L : (inject_Z (100 * (n - 1)) / inject_Z (n - 1)
                   <= inject_Z (100 * currentIndex v) / inject_Z (n - 1))%Q)
        by (rewrite <- H100, H; apply Qle_refl).
      apply fraction_le in L; lia.
    + rewrite H. symmetry. exact H100.
Qed.

(** Property X8 (TimelineViewerVideo and TimelineControls, one sample).
    With a single sample the viewer never leaves index 0, is never left
    playing (a click on play is undone by the playback effect at once) and
    holds no timeout; the counter shows 1 / 1 and the progress width is
    0 divided by 0. *)
Theorem single_sample_never_plays (timelineData : list Sample)
    (es : list Event) :
  dataLength timelineData = 1 ->
  Forall (deliverable timelineData) es ->
  exists v c,
    run timelineData mount es = Done v
    /\ currentIndex v = 0
    /\ isPlaying v = false
    /\ timeouts v = []
    /\ render timelineData v = Timeline c
    /\ counter c = (1, 1)
    /\ progress c = Fault DivisionByZero.
Proof.
  intros HN Hes.
  destruct (run_Inv timelineData es mount) as (v & Hrun & HI); trivial.
  { apply mount_Inv. lia. }
  pose proof HI as [[Hidx _ _ _] _].
  assert (Hci : currentIndex v = 0) by lia.
  destruct (dataAt_defined timelineData (currentIndex v) Hidx) as (d & Hd).
  pose proof (Inv_timers timelineData v HI) as Htm.
  exists v. eexists. split; [exact Hrun|]. split; [exact Hci|].
  destruct (isPlaying v).
  - destruct Htm as (t & _ & _ & Hrg & _). lia.
  - split; [reflexivity|]. split; [tauto|].
    unfold render. rewrite Hd. split; [reflexivity|]. cbn.
    rewrite Hci, HN. split; reflexivity.
Qed.

Lemma empty_key_step (i : Z) (k : Key) :
  i = 0 \/ i = -1 ->
  step [] (emptyViewerAt i) (KeyDown k)
  = Done (emptyViewerAt (emptyIndexAfter i k)).
Proof. intros [-> | ->]; destruct k; reflexivity. Qed.

Lemma empty_keys_run (keys : list Key) : forall i,
  i = 0 \/ i = -1 ->
  run [] (emptyViewerAt i) (map KeyDown keys)
  = Done (emptyViewerAt (fold_left emptyIndexAfter keys i)).
Proof.
  induction keys as [|k keys IH]; intros i Hi; cbn [map run fold_left].
  - reflexivity.
  - rewrite (empty_key_step i k Hi). cbn [bind]. apply IH.
    destruct k; cbn; tauto.
Qed.

(** Property X9 (TimelineViewerVideo, [handleKeyPress] with no sample).
    With an empty recording the keys still move the index: ArrowRight takes
    the minimum of the next index and -1, ArrowLeft the maximum of the
    previous index and 0.  The index is -1 after every ArrowRight; the
    viewer never plays, holds no timeout, and renders "No data
    available". *)
Theorem empty_recording_keys (keys : list Key) :
  exists v,
    run [] mount (map KeyDown keys) = Done v
    /\ v = emptyViewerAt (fold_left emptyIndexAfter keys 0)
    /\ isPlaying v = false
    /\ timeouts v = []
    /\ render [] v = NoDataAvailable
    /\ (forall keys', keys = keys' ++ [ArrowRight] -> currentIndex v = -1).
Proof.
  eexists. split; [exact (empty_keys_run keys 0 (or_introl eq_refl))|].
  split; [reflexivity|]. split; [reflexivity|]. split; [reflexivity|].
  split.
  - unfold render, dataAt. cbn.
    destruct (fold_left emptyIndexAfter keys 0 <? 0); [reflexivity|].
    now destruct (Z.to_nat _).
  - intros keys' ->. cbn. now rewrite fold_left_app.
Qed.

End RenderFacts.

(** ** The projector, continued *)

Section ProjectorMore.

Import Display Sync.
Open Scope Q_scope.

(** What [updateDisplay] computes when it has something to compute. *)
Lemma updateDisplay_loaded (data : Sample) (mode : bool) (d : Dom)
    (cursor : Cursor) (video : Video) (wrapper : Wrapper) :
  cursorRef d = Some cursor -> videoRef d = Some video ->
  wrapperRef d = Some wrapper ->
  ~ videoWidth video == 0 -> ~ videoHeight video == 0 ->
  let cursorX := (x data / 2) * (clientWidth video / videoWidth video) in
  let cursorY := (y data / 2) * (clientHeight video / videoHeight video) in
  updateDisplay data mode d
  = Done
      (if mode
       then mkDom
              (Some (mkCursor (Some (Percent 50)) (Some (Percent 50))
                       (Some (Translate (Percent (-50)) (Percent (-50))))
                       (Some cursorEaseAll)))
              (Some (mkVideo (videoWidth video) (videoHeight video)
                       (clientWidth video) (clientHeight video)
                       (readyState video) (currentTime video)
                       (Some (Translate (Px (rectWidth wrapper / 2 - cursorX))
                                        (Px (rectHeight wrapper / 2 - cursorY))))
                       (Some videoEase)))
              (Some wrapper)
       else mkDom
              (Some (mkCursor (Some (Px (cursorX - markerHalfSize)))
                       (Some (Px (cursorY - markerHalfSize)))
                       (Some TransformNone) (Some cursorEaseLeftTop)))
              (Some (mkVideo (videoWidth video) (videoHeight video)
                       (clientWidth video) (clientHeight video)
                       (readyState video) (currentTime video)
                       (Some TransformNone) (Some "none"%string)))
              (Some wrapper)).
Proof.
  intros Hc Hv Hw Hnw Hnh cursorX cursorY.
  unfold updateDisplay. rewrite Hc, Hv, Hw.
  rewrite (Qeq_bool_neq_false _ _ Hnw), (Qeq_bool_neq_false _ _ Hnh).
  cbn [orb]. unfold num_div at 1 2.
  rewrite (Qeq_bool_neq_false _ _ Hnw), (Qeq_bool_neq_false _ _ Hnh).
  cbn [bind]. rewrite !num_div_2. cbn [bind].
  destruct mode; cbn [bind]; reflexivity.
Qed.

(** When [updateDisplay] has nothing to compute it changes nothing. *)
Lemma updateDisplay_skips (data : Sample) (mode : bool) (d : Dom) :
  cursorRef d = None \/ wrapperRef d = None
  \/ (forall video, videoRef d = Some video ->
        videoWidth video == 0 \/ videoHeight video == 0) ->
  updateDisplay data mode d = Done d.
Proof.
  intros H. unfold updateDisplay.
  destruct (cursorRef d); [|reflexivity].
  destruct (videoRef d) as [video|]; [|reflexivity].
  destruct (wrapperRef d); [|reflexivity].
  destruct H as [H | [H | H]]; try discriminate.
  destruct (H video eq_refl) as [Hz | Hz]; apply Qeq_bool_iff in Hz;
    rewrite Hz; [reflexivity | now rewrite orb_true_r].
Qed.

(** Either the one or the other. *)
Lemma updateDisplay_cases (d : Dom) :
  (cursorRef d = None \/ wrapperRef d = None
   \/ (forall video, videoRef d = Some video ->
         videoWidth video == 0 \/ videoHeight video == 0))
  \/ (exists cursor video wrapper,
        cursorRef d = Some cursor /\ videoRef d = Some video
        /\ wrapperRef d = Some wrapper
        /\ ~ videoWidth video == 0 /\ ~ videoHeight video == 0).
Proof.
  destruct (cursorRef d) as [cursor|]; [|now left; left].
  destruct (wrapperRef d) as [wrapper|]; [|now left; right; left].
  destruct (videoRef d) as [video|].
  - destruct (Qeq_dec (videoWidth video) 0) as [Hw | Hw].
    + left. right. right. intros v [= <-]. now left.
    + destruct (Qeq_dec (videoHeight video) 0) as [Hh | Hh].
      * left. right. right. intros v [= <-]. now right.
      * right. exists cursor, video, wrapper. now repeat split.
  - left. right. right. intros v Hv. discriminate.
Qed.

(** Property X10 (ScreenshotDisplayVideo, [updateDisplay], POV branch).
    In POV mode over loaded media the marker is pinned to the middle of the
    container (50% / 50%, pulled back by half its size) and the video is
    translated so that the cursor point of the frame lands on the middle
    of the container. *)
Theorem pov_mode_geometry
    (data : Sample) (d : Dom) (cursor : Cursor) (video : Video)
    (wrapper : Wrapper) :
  cursorRef d = Some cursor -> videoRef d = Some video ->
  wrapperRef d = Some wrapper ->
  ~ videoWidth video == 0 -> ~ videoHeight video == 0 ->
  let cursorX := (x data / 2) * (clientWidth video / videoWidth video) in
  let cursorY := (y data / 2) * (clientHeight video / videoHeight video) in
  exists d' cursor' video' offsetX offsetY,
    updateDisplay data true d = Done d'
    /\ cursorRef d' = Some cursor'
    /\ cursorLeft cursor' = Some (Percent 50)
    /\ cursorTop cursor' = Some (Percent 50)
    /\ cursorTransform cursor' = Some (Translate (Percent (-50)) (Percent (-50)))
    /\ videoRef d' = Some video'
    /\ videoTransform video' = Some (Translate (Px offsetX) (Px offsetY))
    /\ cursorX + offsetX == rectWidth wrapper / 2
    /\ cursorY + offsetY == rectHeight wrapper / 2.
Proof.
  intros Hc Hv Hw Hnw Hnh cursorX cursorY.
  rewrite (updateDisplay_loaded data true d cursor video wrapper Hc Hv Hw Hnw Hnh).
  eexists. eexists. eexists. eexists. eexists.
  split; [reflexivity|].
  cbn [cursorRef videoRef cursorLeft cursorTop cursorTransform videoTransform].
  do 6 (split; [reflexivity|]).
  unfold cursorX, cursorY. split; ring.
Qed.

(** Property X11 (ScreenshotDisplayVideo, [updateDisplay]).  A projection
    overwrites the one before it and depends on nothing it wrote:
    projecting a sample after another projection gives what projecting it
    directly would have given, and projecting the same sample in the same
    mode again changes nothing. *)
Theorem last_projection_wins
    (data data' : Sample) (mode mode' : bool) (d d1 : Dom) :
  updateDisplay data' mode' d = Done d1 ->
  updateDisplay data mode d1 = updateDisplay data mode d
  /\ updateDisplay data' mode' d1 = Done d1.
Proof.
  intros H1.
  destruct (updateDisplay_cases d) as [Hskip | (cursor & video & wrapper & Hc & Hv & Hw & Hnw & Hnh)].
  - rewrite (updateDisplay_skips data' mode' d Hskip) in H1.
    injection H1 as <-. split; [reflexivity|].
    now apply updateDisplay_skips.
  - rewrite (updateDisplay_loaded data' mode' d cursor video wrapper
               Hc Hv Hw Hnw Hnh) in H1.
    injection H1 as <-.
    rewrite (updateDisplay_loaded data mode d cursor video wrapper
               Hc Hv Hw Hnw Hnh).
    destruct mode', mode;
      (split;
       unfold updateDisplay;
       cbn [cursorRef videoRef wrapperRef videoWidth videoHeight clientWidth
            clientHeight readyState currentTime];
       rewrite (Qeq_bool_neq_false _ _ Hnw), (Qeq_bool_neq_false _ _ Hnh);
       cbn [orb]; unfold num_div at 1 2;
       rewrite (Qeq_bool_neq_false _ _ Hnw), (Qeq_bool_neq_false _ _ Hnh);
       cbn [bind]; rewrite !num_div_2; cbn [bind]; reflexivity).
Qed.

(** Property X12 (ScreenshotDisplayVideo, [updateDisplay]).  A projection
    writes styles only: the dimensions, the ready state and the position of
    the media, the container, and which elements are mounted are left as
    they were. *)
Theorem updateDisplay_only_styles
    (data : Sample) (mode : bool) (d d' : Dom) :
  updateDisplay data mode d = Done d' ->
  mediaFacts d' = mediaFacts d
  /\ wrapperRef d' = wrapperRef d
  /\ (cursorRef d' = None <-> cursorRef d = None).
Proof.
  intros H1.
  destruct (updateDisplay_cases d) as [Hskip | (cursor & video & wrapper & Hc & Hv & Hw & Hnw & Hnh)].
  - rewrite (updateDisplay_skips data mode d Hskip) in H1.
    injection H1 as <-. now repeat split.
  - rewrite (updateDisplay_loaded data mode d cursor video wrapper
               Hc Hv Hw Hnw Hnh) in H1.
    injection H1 as <-. unfold mediaFacts. rewrite Hv, Hw, Hc.
    destruct mode; cbn; repeat split; discriminate.
Qed.

End ProjectorMore.

(** ** The synchronizer, continued *)

Section SynchronizerMore.

Import Display Sync.
Open Scope Q_scope.

(** Property X13 (ScreenshotDisplayVideo, the seek effect with
    [handleSeeking] and [handleSeeked]).  From the first render on, after
    any sequence of events, no seek is due for the current sample: the
    position last assigned to the media is within the tolerance of the
    time of the current sample's frame as the seek test measures it, hence
    within 0.05 s and a nanosecond of it for times up to a million
    seconds.  A pending sample exists only while [isSeeking] is set, the
    media has been sent to its frame, and that frame is the current
    sample's (for frame numbers up to [frameLimit]). *)
Theorem media_follows_current_sample
    (sample : Sample) (fps : bool) (d : Dom) (es : list Event) :
  exists s0 s,
    mount sample fps d = Done s0
    /\ run s0 es = Done s
    /\ (forall t fn, mediaTime (dom s) = Some t ->
                     frame_number (data s) = Some fn ->
          timeDifference t (inject_Z fn / 10) <= binary64 0.05
          /\ (Qabs t <= 1000000 -> Qabs (inject_Z fn / 10) <= 1000000 ->
              Qabs (t - inject_Z fn / 10) <= 0.05 + (1 # 1000000000)))
    /\ (isSeeking s = false -> pendingData s = None)
    /\ (forall p, pendingData s = Some p ->
        isSeeking s = true
        /\ exists fp, frame_number p = Some fp
                      /\ standsOn s fp
                      /\ (forall fn, frame_number (data s) = Some fn ->
                            (Z.abs fn <= frameLimit)%Z ->
                            (Z.abs fp <= frameLimit)%Z -> fn = fp)).
Proof.
  destruct (mount_DInv sample fps d) as (s0 & Hm & HI0).
  destruct (run_DInv es s0 HI0) as (s & Hr & [[Hp Hi Hl] Hal]).
  exists s0, s. split; [exact Hm|]. split; [exact Hr|].
  split; [|split].
  - intros t fn Ht Hfn. pose proof (Hal t Ht fn Hfn) as Hle.
    change videoFPS with 10 in Hle. change seekTolerance with 0.05 in Hle.
    split; [exact Hle|]. intros Hbt HbT.
    pose proof (timeDifference_exact _ _ Hbt HbT) as He.
    apply Qabs_Qle_condition in He.
    destruct tolerance_bounds as [_ Hhi].
    change seekTolerance with 0.05 in Hhi. lra.
  - exact Hi.
  - intros p Hpe. split.
    + destruct (isSeeking s); [reflexivity|].
      rewrite (Hi eq_refl) in Hpe. discriminate.
    + destruct (Hp p Hpe) as (fp & t & Hfp & Ht & Heq).
      exists fp. split; [exact Hfp|]. split; [now exists t|].
      intros fn Hfn Hbn Hbp. symmetry.
      exact (frames_close fp fn t Heq (Hal t Ht fn Hfn) Hbp Hbn).
Qed.

Lemma notSeekingEffect_media (r w w' : Display) :
  notSeekingEffect r w = Done w' ->
  mediaTime (dom w') = mediaTime (dom w)
  /\ seekCommands w' = seekCommands w
  /\ isSeeking w' = isSeeking w /\ pendingData w' = pendingData w.
Proof.
  unfold notSeekingEffect.
  destruct (negb (isSeeking r) && videoReady (dom w)).
  - destruct (callUpdateDisplay_spec r w) as (d' & _ & Hm & _ & ->).
    intros [= <-]. now cbn.
  - intros [= <-]. now repeat split.
Qed.

Lemma commitState_media (r w w' : Display) :
  commitState r w = Done w' ->
  mediaTime (dom w') = mediaTime (dom w)
  /\ seekCommands w' = seekCommands w
  /\ isSeeking w' = isSeeking w /\ pendingData w' = pendingData w.
Proof.
  unfold commitState.
  destruct (Bool.eqb (isSeeking r) (isSeeking w)).
  - intros [= <-]. now repeat split.
  - apply notSeekingEffect_media.
Qed.

Lemma commitState_data (r w w' : Display) :
  commitState r w = Done w' -> data w' = data w.
Proof.
  unfold commitState, notSeekingEffect.
  destruct (Bool.eqb (isSeeking r) (isSeeking w)); [now intros [= <-]|].
  destruct (negb (isSeeking w) && videoReady (dom w)); [|now intros [= <-]].
  destruct (callUpdateDisplay_spec w w) as (d' & _ & _ & _ & ->).
  now intros [= <-].
Qed.

(** The times of different frames are more than the tolerance apart. *)
Lemma other_frame_is_far (k fn : Z) (t : number) :
  t == inject_Z k / videoFPS -> fn <> k ->
  (Z.abs k <= frameLimit)%Z -> (Z.abs fn <= frameLimit)%Z ->
  binary64 seekTolerance < timeDifference t (inject_Z fn / videoFPS).
Proof.
  intros Ht Hne Hk Hfn.
  apply (other_frame_beyond k fn t Ht); trivial. congruence.
Qed.

(** The two effects that follow the seek effect leave the media and the
    seek state alone. *)
Lemma after_seek_effect (r w1 : Display) :
  DInv w1 -> data r = data w1 ->
  (isSeeking r = false -> pendingData r = None) ->
  exists w3,
    (w2 <- notSeekingEffect r w1 ;; commitState r w2) = Done w3
    /\ DInv w3
    /\ data w3 = data w1
    /\ mediaTime (dom w3) = mediaTime (dom w1)
    /\ seekCommands w3 = seekCommands w1
    /\ isSeeking w3 = isSeeking w1
    /\ pendingData w3 = pendingData w1.
Proof.
  intros HI Hd Hidle.
  destruct (notSeekingEffect_DInv r w1 HI Hd Hidle)
    as (w2 & H2 & HI2 & Hd2 & _ & Hs2 & Hp2 & _).
  destruct (notSeekingEffect_media r w1 w2 H2) as (Hm2 & Hc2 & _ & _).
  rewrite H2. cbn [bind].
  destruct (commitState_DInv r w2 HI2)
    as (w3 & H3 & HI3 & Hd3 & _ & Hs3 & Hp3 & _).
  destruct (commitState_media r w2 w3 H3) as (Hm3 & Hc3 & _ & _).
  exists w3. split; [exact H3|]. split; [exact HI3|].
  repeat split; congruence.
Qed.

(** A new sample, seen from the frame the media stands on. *)
Lemma new_sample_seeks_iff (s : Display) (k : Z) (next : Sample) (fn : Z) :
  DInv s -> standsOn s k -> frame_number next = Some fn ->
  (Z.abs k <= frameLimit)%Z -> (Z.abs fn <= frameLimit)%Z ->
  exists s',
    step s (NewSample next) = Done s'
    /\ DInv s'
    /\ data s' = next
    /\ (fn = k ->
        seekCommands s' = seekCommands s /\ standsOn s' k
        /\ isSeeking s' = isSeeking s /\ pendingData s' = pendingData s)
    /\ (fn <> k ->
        seekCommands s' = seekCommands s ++ [inject_Z fn / 10]
        /\ standsOn s' fn
        /\ isSeeking s' = true /\ pendingData s' = Some next).
Proof.
  intros [[Hp Hi Hl] Hal] (t & Hmt & Ht) Hfn Hbk Hbn. cbn [step].
  set (r := mkDisplay next (isFpsMode s) (isSeeking s) (pendingData s)
                      (dom s) (seekCommands s) (projections s)).
  assert (HB : DBase r) by now constructor.
  assert (Hv : exists video, videoRef (dom r) = Some video
                             /\ currentTime video = t).
  { unfold mediaTime in Hmt. cbn.
    destruct (videoRef (dom s)) as [video|]; [|discriminate].
    exists video. split; [reflexivity|]. now injection Hmt. }
  destruct Hv as (video & Hv & Hct).
  destruct (seekEffect_cases r video fn Hv Hfn) as [Hseek Hnear].
  rewrite Hct in Hseek, Hnear.
  destruct (seekEffect_DInv r HB) as (w1 & H1 & HI1 & Hd1 & _).
  unfold commitProps. rewrite H1. cbn [bind].
  destruct (after_seek_effect r w1 HI1 (eq_sym Hd1) Hi)
    as (w3 & H3 & HI3 & Hd3 & Hm3 & Hc3 & Hs3 & Hp3).
  destruct (notSeekingEffect r w1) as [w2|] eqn:H2; [|discriminate].
  cbn [bind] in *. rewrite H3.
  exists w3. split; [reflexivity|]. split; [exact HI3|].
  split; [rewrite Hd3, Hd1; reflexivity|].
  destruct (Z.eq_dec fn k) as [-> | Hne].
  - split; [|intros Hne; now contradiction Hne]. intros _.
    rewrite (Hnear (same_frame_aligned k t Ht)) in H1.
    destruct (callUpdateDisplay_spec r r) as (d' & _ & Hm1 & _ & He).
    rewrite He in H1. injection H1 as <-. cbn in Hm3, Hc3, Hs3, Hp3.
    split; [exact Hc3|].
    split; [exists t; split; [rewrite Hm3, Hm1; exact Hmt|exact Ht]|].
    split; assumption.
  - split; [intros E; now contradiction Hne|]. intros _.
    rewrite (Hseek (other_frame_is_far k fn t Ht Hne Hbk Hbn)) in H1.
    injection H1 as <-.
    unfold seekTo in Hm3, Hc3, Hs3, Hp3. cbn in Hm3, Hc3, Hs3, Hp3.
    cbn in Hv. rewrite Hv in Hm3, Hc3, Hs3, Hp3.
    cbn in Hm3, Hc3, Hs3, Hp3.
    split; [exact Hc3|].
    split; [exists (inject_Z fn / videoFPS); split; [exact Hm3|reflexivity]|].
    split; assumption.
Qed.

(** What the commit of new props does to the sample shown and to the
    media: the sample is the one of the props; the media stays, or is sent
    to the time of that sample's frame. *)
Lemma commitProps_stands (r : Display) (s' : Display) :
  DBase r ->
  (w <- commitProps r ;; commitState r w) = Done s' ->
  data s' = data r
  /\ (mediaTime (dom s') = mediaTime (dom r)
      \/ exists fn, frame_number (data r) = Some fn
                    /\ mediaTime (dom s')
                       = Some (inject_Z fn / videoFPS)).
Proof.
  intros HB Hs.
  destruct (seekEffect_DInv r HB) as (w1 & H1 & HI1 & Hd1 & _).
  unfold commitProps in Hs. rewrite H1 in Hs. cbn [bind] in Hs.
  destruct (after_seek_effect r w1 HI1 (eq_sym Hd1) (base_idle r HB))
    as (w3 & H3 & _ & Hd3 & Hm3 & _).
  destruct (notSeekingEffect r w1) as [w2|] eqn:H2; [|discriminate].
  cbn [bind] in *. rewrite H3 in Hs. injection Hs as <-.
  split; [congruence|].
  rewrite Hm3. clear H3 Hm3 H2.
  unfold seekEffect in H1.
  destruct (videoRef (dom r)) as [video|] eqn:Hv;
    [|injection H1 as <-; now left].
  destruct (frame_number (data r)) as [fn|];
    [|injection H1 as <-; now left].
  rewrite num_div_fps in H1. cbn [bind] in H1.
  destruct (beyondTolerance _).
  - injection H1 as <-. right. exists fn. split; [reflexivity|].
    unfold seekTo. cbn. rewrite Hv. reflexivity.
  - destruct (callUpdateDisplay_spec r r) as (d' & _ & Hm1 & _ & He).
    rewrite He in H1. injection H1 as <-. now left.
Qed.

(** The sample shown after an event, and where the media stands. *)
Lemma step_stands (s s' : Display) (e : Event) :
  DInv s -> step s e = Done s' ->
  data s' = match e with NewSample d => d | _ => data s end
  /\ (mediaTime (dom s') = mediaTime (dom s)
      \/ exists fn, frame_number (data s') = Some fn
                    /\ mediaTime (dom s')
                       = Some (inject_Z fn / videoFPS)).
Proof.
  intros HI Hs. pose proof HI as [[Hp Hi Hl] Hal].
  destruct e as [d | | | | l | l | rs]; cbn [step] in Hs.
  - set (r := mkDisplay d (isFpsMode s) (isSeeking s) (pendingData s)
                        (dom s) (seekCommands s) (projections s)) in *.
    assert (HB : DBase r) by now constructor.
    destruct (commitProps_stands r s' HB Hs) as [Hd Hm]. cbn in Hd, Hm.
    split; [exact Hd|]. rewrite Hd. exact Hm.
  - set (r := mkDisplay (data s) (negb (isFpsMode s)) (isSeeking s)
                        (pendingData s) (dom s) (seekCommands s)
                        (projections s)) in *.
    assert (HB : DBase r) by now constructor.
    destruct (commitProps_stands r s' HB Hs) as [Hd Hm]. cbn in Hd, Hm.
    split; [exact Hd|]. rewrite Hd. exact Hm.
  - split; [exact (commitState_data _ _ _ Hs)|].
    left. destruct (commitState_media _ _ _ Hs) as (Hm & _). exact Hm.
  - unfold handleSeeked in Hs.
    destruct (pendingData s).
    + destruct (callUpdateDisplay_spec s
                  (setPendingData None (setIsSeeking false s)))
        as (d' & _ & Hm1 & _ & He).
      rewrite He in Hs. cbn [bind] in Hs.
      split; [exact (commitState_data _ _ _ Hs)|]. left.
      destruct (commitState_media _ _ _ Hs) as (Hm & _).
      rewrite Hm. exact Hm1.
    + cbn [bind] in Hs.
      split; [exact (commitState_data _ _ _ Hs)|]. left.
      destruct (commitState_media _ _ _ Hs) as (Hm & _). exact Hm.
  - destruct (callUpdateDisplay_spec (set_dom (relayout l (dom s)) s)
                (set_dom (relayout l (dom s)) s))
      as (d' & _ & Hm1 & _ & He).
    rewrite He in Hs. injection Hs as <-. cbn.
    split; [reflexivity|]. left.
    rewrite Hm1. cbn. apply relayout_mediaTime.
  - unfold handleVideoLoad in Hs.
    destruct (callUpdateDisplay_spec (set_dom (relayout l (dom s)) s)
                (set_dom (relayout l (dom s)) s))
      as (d' & _ & Hm1 & _ & He).
    rewrite He in Hs. injection Hs as <-. cbn.
    split; [reflexivity|]. left.
    rewrite Hm1. cbn. apply relayout_mediaTime.
  - injection Hs as <-. cbn. split; [reflexivity|]. left.
    apply set_readyState_mediaTime.
Qed.

(** Every event leaves the media on a frame, of a number within the
    limit when the frame numbers of the samples are. *)
Lemma step_standsOn (s : Display) (e : Event) (k : Z) :
  DInv s -> standsOn s k -> (Z.abs k <= frameLimit)%Z ->
  frameInRange (data s) -> framesInRange e ->
  exists s' k', step s e = Done s' /\ DInv s' /\ standsOn s' k'
                /\ (Z.abs k' <= frameLimit)%Z /\ frameInRange (data s').
Proof.
  intros HI Hst Hbk Hds He.
  destruct (step_DInv s e HI) as (s' & Hs & HI').
  exists s'.
  destruct (step_stands s s' e HI Hs) as [Hd Hkeep].
  assert (Hds' : frameInRange (data s')).
  { rewrite Hd. destruct e; trivial. }
  destruct Hst as (t & Hmt & Ht).
  destruct Hkeep as [Hm | (fn & Hfn & Hm)].
  - exists k. split; [exact Hs|]. split; [exact HI'|].
    split; [exists t; split; [congruence|exact Ht]|]. now split.
  - exists fn. split; [exact Hs|]. split; [exact HI'|].
    split; [eexists; split; [exact Hm|reflexivity]|].
    split; [exact (Hds' fn Hfn) | exact Hds'].
Qed.

Lemma run_standsOn (es : list Event) : forall (s : Display) (k : Z),
  DInv s -> standsOn s k -> (Z.abs k <= frameLimit)%Z ->
  frameInRange (data s) -> Forall framesInRange es ->
  exists s' k', run s es = Done s' /\ DInv s' /\ standsOn s' k'
                /\ (Z.abs k' <= frameLimit)%Z /\ frameInRange (data s').
Proof.
  induction es as [|e es IH]; intros s k HI Hst Hbk Hds Hes; cbn [run].
  - exists s, k. split; [reflexivity|]. split; [exact HI|].
    split; [exact Hst|]. now split.
  - inversion Hes as [|? ? He Hes']; subst.
    destruct (step_standsOn s e k HI Hst Hbk Hds He)
      as (s1 & k1 & -> & HI1 & Hst1 & Hbk1 & Hds1).
    cbn [bind]. now apply (IH s1 k1).
Qed.

Lemma mount_standsOn (sample : Sample) (fps : bool) (d : Dom)
    (video : Video) (k0 : Z) :
  videoRef d = Some video -> currentTime video == inject_Z k0 / videoFPS ->
  (Z.abs k0 <= frameLimit)%Z -> frameInRange sample ->
  exists s k, mount sample fps d = Done s /\ DInv s /\ standsOn s k
              /\ (Z.abs k <= frameLimit)%Z /\ frameInRange (data s).
Proof.
  intros Hv Hct Hb0 Hsr.
  pose (blank := mkSample None 0 EmptyString 0 0).
  pose (s := mkDisplay blank fps false None d [] []).
  assert (HI : DInv s).
  { split; [constructor; cbn; trivial; discriminate|].
    intros t _ fn Hfn. discriminate Hfn. }
  assert (Hst : standsOn s k0).
  { exists (currentTime video). split; [|exact Hct].
    unfold mediaTime. cbn. now rewrite Hv. }
  destruct (step_standsOn s (NewSample sample) k0 HI Hst Hb0)
    as (s' & k' & Hs & HI' & Hst' & Hbk' & Hds').
  - intros fn Hfn. discriminate Hfn.
  - exact Hsr.
  - exists s', k'. split; [exact Hs|]. split; [exact HI'|].
    split; [exact Hst'|]. now split.
Qed.

(** Property X14 (ScreenshotDisplayVideo, the seek effect).  With frame
    numbers up to [frameLimit]: when the media starts on a frame boundary
    it stays on one, in every reachable state it stands on frame [k], the
    frame of the current sample.  A new sample of the same frame issues no
    seek and leaves the seeking state alone; a new sample of another frame
    issues exactly one seek, to that frame's time, sets [isSeeking] and
    makes the sample pending. *)
Theorem seek_iff_frame_changes
    (sample : Sample) (fps : bool) (d : Dom) (video : Video) (k0 : Z)
    (es : list Event) :
  videoRef d = Some video -> currentTime video == inject_Z k0 / 10 ->
  (Z.abs k0 <= frameLimit)%Z -> frameInRange sample ->
  Forall framesInRange es ->
  exists s0 s k,
    mount sample fps d = Done s0
    /\ run s0 es = Done s
    /\ standsOn s k
    /\ (forall fn, frame_number (data s) = Some fn -> fn = k)
    /\ forall next fn, frame_number next = Some fn ->
       (Z.abs fn <= frameLimit)%Z ->
       exists s',
         step s (NewSample next) = Done s'
         /\ data s' = next
         /\ (fn = k ->
             seekCommands s' = seekCommands s /\ standsOn s' k
             /\ isSeeking s' = isSeeking s /\ pendingData s' = pendingData s)
         /\ (fn <> k ->
             seekCommands s' = seekCommands s ++ [inject_Z fn / 10]
             /\ standsOn s' fn
             /\ isSeeking s' = true /\ pendingData s' = Some next).
Proof.
  intros Hv Hct Hb0 Hsr Hes.
  destruct (mount_standsOn sample fps d video k0 Hv Hct Hb0 Hsr)
    as (s0 & k1 & Hm & HI0 & Hst0 & Hbk0 & Hds0).
  destruct (run_standsOn es s0 k1 HI0 Hst0 Hbk0 Hds0 Hes)
    as (s & k & Hr & HI & Hst & Hbk & Hds).
  exists s0, s, k. split; [exact Hm|]. split; [exact Hr|].
  split; [exact Hst|]. split.
  - intros fn Hfn. destruct Hst as (t & Hmt & Ht).
    destruct HI as [_ Hal]. symmetry.
    exact (frames_close k fn t Ht (Hal t Hmt fn Hfn) Hbk (Hds fn Hfn)).
  - intros next fn Hfn Hbn.
    destruct (new_sample_seeks_iff s k next fn HI Hst Hfn Hbk Hbn)
      as (s' & Hs & _ & Hd & Hsame & Hdiff).
    exists s'. split; [exact Hs|]. split; [exact Hd|]. split; assumption.
Qed.

End SynchronizerMore.

(** ** File names and tags *)

Section TagFacts.

Import Tags.
Open Scope string_scope.

Lemma length_append (a b : string) :
  length (a ++ b) = (length a + length b)%nat.
Proof. induction a as [|c a IH]; cbn; [reflexivity | now rewrite IH]. Qed.

Lemma append_associative (a b c : string) : (a ++ b) ++ c = a ++ b ++ c.
Proof. induction a as [|x a IH]; cbn; [reflexivity | now rewrite IH]. Qed.

Lemma substring_all (s : string) : substring 0 (length s) s = s.
Proof. induction s as [|c s IH]; cbn; [reflexivity | now rewrite IH]. Qed.

Lemma substring_append_left (a b : string) :
  substring 0 (length a) (a ++ b) = a.
Proof. induction a as [|c a IH]; cbn; [now destruct b | now rewrite IH]. Qed.

Lemma substring_skip (a b : string) (n m : nat) :
  substring (length a + n) m (a ++ b) = substring n m b.
Proof. induction a as [|c a IH]; cbn; [reflexivity | exact IH]. Qed.

Lemma prefix_append (p s : string) : prefix p (p ++ s) = true.
Proof.
  induction p as [|c p IH]; cbn; [now destruct s|].
  destruct (Ascii.ascii_dec c c); [exact IH | contradiction].
Qed.

Lemma prefix_split (p s : string) :
  prefix p s = true -> exists rest, s = p ++ rest.
Proof.
  revert s. induction p as [|c p IH]; intros s H.
  - now exists s.
  - destruct s as [|d s]; [discriminate|]. cbn in H.
    destruct (Ascii.ascii_dec c d) as [<-|]; [|discriminate].
    destruct (IH s H) as (rest & ->). now exists rest.
Qed.

Lemma endsWith_append (suffix s : string) :
  endsWith suffix (s ++ suffix) = true.
Proof.
  unfold endsWith. rewrite length_append.
  replace (length s + length suffix - length suffix)%nat
    with (length s + 0)%nat by lia.
  rewrite substring_skip, substring_all, String.eqb_refl.
  rewrite andb_true_r. apply Nat.leb_le. lia.
Qed.

Lemma substring_split (s : string) (n : nat) :
  (n <= length s)%nat ->
  s = substring 0 n s ++ substring n (length s - n) s.
Proof.
  revert n. induction s as [|c s IH]; intros n Hn.
  - destruct n; [reflexivity | cbn in Hn; lia].
  - destruct n as [|n]; cbn.
    + now rewrite substring_all.
    + f_equal. apply IH. cbn in Hn. lia.
Qed.

Lemma endsWith_split (suffix s : string) :
  endsWith suffix s = true -> exists body, s = body ++ suffix.
Proof.
  unfold endsWith. intros H. apply andb_true_iff in H.
  destruct H as [Hlen Heq]. apply Nat.leb_le in Hlen.
  apply String.eqb_eq in Heq.
  exists (substring 0 (length s - length suffix) s).
  rewrite (substring_split s (length s - length suffix)) at 1 by lia.
  f_equal.
  replace (length s - (length s - length suffix))%nat
    with (length suffix) by lia.
  exact Heq.
Qed.

Lemma slice_tag (body : string) :
  slice ("screen_capture_" ++ body ++ ".webm") 15 (-5) = body.
Proof.
  unfold slice. rewrite !length_append.
  change (length "screen_capture_") with 15%nat.
  change (length ".webm") with 5%nat.
  change (15 <? 0)%Z with false. change (-5 <? 0)%Z with true.
  cbv iota.
  set (len := Z.of_nat (15 + (length body + 5))).
  replace (Z.min 15 len) with 15%Z by (unfold len; lia).
  replace (Z.max (len + -5) 0) with (Z.of_nat (15 + length body))
    by (unfold len; lia).
  destruct (15 <? Z.of_nat (15 + length body))%Z eqn:E.
  - replace (Z.to_nat (Z.of_nat (15 + length body) - 15)) with (length body)
      by lia.
    change (Z.to_nat 15) with (length "screen_capture_" + 0)%nat.
    rewrite substring_skip. apply substring_append_left.
  - apply Z.ltb_ge in E. destruct body; [reflexivity | cbn in E; lia].
Qed.

Lemma videoFileOf_isCapture (tag : string) :
  isCapture (videoFileOf tag) = true.
Proof.
  unfold isCapture, videoFileOf, startsWith.
  rewrite prefix_append. cbn [andb].
  rewrite <- append_associative. apply endsWith_append.
Qed.

(** Property X15 (the tags endpoint and AppVideo's [loadData]).  The file
    name built from a tag is a capture file name, cutting its affixes off
    gives the tag back, and the video source [loadData] sets for a tag is
    that file under the data path. *)
Theorem tag_round_trip (tag : string) :
  isCapture (videoFileOf tag) = true
  /\ tagOf (videoFileOf tag) = tag
  /\ videoSrcOf tag = "/__cursor_data/" ++ videoFileOf tag.
Proof.
  split; [apply videoFileOf_isCapture|]. split; [apply slice_tag|].
  reflexivity.
Qed.

(** A capture file name has room for both affixes: the prefix ends in
    an underscore, the suffix starts with a dot. *)
Lemma capture_decomposes (file : string) :
  isCapture file = true ->
  exists body, file = "screen_capture_" ++ body ++ ".webm".
Proof.
  unfold isCapture, startsWith. intros H. apply andb_true_iff in H.
  destruct H as [Hp Hs].
  destruct (prefix_split _ _ Hp) as (rest & ->).
  assert (Hrest : endsWith ".webm" rest = true).
  { destruct rest as [|a [|b [|c [|d [|e rest]]]]];
      try (vm_compute in Hs; discriminate).
    revert Hs. unfold endsWith. rewrite length_append.
    change (length "screen_capture_") with 15%nat.
    change (length ".webm") with 5%nat.
    set (tail := String a (String b (String c (String d (String e rest))))).
    assert (Hl : (5 <= length tail)%nat) by (cbn; lia).
    replace (15 + length tail - 5)%nat
      with (length "screen_capture_" + (length tail - 5))%nat
      by (change (length "screen_capture_") with 15%nat; lia).
    rewrite substring_skip. intros Hs.
    apply andb_true_iff in Hs. destruct Hs as [_ ->].
    rewrite andb_true_r. now apply Nat.leb_le. }
  destruct (endsWith_split _ _ Hrest) as (body & ->).
  now exists body.
Qed.

Lemma videoFileOf_tagOf (file : string) :
  isCapture file = true -> videoFileOf (tagOf file) = file.
Proof.
  intros H. destruct (capture_decomposes file H) as (body & ->).
  unfold tagOf. rewrite slice_tag. reflexivity.
Qed.

(** Property X16 (the tags endpoint).  For every file the endpoint's filter
    accepts, the name rebuilt from its tag is the file itself: the
    comparator's [statSync] and the viewer's video source name a file that
    was listed. *)
Theorem capture_file_is_rebuilt (file : string) :
  isCapture file = true ->
  videoFileOf (tagOf file) = file
  /\ videoSrcOf (tagOf file) = "/__cursor_data/" ++ file.
Proof.
  intros H. split; [exact (videoFileOf_tagOf file H)|].
  rewrite <- (videoFileOf_tagOf file H) at 2. reflexivity.
Qed.

Section Listing.

Variable mtime : string -> Z.

Lemma insertTag_perm (a : string) (l : list string) :
  Permutation (insertTag mtime a l) (a :: l).
Proof.
  induction l as [|b l IH]; cbn [insertTag]; [reflexivity|].
  destruct (newestFirst mtime a b <? 0)%Z; [reflexivity|].
  rewrite IH. apply perm_swap.
Qed.

Lemma insertTag_sorted (a : string) (l : list string) :
  StronglySorted (notOlder mtime) l -> StronglySorted (notOlder mtime) (insertTag mtime a l).
Proof.
  induction 1 as [|b l Hl IH Hb]; cbn [insertTag].
  - repeat constructor.
  - destruct (newestFirst mtime a b <? 0)%Z eqn:E.
    + apply Z.ltb_lt in E. unfold newestFirst in E.
      constructor; [now constructor|].
      constructor; [unfold notOlder; lia|].
      rewrite Forall_forall in *. intros c Hc.
      specialize (Hb c Hc). unfold notOlder in *. lia.
    + apply Z.ltb_ge in E. unfold newestFirst in E.
      constructor; [exact IH|].
      rewrite Forall_forall in *. intros c Hc.
      apply (Permutation_in _ (insertTag_perm a l)) in Hc.
      destruct Hc as [<- | Hc]; [unfold notOlder; lia | now apply Hb].
Qed.

Lemma sortTags_spec (tags : list string) : forall acc,
  StronglySorted (notOlder mtime) acc ->
  Permutation (fold_left (fun sorted a => insertTag mtime a sorted) tags acc)
              (tags ++ acc)
  /\ StronglySorted (notOlder mtime)
       (fold_left (fun sorted a => insertTag mtime a sorted) tags acc).
Proof.
  induction tags as [|a tags IH]; intros acc Hacc; cbn [fold_left app].
  - now split.
  - destruct (IH (insertTag mtime a acc) (insertTag_sorted a acc Hacc))
      as [Hp Hs].
    split; [|exact Hs]. rewrite Hp.
    rewrite (insertTag_perm a acc). symmetry. apply Permutation_middle.
Qed.

Lemma listTags_perm_sorted (files : list string) :
  Permutation (listTags mtime files) (map tagOf (filter isCapture files))
  /\ StronglySorted (notOlder mtime) (listTags mtime files).
Proof.
  unfold listTags, sortTags.
  destruct (sortTags_spec (map tagOf (filter isCapture files)) [])
    as [Hp Hs]; [constructor|].
  rewrite app_nil_r in Hp. now split.
Qed.

Lemma listTags_in (files : list string) (tag : string) :
  In tag (listTags mtime files)
  <-> exists file, In file files /\ isCapture file = true
                   /\ tagOf file = tag.
Proof.
  destruct (listTags_perm_sorted files) as [Hp _]. split.
  - intros Ht. apply (Permutation_in _ Hp) in Ht.
    apply in_map_iff in Ht. destruct Ht as (file & <- & Hf).
    apply filter_In in Hf. destruct Hf as [Hin Hc]. now exists file.
  - intros (file & Hin & Hc & <-).
    apply (Permutation_in _ (Permutation_sym Hp)).
    apply in_map. apply filter_In. now split.
Qed.

(** Property X17 (the tags endpoint).  The answer holds the tags of the
    capture files of the directory, each as often as its file is listed,
    ordered so that no tag stands before the tag of a newer capture; every
    tag in it names a capture file of the directory, and a file of the
    directory is a capture exactly when its tag is in the answer and
    rebuilds its name. *)
Theorem tags_listed_newest_first (files : list string) :
  Permutation (listTags mtime files) (map tagOf (filter isCapture files))
  /\ StronglySorted (notOlder mtime) (listTags mtime files)
  /\ (forall tag, In tag (listTags mtime files) ->
        In (videoFileOf tag) files /\ isCapture (videoFileOf tag) = true)
  /\ (forall file, In file files ->
        (isCapture file = true <-> In (tagOf file) (listTags mtime files)
                                   /\ videoFileOf (tagOf file) = file)).
Proof.
  destruct (listTags_perm_sorted files) as [Hp Hs].
  split; [exact Hp|]. split; [exact Hs|]. split.
  - intros tag Ht. apply listTags_in in Ht.
    destruct Ht as (file & Hin & Hc & <-).
    rewrite (videoFileOf_tagOf file Hc). now split.
  - intros file Hin. split.
    + intros Hc. split; [|exact (videoFileOf_tagOf file Hc)].
      apply listTags_in. now exists file.
    + intros [_ <-]. apply videoFileOf_isCapture.
Qed.

(** Property X18 ([fetchTags], the effect on [selectedTag] and [loadData]
    in AppVideo, over the endpoint's answer).  With no capture file in the
    directory the application shows the "No recordings found" error and
    fetches nothing.  Otherwise the selected tag names a capture file of
    the directory that no other capture is newer than, and the Loading
    screen stays.  For the empty tag (the file "screen_capture_.webm")
    nothing is fetched and the Loading screen stays whatever comes back.
    For any other tag the CSV of that tag is fetched, and only an ok
    response shows the viewer, on its rows and the capture file as video
    source; a response that is not ok shows "Failed to load CSV file", a
    failed request its message when that is not empty, and neither sets a
    video source.  When the tags cannot be fetched the application shows
    "Failed to load available recordings" and fetches no CSV. *)
Theorem newest_recording_is_selected (files : list string) :
  let app := fetchTags (TagsOk (listTags mtime files)) initialApp in
  (renderApp (fetchTags TagsFail initialApp)
   = ErrorScreen "Failed to load available recordings"
   /\ csvRequest (fetchTags TagsFail initialApp) = None)
  /\ ((forall file, In file files -> isCapture file = false) ->
   renderApp app
   = ErrorScreen "No recordings found in __cursor_data folder"
   /\ csvRequest app = None
   /\ forall response, selectedTagEffect response app = app)
  /\ (forall file0, In file0 files -> isCapture file0 = true ->
      In (videoFileOf (selectedTag app)) files
      /\ (forall file, In file files -> isCapture file = true ->
            (mtime file <= mtime (videoFileOf (selectedTag app)))%Z)
      /\ renderApp app = LoadingScreen
      /\ (selectedTag app = EmptyString ->
          csvRequest app = None
          /\ forall response,
               renderApp (selectedTagEffect response app) = LoadingScreen)
      /\ (selectedTag app <> EmptyString ->
          csvRequest app
          = Some ("/__cursor_data/mouse_positions_"
                    ++ selectedTag app ++ ".csv")
          /\ (forall data,
                renderApp (selectedTagEffect (Rows data) app)
                = ViewerScreen data
                    ("/__cursor_data/" ++ videoFileOf (selectedTag app)))
          /\ renderApp (selectedTagEffect NotOk app)
             = ErrorScreen "Failed to load CSV file"
          /\ videoSrc (selectedTagEffect NotOk app) = EmptyString
          /\ (forall message,
                error (selectedTagEffect (FetchFails message) app)
                = Some message
                /\ videoSrc (selectedTagEffect (FetchFails message) app)
                   = EmptyString
                /\ (message <> EmptyString ->
                    renderApp (selectedTagEffect (FetchFails message) app)
                    = ErrorScreen message)))).
Proof.
  intros app.
  destruct (listTags_perm_sorted files) as [_ Hs].
  pose proof (listTags_in files) as Hin.
  split; [split; reflexivity|].
  split.
  - intros Hnone.
    assert (Hnil : listTags mtime files = []).
    { destruct (listTags mtime files) as [|t l] eqn:E; [reflexivity|].
      destruct (proj1 (Hin t) (or_introl eq_refl)) as (file & Hf & Hc & _).
      rewrite (Hnone _ Hf) in Hc. discriminate. }
    unfold app. cbn [fetchTags]. rewrite Hnil. repeat split.
  - intros file0 Hf0 Hc0.
    destruct (listTags mtime files) as [|t l] eqn:E.
    + destruct (proj2 (Hin (tagOf file0))) as [].
      now exists file0.
    + unfold app. cbn [fetchTags].
      cbn [fetchTagsDone selectedTag initialApp].
      split.
      { destruct (proj1 (Hin t) (or_introl eq_refl)) as (file & Hf & Hc & <-).
        now rewrite (videoFileOf_tagOf file Hc). }
      split.
      { intros file Hf Hc.
        pose proof (videoFileOf_tagOf file Hc) as Hre.
        destruct (proj2 (Hin (tagOf file))) as [Heq | Hl];
          [now exists file | |].
        - rewrite Heq, Hre. apply Z.le_refl.
        - inversion Hs as [|? ? _ Hhd]; subst.
          rewrite Forall_forall in Hhd. specialize (Hhd _ Hl).
          unfold notOlder in Hhd. now rewrite Hre in Hhd. }
      split; [reflexivity|].
      unfold csvRequest, selectedTagEffect. cbn [selectedTag].
      split; intros Ht.
      * rewrite Ht. cbn. split; reflexivity.
      * apply String.eqb_neq in Ht. rewrite Ht.
        split; [reflexivity|]. split; [reflexivity|].
        split; [reflexivity|]. split; [reflexivity|].
        intros message. split; [reflexivity|]. split; [reflexivity|].
        intros Hm. apply String.eqb_neq in Hm.
        unfold renderApp, loadData. cbn. now rewrite Hm.
Qed.

End Listing.

End TagFacts.

(** ** The screenshot viewer *)

Section LegacyFacts.

Import Legacy.
Open Scope Z_scope.

Variable timelineData : list Shot.
Local Abbreviation N := (dataLength timelineData).

Lemma legacy_unchanged (v : Viewer) :
  playbackChanged v = false ->
  depPlaying v = isPlaying v /\ (depSpeed v == playbackSpeed v)%Q.
Proof.
  unfold playbackChanged. intros H.
  apply orb_false_iff in H. destruct H as [H2 H3].
  apply negb_false_iff, Bool.eqb_prop in H2.
  apply negb_false_iff, Qeq_bool_iff in H3.
  split; auto. now symmetry.
Qed.

Lemma legacy_Inv_PreInv (v : Viewer) : Inv timelineData v -> PreInv timelineData v.
Proof.
  intros [Hi Hs Hd Ht]. destruct (legacy_unchanged v Hd) as [Hp Hq].
  split; [exact Hi | exact Hs |]. rewrite Hp.
  destruct (isPlaying v); [|exact Ht].
  destruct Ht as (t & H1 & H2 & H3). exists t.
  split; [exact H1|]. split; [exact H2|]. now rewrite Hq.
Qed.

(** The cleanup, when there is one to run, leaves no interval. *)
Lemma legacy_cleanup_clears (v : Viewer) :
  PreInv timelineData v ->
  intervals (if depPlaying v then clearHeld v else v) = [].
Proof.
  intros [_ _ Ht]. destruct (depPlaying v); [|exact Ht].
  destruct Ht as (t & H1 & H2 & _).
  unfold clearHeld. rewrite H2. cbn. rewrite H1. cbn.
  unfold other_interval. now rewrite Pos.eqb_refl.
Qed.

Lemma legacy_clearHeld_nil (v : Viewer) : intervals v = [] -> clearHeld v = v.
Proof.
  intros H. unfold clearHeld. destruct (playIntervalRef v) as [h|];
    [|reflexivity].
  unfold clearInterval. rewrite H. cbn. rewrite <- H. now destruct v.
Qed.

(** Rendering after a handler settles in one commit. *)
Lemma legacy_rerender_Inv (v : Viewer) :
  PreInv timelineData v ->
  exists v', rerender v = Done v'
    /\ Inv timelineData v'
    /\ currentIndex v' = currentIndex v
    /\ isPlaying v' = isPlaying v
    /\ playbackSpeed v' = playbackSpeed v
    /\ (playbackChanged v = false -> v' = v).
Proof.
  intros HP. pose proof HP as [Hi Hs Ht]. unfold rerender.
  destruct (playbackChanged v) eqn:E.
  - pose proof (legacy_cleanup_clears v HP) as Hc.
    unfold commit. set (v1 := if depPlaying v then clearHeld v else v) in *.
    assert (H1 : currentIndex v1 = currentIndex v
                 /\ isPlaying v1 = isPlaying v
                 /\ playbackSpeed v1 = playbackSpeed v).
    { unfold v1, clearHeld.
      destruct (depPlaying v); [|now repeat split].
      destruct (playIntervalRef v); now repeat split. }
    destruct H1 as (Hx1 & Hx2 & Hx3).
    unfold playbackEffect. destruct (isPlaying v) eqn:Ep.
    + rewrite (num_div_positive 100 _ Hs). cbn [bind setInterval].
      eexists. split; [reflexivity|]. cbn.
      split; [|repeat split; auto; discriminate].
      split; cbn.
      * now rewrite Hx1.
      * now rewrite Hx3.
      * unfold playbackChanged. cbn.
        now rewrite Hx2, Hx3, Qeq_bool_same.
      * rewrite Hx2, Hc. cbn. eexists. repeat split. now rewrite Hx3.
    + cbn [bind]. rewrite (legacy_clearHeld_nil v1 Hc).
      eexists. split; [reflexivity|]. cbn.
      split; [|repeat split; auto; discriminate].
      split; cbn.
      * now rewrite Hx1.
      * now rewrite Hx3.
      * unfold playbackChanged. cbn.
        now rewrite Hx2, Hx3, Qeq_bool_same.
      * now rewrite Hx2.
  - exists v. split; [reflexivity|].
    split; [|repeat split; auto].
    destruct (legacy_unchanged v E) as [Hp Hq].
    split; [exact Hi | exact Hs | exact E |].
    rewrite <- Hp. destruct (depPlaying v); [|exact Ht].
    destruct Ht as (t & H1 & H2 & H3). exists t.
    split; [exact H1|]. split; [exact H2|]. now rewrite <- Hq.
Qed.

Lemma legacy_handler_PreInv (v u : Viewer) :
  PreInv timelineData v ->
  0 <= currentIndex u < N -> (0 < playbackSpeed u)%Q ->
  playIntervalRef u = playIntervalRef v -> intervals u = intervals v ->
  depPlaying u = depPlaying v -> depSpeed u = depSpeed v ->
  PreInv timelineData u.
Proof.
  intros [_ _ Ht] Hi Hs Hr Hl Hp Hq. split; [exact Hi | exact Hs |].
  now rewrite Hp, Hr, Hl, Hq.
Qed.

Lemma legacy_handleKeyDown_PreInv (k : Key) (v : Viewer) :
  Inv timelineData v -> PreInv timelineData (handleKeyDown timelineData k v).
Proof.
  intros HI. pose proof (legacy_Inv_PreInv v HI) as HP. pose proof HP as [Hi Hs _].
  destruct k; cbn [handleKeyDown].
  - apply (legacy_handler_PreInv v); auto.
  - destruct (currentIndex v <? N - 1) eqn:E1; [|exact HP].
    apply Z.ltb_lt in E1. apply (legacy_handler_PreInv v); auto. cbn. lia.
  - destruct (0 <? currentIndex v) eqn:E1; [|exact HP].
    apply Z.ltb_lt in E1. apply (legacy_handler_PreInv v); auto. cbn. lia.
  - exact HP.
Qed.

Lemma legacy_handlePlayPause_PreInv (v : Viewer) :
  Inv timelineData v -> PreInv timelineData (handlePlayPause timelineData v).
Proof.
  intros HI. pose proof (legacy_Inv_PreInv v HI) as HP. pose proof HP as [Hi Hs _].
  unfold handlePlayPause. destruct (currentIndex v >=? N - 1);
    apply (legacy_handler_PreInv v); auto. cbn. lia.
Qed.

Lemma legacy_intervalCallback_PreInv (v : Viewer) :
  Inv timelineData v -> PreInv timelineData (intervalCallback timelineData v).
Proof.
  intros HI. pose proof (legacy_Inv_PreInv v HI) as HP. pose proof HP as [Hi Hs _].
  unfold intervalCallback. destruct (currentIndex v >=? N - 1) eqn:E;
    apply (legacy_handler_PreInv v); auto.
  rewrite Z.geb_leb in E. apply Z.leb_gt in E. cbn. lia.
Qed.

Lemma legacy_step_Inv (v : Viewer) (e : Event) :
  Inv timelineData v -> deliverable timelineData e ->
  exists v', step timelineData v e = Done v' /\ Inv timelineData v'.
Proof.
  intros HI He. pose proof (legacy_Inv_PreInv v HI) as HP.
  pose proof HP as [Hi Hs _].
  assert (Hre : forall u, PreInv timelineData u ->
                exists v', rerender u = Done v' /\ Inv timelineData v').
  { intros u Hu. destruct (legacy_rerender_Inv u Hu) as (v' & H1 & H2 & _).
    now exists v'. }
  destruct e as [|k|i|s|h]; cbn [step].
  - apply Hre, legacy_handlePlayPause_PreInv, HI.
  - apply Hre, legacy_handleKeyDown_PreInv, HI.
  - apply Hre. apply (legacy_handler_PreInv v); auto.
  - apply Hre. apply (legacy_handler_PreInv v); auto.
  - destruct (activeInterval h v); [|now exists v].
    apply Hre, legacy_intervalCallback_PreInv, HI.
Qed.

Lemma legacy_run_Inv (es : list Event) : forall v,
  Inv timelineData v -> Forall (deliverable timelineData) es ->
  exists v', run timelineData v es = Done v' /\ Inv timelineData v'.
Proof.
  induction es as [|e es IH]; intros v HI Hes; cbn [run].
  - now exists v.
  - inversion Hes as [|? ? He Hes']; subst.
    destruct (legacy_step_Inv v e HI He) as (v1 & H1 & HI1).
    rewrite H1. cbn [bind]. now apply IH.
Qed.

Lemma legacy_mount_Inv : 1 <= N -> Inv timelineData mount.
Proof.
  intros HN. split; cbn; [lia | reflexivity | reflexivity | reflexivity].
Qed.

(** Property X19 (TimelineViewer, the playback effect).  After any sequence
    of events on a recording with at least one screenshot the index is
    inside the recording; while the viewer plays, exactly one interval is
    set, it is the one [playIntervalRef] holds, and its period is 100 ms
    divided by the current speed, whatever the timestamps of the
    recording; while the viewer is stopped no interval is set. *)
Theorem legacy_one_interval (es : list Event) :
  1 <= N -> Forall (deliverable timelineData) es ->
  exists v, run timelineData mount es = Done v
    /\ 0 <= currentIndex v <= N - 1
    /\ (isPlaying v = true ->
        exists t, intervals v = [t]
                  /\ playIntervalRef v = Some (intervalId t)
                  /\ (intervalPeriod t == 100 / playbackSpeed v)%Q)
    /\ (isPlaying v = false ->
        intervals v = []
        /\ forall h, step timelineData v (IntervalFires h) = Done v).
Proof.
  intros HN Hes.
  destruct (legacy_run_Inv es mount (legacy_mount_Inv HN) Hes) as (v & Hr & [Hi Hs Hd Ht]).
  exists v. split; [exact Hr|]. split; [lia|]. split; intros Hp;
    rewrite Hp in Ht.
  - exact Ht.
  - split; [exact Ht|]. intros h. cbn [step]. unfold activeInterval.
    now rewrite Ht.
Qed.

Lemma legacy_rerender_stopped (u : Viewer) :
  PreInv timelineData u -> isPlaying u = false ->
  exists v', rerender u = Done v'
    /\ currentIndex v' = currentIndex u /\ isPlaying v' = false
    /\ playbackSpeed v' = playbackSpeed u /\ intervals v' = [].
Proof.
  intros HP Hp.
  destruct (legacy_rerender_Inv u HP) as (v' & H1 & [_ _ _ Ht] & H2 & H3 & H4 & _).
  exists v'. rewrite H3, Hp in Ht. rewrite H3. now repeat split.
Qed.

(** Property X20 (TimelineViewer, [handleKeyDown]).  While the screenshot
    viewer plays, an arrow key that moves the index also pauses: the index
    moves by one, the viewer is stopped and the interval is cleared.  At
    the end towards which the key points the key does nothing, and the
    viewer keeps playing. *)
Theorem legacy_arrows_pause (es : list Event) :
  1 <= N -> Forall (deliverable timelineData) es ->
  exists v, run timelineData mount es = Done v
    /\ (0 < currentIndex v ->
        exists v', step timelineData v (KeyDown ArrowLeft) = Done v'
          /\ currentIndex v' = currentIndex v - 1
          /\ isPlaying v' = false /\ intervals v' = []
          /\ playbackSpeed v' = playbackSpeed v)
    /\ (currentIndex v < N - 1 ->
        exists v', step timelineData v (KeyDown ArrowRight) = Done v'
          /\ currentIndex v' = currentIndex v + 1
          /\ isPlaying v' = false /\ intervals v' = []
          /\ playbackSpeed v' = playbackSpeed v)
    /\ (currentIndex v = 0 ->
        step timelineData v (KeyDown ArrowLeft) = Done v)
    /\ (currentIndex v = N - 1 ->
        step timelineData v (KeyDown ArrowRight) = Done v).
Proof.
  intros HN Hes.
  destruct (legacy_run_Inv es mount (legacy_mount_Inv HN) Hes) as (v & Hr & HI).
  exists v. split; [exact Hr|].
  pose proof (legacy_handleKeyDown_PreInv ArrowLeft v HI) as HL.
  pose proof (legacy_handleKeyDown_PreInv ArrowRight v HI) as HR.
  pose proof HI as [Hi Hs Hd Ht].
  split; [|split; [|split]].
  - intros H0. cbn [step] in *. cbn [handleKeyDown] in *.
    apply Z.ltb_lt in H0. rewrite H0 in *.
    destruct (legacy_rerender_stopped _ HL eq_refl) as (v' & H1 & H2 & H3 & H4 & H5).
    exists v'. now repeat split.
  - intros H0. cbn [step] in *. cbn [handleKeyDown] in *.
    apply Z.ltb_lt in H0. rewrite H0 in *.
    destruct (legacy_rerender_stopped _ HR eq_refl) as (v' & H1 & H2 & H3 & H4 & H5).
    exists v'. now repeat split.
  - intros H0. cbn [step handleKeyDown]. rewrite H0. cbn.
    unfold rerender. now rewrite Hd.
  - intros H0. cbn [step handleKeyDown]. rewrite H0.
    rewrite Z.ltb_irrefl. unfold rerender. now rewrite Hd.
Qed.

(** A tick before the end moves on and keeps the interval. *)
Lemma legacy_tick_advances (v : Viewer) (t : Interval) :
  Inv timelineData v -> intervals v = [t] -> currentIndex v < N - 1 ->
  step timelineData v (IntervalFires (intervalId t))
  = Done (setCurrentIndex (currentIndex v + 1) v)
  /\ Inv timelineData (setCurrentIndex (currentIndex v + 1) v).
Proof.
  intros HI Hl Hlt. pose proof HI as [Hi Hs Hd Ht].
  cbn [step]. unfold activeInterval. rewrite Hl. cbn [find intervalId].
  rewrite Pos.eqb_refl. unfold intervalCallback.
  assert (E : (currentIndex v >=? N - 1) = false)
    by (rewrite Z.geb_leb; apply Z.leb_gt; lia).
  rewrite E.
  assert (HP : PreInv timelineData (setCurrentIndex (currentIndex v + 1) v)).
  { apply (legacy_handler_PreInv v); auto using legacy_Inv_PreInv. cbn. lia. }
  destruct (legacy_rerender_Inv _ HP) as (v' & H1 & H2 & _ & _ & _ & H6).
  rewrite (H6 Hd) in *. now split.
Qed.

(** A tick at the end stops the viewer. *)
Lemma legacy_tick_stops (v : Viewer) (t : Interval) :
  Inv timelineData v -> intervals v = [t] -> currentIndex v = N - 1 ->
  exists v', step timelineData v (IntervalFires (intervalId t)) = Done v'
    /\ currentIndex v' = N - 1 /\ isPlaying v' = false
    /\ intervals v' = [] /\ playbackSpeed v' = playbackSpeed v.
Proof.
  intros HI Hl Heq. pose proof HI as [Hi Hs Hd Ht].
  cbn [step]. unfold activeInterval. rewrite Hl. cbn [find intervalId].
  rewrite Pos.eqb_refl.
  pose proof (legacy_intervalCallback_PreInv v HI) as HP.
  unfold intervalCallback in *.
  assert (E : (currentIndex v >=? N - 1) = true)
    by (rewrite Z.geb_leb; apply Z.leb_le; lia).
  rewrite E in *.
  destruct (legacy_rerender_stopped _ HP eq_refl) as (v' & H1 & H2 & H3 & H4 & H5).
  exists v'. cbn in H2, H4. rewrite <- Heq. now repeat split.
Qed.

Lemma legacy_ticks_advance (k : nat) : forall (v : Viewer) (t : Interval),
  Inv timelineData v -> intervals v = [t] ->
  currentIndex v + Z.of_nat k <= N - 1 ->
  exists v', ticks timelineData k v = Done v'
    /\ Inv timelineData v'
    /\ currentIndex v' = currentIndex v + Z.of_nat k
    /\ isPlaying v' = isPlaying v
    /\ playbackSpeed v' = playbackSpeed v
    /\ intervals v' = [t].
Proof.
  induction k as [|k IH]; intros v t HI Hl Hk.
  - exists v. cbn [ticks Z.of_nat]. rewrite Z.add_0_r.
    split; [reflexivity|]. split; [exact HI|]. now repeat split.
  - cbn [ticks]. rewrite Hl.
    destruct (legacy_tick_advances v t HI Hl ltac:(lia)) as [H1 HI1].
    rewrite H1. cbn [bind].
    destruct (IH (setCurrentIndex (currentIndex v + 1) v) t HI1 Hl)
      as (v' & H2 & H3 & H4 & H5 & H6 & H7); [cbn; lia|].
    exists v'. split; [exact H2|]. split; [exact H3|].
    cbn in H4, H5, H6. split; [lia|]. now repeat split.
Qed.

(** Property X21 (TimelineViewer, the interval callback).  From any
    reachable playing state at index [i], [k] ticks of the interval show
    index [i + k] as long as that is inside the recording, and the viewer
    is still playing when it shows the last screenshot: it takes one more
    tick, [N - i] in all, to stop it, at the last index and with the
    interval cleared. *)
Theorem legacy_playback_overruns (es : list Event) :
  1 <= N -> Forall (deliverable timelineData) es ->
  exists v, run timelineData mount es = Done v
    /\ (isPlaying v = true ->
        (forall k, currentIndex v + Z.of_nat k <= N - 1 ->
           exists v', ticks timelineData k v = Done v'
             /\ currentIndex v' = currentIndex v + Z.of_nat k
             /\ isPlaying v' = true
             /\ intervals v' = intervals v)
        /\ exists v', ticks timelineData (Z.to_nat (N - currentIndex v)) v
                      = Done v'
             /\ currentIndex v' = N - 1
             /\ isPlaying v' = false
             /\ intervals v' = []
             /\ playbackSpeed v' = playbackSpeed v).
Proof.
  intros HN Hes.
  destruct (legacy_run_Inv es mount (legacy_mount_Inv HN) Hes) as (v & Hr & HI).
  exists v. split; [exact Hr|]. intros Hp.
  pose proof HI as [Hi Hs Hd Ht]. rewrite Hp in Ht.
  destruct Ht as (t & Hl & _). split.
  - intros k Hk.
    destruct (legacy_ticks_advance k v t HI Hl Hk)
      as (v' & H1 & _ & H2 & H3 & _ & H4).
    exists v'. rewrite Hl, <- Hp. now repeat split.
  - destruct (legacy_ticks_advance (Z.to_nat (N - 1 - currentIndex v)) v t HI Hl)
      as (v1 & H1 & HI1 & H2 & H3 & H4 & H5); [lia|].
    replace (Z.to_nat (N - currentIndex v))
      with (Z.to_nat (N - 1 - currentIndex v) + 1)%nat by lia.
    assert (Hsplit : forall a b u,
      ticks timelineData (a + b) u
      = (u' <- ticks timelineData a u ;; ticks timelineData b u')).
    { induction a as [|a IHa]; intros b u; [reflexivity|].
      cbn [ticks Nat.add]. destruct (intervals u) as [|t0 l] eqn:El.
      - cbn [bind]. destruct b; cbn [ticks]; [reflexivity | now rewrite El].
      - destruct (step timelineData u (IntervalFires (intervalId t0)));
          cbn [bind]; [apply IHa | reflexivity]. }
    rewrite Hsplit, H1. cbn [bind ticks]. rewrite H5.
    destruct (legacy_tick_stops v1 t HI1 H5 ltac:(lia))
      as (v' & H6 & H7 & H8 & H9 & H10).
    rewrite H6. cbn [bind]. exists v'. rewrite H10, H4. now repeat split.
Qed.

End LegacyFacts.

(** ** The screenshot display *)

Section LegacyDisplayFacts.

Import Display LegacyDisplay.
Open Scope Q_scope.

Lemma num_div_zero (a b : number) : b == 0 -> num_div a b = Fault DivisionByZero.
Proof.
  intros H. unfold num_div. apply Qeq_bool_iff in H. now rewrite H.
Qed.

Lemma num_div_not_zero (a b : number) : ~ b == 0 -> num_div a b = Done (a / b).
Proof.
  intros H. unfold num_div. now rewrite (Qeq_bool_neq_false _ _ H).
Qed.

(** Property X22 (ScreenshotDisplay, [updateDisplay] and the display
    effect).  With the three elements mounted, the screenshot projector
    divides by zero exactly when the image has no natural width or height,
    which the video projector tests for and the screenshot projector does
    not; the effect's test of [complete] does not exclude it.  Otherwise
    the two projectors write the same styles for the same sizes, except
    that in direct mode the screenshot projector leaves the transition of
    the cursor as it was. *)
Theorem screenshot_projector_unguarded
    (shot : Legacy.Shot) (mode : bool) (d : LegacyDisplay.Dom)
    (cursor : Cursor) (img : Image) (wrapper : Wrapper)
    (frame : option Z) (rs : Z) (t : number) :
  LegacyDisplay.cursorRef d = Some cursor ->
  imgRef d = Some img ->
  LegacyDisplay.wrapperRef d = Some wrapper ->
  ((naturalWidth img == 0 \/ naturalHeight img == 0) <->
   LegacyDisplay.updateDisplay shot mode d = Fault DivisionByZero)
  /\ (naturalWidth img == 0 \/ naturalHeight img == 0 ->
      (complete img = true ->
       displayEffect shot mode d = Fault DivisionByZero)
      /\ Display.updateDisplay (asSample frame shot) mode (asVideoDom rs t d)
         = Done (asVideoDom rs t d))
  /\ (~ naturalWidth img == 0 -> ~ naturalHeight img == 0 ->
      exists d' dv' cursor' cursorv',
        LegacyDisplay.updateDisplay shot mode d = Done d'
        /\ Display.updateDisplay (asSample frame shot) mode (asVideoDom rs t d)
           = Done dv'
        /\ LegacyDisplay.cursorRef d' = Some cursor'
        /\ Display.cursorRef dv' = Some cursorv'
        /\ Display.videoRef dv'
           = Display.videoRef (asVideoDom rs t d')
        /\ cursorLeft cursor' = cursorLeft cursorv'
        /\ cursorTop cursor' = cursorTop cursorv'
        /\ cursorTransform cursor' = cursorTransform cursorv'
        /\ (mode = true -> cursor' = cursorv')
        /\ (mode = false ->
            cursorTransition cursor' = cursorTransition cursor
            /\ cursorTransition cursorv' = Some cursorEaseLeftTop)).
Proof.
  intros Hc Hi Hw.
  assert (Hfault : naturalWidth img == 0 \/ naturalHeight img == 0 ->
                   LegacyDisplay.updateDisplay shot mode d
                   = Fault DivisionByZero).
  { intros Hz. unfold LegacyDisplay.updateDisplay. rewrite Hc, Hi, Hw.
    destruct (Qeq_dec (naturalWidth img) 0) as [Hx|Hx].
    - now rewrite (num_div_zero _ _ Hx).
    - destruct Hz as [Hz|Hz]; [contradiction|].
      rewrite (num_div_not_zero _ _ Hx). cbn [bind].
      now rewrite (num_div_zero _ _ Hz). }
  assert (Hdone : ~ naturalWidth img == 0 -> ~ naturalHeight img == 0 ->
      exists d' dv' cursor' cursorv',
        LegacyDisplay.updateDisplay shot mode d = Done d'
        /\ Display.updateDisplay (asSample frame shot) mode (asVideoDom rs t d)
           = Done dv'
        /\ LegacyDisplay.cursorRef d' = Some cursor'
        /\ Display.cursorRef dv' = Some cursorv'
        /\ Display.videoRef dv'
           = Display.videoRef (asVideoDom rs t d')
        /\ cursorLeft cursor' = cursorLeft cursorv'
        /\ cursorTop cursor' = cursorTop cursorv'
        /\ cursorTransform cursor' = cursorTransform cursorv'
        /\ (mode = true -> cursor' = cursorv')
        /\ (mode = false ->
            cursorTransition cursor' = cursorTransition cursor
            /\ cursorTransition cursorv' = Some cursorEaseLeftTop)).
  { intros Hx Hy.
    unfold LegacyDisplay.updateDisplay, Display.updateDisplay, asVideoDom.
    rewrite Hc, Hi, Hw. cbn [Display.cursorRef Display.videoRef
      Display.wrapperRef option_map asVideo videoWidth videoHeight
      clientWidth clientHeight readyState currentTime asSample x y].
    rewrite (Qeq_bool_neq_false _ _ Hx), (Qeq_bool_neq_false _ _ Hy).
    cbn [orb].
    rewrite !(num_div_not_zero _ _ Hx), !(num_div_not_zero _ _ Hy).
    rewrite !num_div_2. cbn [bind].
    destruct mode; rewrite ?num_div_2; cbn [bind];
      do 4 eexists; (split; [reflexivity|]); (split; [reflexivity|]);
      cbn; repeat split; try reflexivity; try discriminate. }
  split; [split; [exact Hfault|] | split; [|exact Hdone]].
  - intros Hf.
    destruct (Qeq_dec (naturalWidth img) 0) as [Hx|Hx]; [now left|].
    destruct (Qeq_dec (naturalHeight img) 0) as [Hy|Hy]; [now right|].
    destruct (Hdone Hx Hy) as (d' & _ & _ & _ & Hd & _).
    rewrite Hd in Hf. discriminate.
  - intros Hz. split.
    + intros Hcomp. unfold displayEffect. rewrite Hi, Hcomp.
      now apply Hfault.
    + unfold Display.updateDisplay, asVideoDom. rewrite Hc, Hi, Hw.
      cbn [Display.cursorRef Display.videoRef Display.wrapperRef option_map
           asVideo videoWidth videoHeight].
      destruct Hz as [Hz|Hz]; apply Qeq_bool_iff in Hz; rewrite Hz;
        [reflexivity | now rewrite orb_true_r].
Qed.

End LegacyDisplayFacts.

(** ** The properties at concrete inputs *)

Section SchedulerInstances.

Import Scheduler Playout Controls Examples MoreExamples.
Open Scope Z_scope.

Local Ltac events_ok :=
  repeat constructor; vm_compute; try reflexivity; discriminate.

Lemma one_pending_timeout_witness :
  exists v, run threeSamples mount [ClickPlayPause; SpeedInput 2] = Done v
    /\ (isPlaying v = true ->
        exists t, timeouts v = [t]
                  /\ playIntervalRef v = Some (timerId t)
                  /\ 1 <= cbNextIndex t <= dataLength threeSamples - 1
                  /\ (cbPlaybackSpeed t == playbackSpeed v)%Q)
    /\ (isPlaying v = false ->
        timeouts v = [] /\ playIntervalRef v = None
        /\ forall h, step threeSamples v (TimerFires h) = Done v).
Proof.
  apply (one_pending_timeout threeSamples).
  - vm_compute. discriminate.
  - events_ok.
Defined.

Lemma pending_delay_is_sample_delta_witness :
  exists v, run threeSamples mount [ClickPlayPause; SpeedInput 2] = Done v
    /\ forall t, In t (timeouts v) ->
       exists cur nxt,
         dataAt threeSamples (cbNextIndex t - 1) = Some cur
         /\ dataAt threeSamples (cbNextIndex t) = Some nxt
         /\ (timerDelay t / 1000
             == (timestamp nxt - timestamp cur) / playbackSpeed v)%Q.
Proof.
  apply (pending_delay_is_sample_delta threeSamples).
  - vm_compute. discriminate.
  - events_ok.
Defined.

Lemma play_runs_to_the_end_witness :
  exists v, run threeSamples mount [SpeedInput 2] = Done v
    /\ (isPlaying v = false -> currentIndex v < dataLength threeSamples - 1 ->
        exists v1 r first last,
          dataAt threeSamples (currentIndex v) = Some first
          /\ dataAt threeSamples (dataLength threeSamples - 1) = Some last
          /\ step threeSamples v ClickPlayPause = Done v1
          /\ playOut threeSamples
               (Z.to_nat (dataLength threeSamples - 1 - currentIndex v)) v1
             = Done r
          /\ currentIndex (final r) = dataLength threeSamples - 1
          /\ isPlaying (final r) = false
          /\ timeouts (final r) = []
          /\ visited r
             = indicesFrom (currentIndex v + 1)
                 (Z.to_nat (dataLength threeSamples - 1 - currentIndex v))
          /\ (waited r / 1000
              == (timestamp last - timestamp first) / playbackSpeed v)%Q).
Proof.
  apply (play_runs_to_the_end threeSamples).
  - vm_compute. discriminate.
  - events_ok.
Defined.

Lemma pause_keeps_position_witness :
  exists v, run threeSamples mount [ClickPlayPause] = Done v
    /\ (isPlaying v = true ->
        forall e, e = KeyDown Space
                  \/ (e = ClickPlayPause
                      /\ currentIndex v < dataLength threeSamples - 1) ->
        exists v', step threeSamples v e = Done v'
          /\ isPlaying v' = false
          /\ currentIndex v' = currentIndex v
          /\ playbackSpeed v' = playbackSpeed v
          /\ timeouts v' = [] /\ playIntervalRef v' = None).
Proof.
  apply (pause_keeps_position threeSamples).
  - vm_compute. discriminate.
  - events_ok.
Defined.

Lemma scrub_always_pauses_witness :
  exists v v', run threeSamples mount [ClickPlayPause] = Done v
    /\ step threeSamples v (SliderInput 2) = Done v'
    /\ currentIndex v' = 2
    /\ isPlaying v' = false
    /\ playbackSpeed v' = playbackSpeed v
    /\ timeouts v' = []
    /\ forall h, step threeSamples v' (TimerFires h) = Done v'.
Proof.
  apply (scrub_always_pauses threeSamples).
  - vm_compute. discriminate.
  - events_ok.
  - vm_compute. split; [discriminate | reflexivity].
Defined.

Lemma arrow_right_then_left_witness :
  exists v, run threeSamples mount [ClickPlayPause] = Done v
    /\ (currentIndex v < dataLength threeSamples - 1 ->
        exists v1 v2,
          step threeSamples v (KeyDown ArrowRight) = Done v1
          /\ currentIndex v1 = currentIndex v + 1
          /\ step threeSamples v1 (KeyDown ArrowLeft) = Done v2
          /\ currentIndex v2 = currentIndex v
          /\ isPlaying v2 = isPlaying v
          /\ playbackSpeed v2 = playbackSpeed v
          /\ timeouts v2 = timeouts v)
    /\ (currentIndex v = dataLength threeSamples - 1 ->
        exists v1 v2,
          step threeSamples v (KeyDown ArrowRight) = Done v1
          /\ step threeSamples v1 (KeyDown ArrowLeft) = Done v2
          /\ currentIndex v2 = Z.max (dataLength threeSamples - 2) 0).
Proof.
  apply (arrow_right_then_left threeSamples).
  - vm_compute. discriminate.
  - events_ok.
Defined.

Lemma progress_bar_in_range_witness :
  exists v c p,
    run threeSamples mount [SliderInput 1] = Done v
    /\ render threeSamples v = Timeline c
    /\ dataAt threeSamples (currentIndex v) = Some (shownSample c)
    /\ sliderMin c <= sliderValue c <= sliderMax c
    /\ 1 <= fst (counter c) <= snd (counter c)
    /\ progress c = Done p
    /\ (0 <= p <= 100)%Q
    /\ ((p == 0)%Q <-> currentIndex v = 0)
    /\ ((p == 100)%Q <-> currentIndex v = dataLength threeSamples - 1).
Proof.
  apply (progress_bar_in_range threeSamples).
  - vm_compute. discriminate.
  - events_ok.
Defined.

Lemma single_sample_never_plays_witness :
  exists v c,
    run oneSample mount [ClickPlayPause; KeyDown ArrowRight] = Done v
    /\ currentIndex v = 0
    /\ isPlaying v = false
    /\ timeouts v = []
    /\ render oneSample v = Timeline c
    /\ counter c = (1, 1)
    /\ progress c = Fault DivisionByZero.
Proof.
  apply (single_sample_never_plays oneSample).
  - reflexivity.
  - events_ok.
Defined.

Lemma C1_witness :
  exists v cur nxt t,
    run threeSamples mount [SliderInput 0; SpeedInput 1; ClickPlayPause]
    = Done v
    /\ isPlaying v = true /\ currentIndex v = 0
    /\ dataAt threeSamples 0 = Some cur
    /\ dataAt threeSamples 1 = Some nxt
    /\ timeouts v = [t]
    /\ cbNextIndex t = 1
    /\ (timerDelay t / 1000 == (timestamp nxt - timestamp cur) / 1)%Q
    /\ (exists v2 t2,
          step threeSamples v (SpeedInput 2) = Done v2
          /\ timeouts v2 = [t2] /\ cbNextIndex t2 = 1
          /\ (timerDelay t2 == timerDelay t / 2)%Q).
Proof.
  destruct (C1_scheduled_delay threeSamples [] 0 1)
    as (v0 & v & cur & nxt & t & H0 & _ & H2 & H3 & H4 & _ & H6 & H7 & H8
        & _ & H10 & H11 & (v2 & t2 & K1 & _ & _ & K4 & K5 & K6) & _).
  - vm_compute. discriminate.
  - constructor.
  - vm_compute. split; [discriminate | reflexivity].
  - reflexivity.
  - injection H0 as <-.
    exists v, cur, nxt, t. split; [exact H2|]. split; [exact H3|].
    split; [exact H4|]. split; [exact H6|]. split; [exact H7|].
    split; [exact H8|]. split; [exact H10|]. split; [exact H11|].
    exists v2, t2. split; [exact K1|]. split; [exact K4|].
    split; [exact K5 | exact K6].
Defined.



End SchedulerInstances.

Section DisplayInstances.

Import Display Sync Examples.
Open Scope Q_scope.

Lemma pov_mode_geometry_witness :
  exists d' cursor' video' offsetX offsetY,
    updateDisplay sampleAt800x600 true loadedDom = Done d'
    /\ cursorRef d' = Some cursor'
    /\ cursorLeft cursor' = Some (Percent 50)
    /\ cursorTop cursor' = Some (Percent 50)
    /\ cursorTransform cursor'
       = Some (Translate (Percent (-50)) (Percent (-50)))
    /\ videoRef d' = Some video'
    /\ videoTransform video' = Some (Translate (Px offsetX) (Px offsetY))
    /\ (800 / 2) * (500 / 1000) + offsetX == 800 / 2
    /\ (600 / 2) * (500 / 1000) + offsetY == 600 / 2.
Proof.
  apply (pov_mode_geometry sampleAt800x600 loadedDom
           (mkCursor None None None None)
           (mkVideo 1000 1000 500 500 0 0 None None)
           (mkWrapper 800 600) eq_refl eq_refl eq_refl).
  - vm_compute. discriminate.
  - vm_compute. discriminate.
Defined.

Lemma last_projection_wins_witness :
  exists d1,
    updateDisplay sampleAt800x600 true loadedDom = Done d1
    /\ updateDisplay sampleAtFrame7 false d1
       = updateDisplay sampleAtFrame7 false loadedDom
    /\ updateDisplay sampleAt800x600 true d1 = Done d1.
Proof.
  eexists. split; [vm_compute; reflexivity|].
  apply (last_projection_wins sampleAtFrame7 sampleAt800x600 false true
           loadedDom).
  vm_compute. reflexivity.
Defined.

Lemma updateDisplay_only_styles_witness :
  exists d',
    updateDisplay sampleAt800x600 false loadedDom = Done d'
    /\ mediaFacts d' = mediaFacts loadedDom
    /\ wrapperRef d' = wrapperRef loadedDom
    /\ (cursorRef d' = None <-> cursorRef loadedDom = None).
Proof.
  eexists. split; [vm_compute; reflexivity|].
  apply (updateDisplay_only_styles sampleAt800x600 false loadedDom).
  vm_compute. reflexivity.
Defined.

Lemma seek_iff_frame_changes_witness :
  exists s0 s k,
    mount sampleAtFrame7 false unloadedDom = Done s0
    /\ run s0 [SeekingSignal; SeekedSignal] = Done s
    /\ standsOn s k
    /\ (forall fn, frame_number (data s) = Some fn -> fn = k)
    /\ forall next fn, frame_number next = Some fn ->
       (Z.abs fn <= frameLimit)%Z ->
       exists s',
         step s (NewSample next) = Done s'
         /\ data s' = next
         /\ (fn = k ->
             seekCommands s' = seekCommands s /\ standsOn s' k
             /\ isSeeking s' = isSeeking s /\ pendingData s' = pendingData s)
         /\ (fn <> k ->
             seekCommands s' = seekCommands s ++ [inject_Z fn / 10]
             /\ standsOn s' fn
             /\ isSeeking s' = true /\ pendingData s' = Some next).
Proof.
  apply (seek_iff_frame_changes sampleAtFrame7 false unloadedDom
           (mkVideo 0 0 0 0 0 0 None None) 0 _ eq_refl).
  - vm_compute. reflexivity.
  - vm_compute. discriminate.
  - intros fn [= <-]. vm_compute. discriminate.
  - repeat constructor.
Defined.

End DisplayInstances.

Section LegacyInstances.

Import Legacy MoreExamples.
Open Scope Z_scope.

Local Ltac shots_ok :=
  repeat constructor; vm_compute; try reflexivity; discriminate.

Lemma legacy_one_interval_witness :
  exists v, run threeShots mount [ClickPlayPause; SpeedInput 2] = Done v
    /\ 0 <= currentIndex v <= dataLength threeShots - 1
    /\ (isPlaying v = true ->
        exists t, intervals v = [t]
                  /\ playIntervalRef v = Some (intervalId t)
                  /\ (intervalPeriod t == 100 / playbackSpeed v)%Q)
    /\ (isPlaying v = false ->
        intervals v = []
        /\ forall h, step threeShots v (IntervalFires h) = Done v).
Proof.
  apply (legacy_one_interval threeShots).
  - vm_compute. discriminate.
  - shots_ok.
Defined.

Lemma legacy_arrows_pause_witness :
  exists v, run threeShots mount [SliderInput 1; ClickPlayPause] = Done v
    /\ (0 < currentIndex v ->
        exists v', step threeShots v (KeyDown ArrowLeft) = Done v'
          /\ currentIndex v' = currentIndex v - 1
          /\ isPlaying v' = false /\ intervals v' = []
          /\ playbackSpeed v' = playbackSpeed v)
    /\ (currentIndex v < dataLength threeShots - 1 ->
        exists v', step threeShots v (KeyDown ArrowRight) = Done v'
          /\ currentIndex v' = currentIndex v + 1
          /\ isPlaying v' = false /\ intervals v' = []
          /\ playbackSpeed v' = playbackSpeed v)
    /\ (currentIndex v = 0 ->
        step threeShots v (KeyDown ArrowLeft) = Done v)
    /\ (currentIndex v = dataLength threeShots - 1 ->
        step threeShots v (KeyDown ArrowRight) = Done v).
Proof.
  apply (legacy_arrows_pause threeShots).
  - vm_compute. discriminate.
  - shots_ok.
Defined.

Lemma legacy_playback_overruns_witness :
  exists v, run threeShots mount [ClickPlayPause] = Done v
    /\ (isPlaying v = true ->
        (forall k, currentIndex v + Z.of_nat k <= dataLength threeShots - 1 ->
           exists v', ticks threeShots k v = Done v'
             /\ currentIndex v' = currentIndex v + Z.of_nat k
             /\ isPlaying v' = true
             /\ intervals v' = intervals v)
        /\ exists v', ticks threeShots
                        (Z.to_nat (dataLength threeShots - currentIndex v)) v
                      = Done v'
             /\ currentIndex v' = dataLength threeShots - 1
             /\ isPlaying v' = false
             /\ intervals v' = []
             /\ playbackSpeed v' = playbackSpeed v).
Proof.
  apply (legacy_playback_overruns threeShots).
  - vm_compute. discriminate.
  - shots_ok.
Defined.

End LegacyInstances.

Section LegacyDisplayInstances.

Import Display LegacyDisplay MoreExamples.
Open Scope Q_scope.

Lemma screenshot_projector_unguarded_witness :
  LegacyDisplay.updateDisplay shotAt800x600 false brokenImageDom
  = Fault DivisionByZero
  /\ displayEffect shotAt800x600 false brokenImageDom = Fault DivisionByZero
  /\ Display.updateDisplay (asSample (Some 0%Z) shotAt800x600) false
       (asVideoDom 0 0 brokenImageDom)
     = Done (asVideoDom 0 0 brokenImageDom).
Proof.
  destruct (screenshot_projector_unguarded shotAt800x600 false brokenImageDom
              (mkCursor None None None None)
              (mkImage 0 0 500 500 true None None)
              (mkWrapper 800 600) (Some 0%Z) 0 0 eq_refl eq_refl eq_refl)
    as (Hiff & Hzero & _).
  assert (Hz : naturalWidth (mkImage 0 0 500 500 true None None) == 0
               \/ naturalHeight (mkImage 0 0 500 500 true None None) == 0)
    by (left; reflexivity).
  split; [exact (proj1 Hiff Hz)|].
  destruct (Hzero Hz) as [Heff Hvid].
  split; [exact (Heff eq_refl) | exact Hvid].
Defined.

End LegacyDisplayInstances.

Section TagInstances.

Import Tags MoreExamples.
Open Scope string_scope.

Lemma capture_file_is_rebuilt_witness :
  videoFileOf (tagOf demoCapture) = demoCapture
  /\ videoSrcOf (tagOf demoCapture) = "/__cursor_data/" ++ demoCapture.
Proof.
  apply (capture_file_is_rebuilt demoCapture). vm_compute. reflexivity.
Defined.

End TagInstances.
